(** * Vision Transformer: a shallow embedding of the forward pass

    Source: [Vision_Transformer.ipynb] (classes [PatchEmbedding],
    [Position_Encoding], [MultiHeadSelfAttention], [TransformerEncoder],
    [VisionTransformer]).

    Tensors are modelled the way PyTorch stores them: a shape, a list of
    strides, a storage offset and a flat storage (the function from a
    position to the scalar stored there).  [unfold], [permute], [transpose],
    [expand] and indexing only rewrite shape, strides and offset;
    [contiguous] lays the elements out again in row-major order; [view]
    reinterprets a row-major tensor.  Sizes are natural numbers.  The scalar
    type (float32 in the source), its arithmetic and the random number
    generator are parameters of the development, so the statements below
    hold for any interpretation of the floating-point operations.  The one
    statement about the values of the softmax is made over real numbers
    (module [RealScalars]). *)

From Stdlib Require Import String ZArith QArith Bool Arith PeanoNat Lia List.
From Stdlib Require Reals Lra.
Import ListNotations.
Local Open Scope nat_scope.

Set Implicit Arguments.

(** ** Exceptions and the two monads of the model *)

(** The exceptions the Python code can raise.  [RuntimeError] is what PyTorch
    raises on a shape mismatch. *)
Inductive exn : Type :=
| ZeroDivisionError
| AssertionError (msg : string)
| ValueError
| IndexError
| RuntimeError.

(** A computation that returns or raises. *)
Definition result (A : Type) : Type := (exn + A)%type.

Definition ok {A} (a : A) : result A := inr a.
Definition raise {A} (e : exn) : result A := inl e.

Definition rbind {A B} (c : result A) (k : A -> result B) : result B :=
  match c with
  | inl e => inl e
  | inr a => k a
  end.

Declare Scope result_scope.
Delimit Scope result_scope with result.
Notation "x <- c ;; k" := (rbind c (fun x => k))
  (at level 61, c at next level, right associativity) : result_scope.

(** ** Index arithmetic of row-major tensors *)

(** Number of elements of a shape. *)
Definition numel (s : list nat) : nat := fold_right Nat.mul 1 s.

(** Position of an index in a storage with the given strides. *)
Fixpoint dot (idx st : list nat) : nat :=
  match idx, st with
  | i :: idx', s :: st' => i * s + dot idx' st'
  | _, _ => 0
  end.

(** Strides of a row-major (contiguous) tensor of shape [s]. *)
Fixpoint contig_strides (s : list nat) : list nat :=
  match s with
  | [] => []
  | _ :: s' => numel s' :: contig_strides s'
  end.

(** Flat row-major position of an index, and its inverse. *)
Definition ravel (s idx : list nat) : nat := dot idx (contig_strides s).

Fixpoint unravel (s : list nat) (k : nat) : list nat :=
  match s with
  | [] => []
  | _ :: s' => k / numel s' :: unravel s' (k mod numel s')
  end.

(** [idx] is a valid index of a tensor of shape [s]. *)
Definition in_range (idx s : list nat) : Prop := Forall2 lt idx s.

(** ** Strided tensors *)

(** Boolean equality of shapes. *)
Fixpoint list_eqb (a b : list nat) : bool :=
  match a, b with
  | [], [] => true
  | x :: a', y :: b' => (x =? y) && list_eqb a' b'
  | _, _ => false
  end.

Fixpoint set_nth (d v : nat) (l : list nat) : list nat :=
  match l, d with
  | [], _ => []
  | _ :: l', 0 => v :: l'
  | a :: l', S d' => a :: set_nth d' v l'
  end.

Definition remove_nth (d : nat) (l : list nat) : list nat :=
  firstn d l ++ skipn (S d) l.

Definition swap_nth (a b : nat) (l : list nat) : list nat :=
  set_nth a (nth b l 0) (set_nth b (nth a l 0) l).

Fixpoint nodupb (l : list nat) : bool :=
  match l with
  | [] => true
  | x :: l' => negb (existsb (Nat.eqb x) l') && nodupb l'
  end.

(** [p] names every dimension of an [n]-dimensional tensor exactly once. *)
Definition is_perm (n : nat) (p : list nat) : bool :=
  (length p =? n) && forallb (fun d => d <? n) p && nodupb p.

(** A size argument of [view] and [expand]: a number, or the literal [-1]. *)
Inductive dim_arg : Type :=
| Dim (n : nat)
| Minus1.

Definition known_size (a : dim_arg) : nat :=
  match a with Dim n => n | Minus1 => 1 end.

Definition is_minus1 (a : dim_arg) : bool :=
  match a with Dim _ => false | Minus1 => true end.

(** The shape [view] gives a tensor of [n] elements: at most one [-1], which
    stands for the quotient of [n] by the product of the other sizes. *)
Definition infer_shape (n : nat) (args : list dim_arg) : result (list nat) :=
  let newsize := numel (map known_size args) in
  match length (filter is_minus1 args) with
  | 0 => if newsize =? n then ok (map known_size args) else raise RuntimeError
  | 1 =>
      if newsize =? 0 then raise RuntimeError
      else if n mod newsize =? 0
      then ok (map (fun a => match a with Dim m => m | Minus1 => n / newsize end) args)
      else raise RuntimeError
  | _ => raise RuntimeError
  end.

(** A dimension given as a possibly negative Python integer. *)
Definition wrap_dim (n : nat) (d : Z) : result nat :=
  if ((- Z.of_nat n <=? d) && (d <? Z.of_nat n))%Z
  then ok (Z.to_nat (if (d <? 0)%Z then d + Z.of_nat n else d))
  else raise IndexError.

Section Tensor.
Variable F : Type.

Record tensor : Type := mkTensor {
  shape : list nat;
  strides : list nat;
  offset : nat;
  storage : nat -> F
}.

Definition ndim (t : tensor) : nat := length (shape t).

(** [t[idx]] *)
Definition get (t : tensor) (idx : list nat) : F :=
  storage t (offset t + dot idx (strides t)).

(** A fresh row-major tensor of shape [s] whose element at [idx] is [f idx]. *)
Definition build (s : list nat) (f : list nat -> F) : tensor :=
  mkTensor s (contig_strides s) 0 (fun k => f (unravel s k)).

(** A zero-dimensional tensor, as [torch.tensor(v)] of a Python number. *)
Definition scalar_tensor (v : F) : tensor := build [] (fun _ => v).

Definition is_contiguous (t : tensor) : bool :=
  list_eqb (strides t) (contig_strides (shape t)).

(** [t.contiguous()] *)
Definition contiguous (t : tensor) : tensor :=
  if is_contiguous t then t else build (shape t) (get t).

(** [t.size(d)] *)
Definition size (t : tensor) (d : nat) : result nat :=
  if d <? ndim t then ok (nth d (shape t) 0) else raise IndexError.

(** [t.view(sizes)]; the tensor has to be row-major, which it is at every
    call of the source ([contiguous()] or a fresh result comes first). *)
Definition view (t : tensor) (args : list dim_arg) : result tensor :=
  if is_contiguous t then
    (s <- infer_shape (numel (shape t)) args ;;
     ok (mkTensor s (contig_strides s) (offset t) (storage t)))%result
  else raise RuntimeError.

(** [t.unfold(d, size, step)]: all windows of [size] elements along dimension
    [d], [step] apart; the window becomes a new last dimension. *)
Definition unfold (t : tensor) (d sz step : nat) : result tensor :=
  if negb (d <? ndim t) then raise IndexError
  else if nth d (shape t) 0 <? sz then raise RuntimeError
  else if step =? 0 then raise RuntimeError
  else ok (mkTensor
             (set_nth d ((nth d (shape t) 0 - sz) / step + 1) (shape t) ++ [sz])
             (set_nth d (step * nth d (strides t) 0) (strides t)
                ++ [nth d (strides t) 0])
             (offset t) (storage t)).

(** [t.permute(p)] *)
Definition permute (t : tensor) (p : list nat) : result tensor :=
  if is_perm (ndim t) p
  then ok (mkTensor (map (fun d => nth d (shape t) 0) p)
                    (map (fun d => nth d (strides t) 0) p)
                    (offset t) (storage t))
  else raise RuntimeError.

(** [t.transpose(d0, d1)] *)
Definition transpose (t : tensor) (d0 d1 : Z) : result tensor :=
  (a <- wrap_dim (ndim t) d0 ;;
   b <- wrap_dim (ndim t) d1 ;;
   ok (mkTensor (swap_nth a b (shape t)) (swap_nth a b (strides t))
                (offset t) (storage t)))%result.

(** Shape and strides of [t.expand(sizes)]: [-1] keeps a size, a size-1
    dimension is repeated with stride 0. *)
Fixpoint expand_dims (sh st : list nat) (args : list dim_arg)
  : result (list nat * list nat) :=
  match sh, st, args with
  | [], [], [] => ok ([], [])
  | n :: sh', s :: st', a :: args' =>
      (rest <- expand_dims sh' st' args' ;;
       match a with
       | Minus1 => ok (n :: fst rest, s :: snd rest)
       | Dim m =>
           if m =? n then ok (n :: fst rest, s :: snd rest)
           else if n =? 1 then ok (m :: fst rest, 0 :: snd rest)
           else raise RuntimeError
       end)%result
  | _, _, _ => raise RuntimeError
  end.

(** [t.expand(sizes)], for as many sizes as [t] has dimensions (the source
    expands a three-dimensional parameter with three sizes). *)
Definition expand (t : tensor) (args : list dim_arg) : result tensor :=
  (ss <- expand_dims (shape t) (strides t) args ;;
   ok (mkTensor (fst ss) (snd ss) (offset t) (storage t)))%result.

(** [torch.cat((a, b), dim=d)] *)
Definition cat (a b : tensor) (d : nat) : result tensor :=
  if negb (d <? ndim a) then raise IndexError
  else if negb (list_eqb (set_nth d 0 (shape a)) (set_nth d 0 (shape b)))
  then raise RuntimeError
  else
    let na := nth d (shape a) 0 in
    ok (build (set_nth d (na + nth d (shape b) 0) (shape a))
          (fun idx =>
             let i := nth d idx 0 in
             if i <? na then get a idx else get b (set_nth d (i - na) idx))).

(** [t.select(d, i)]; [t[:, i]] is [select t 1 i]. *)
Definition select (t : tensor) (d i : nat) : result tensor :=
  if negb (d <? ndim t) then raise IndexError
  else if negb (i <? nth d (shape t) 0) then raise IndexError
  else ok (mkTensor (remove_nth d (shape t)) (remove_nth d (strides t))
                    (offset t + i * nth d (strides t) 0) (storage t)).

(** Broadcasting: shapes are aligned at the last dimension; two sizes agree
    when they are equal or one of them is 1. *)
Fixpoint broadcast_rev (a b : list nat) : result (list nat) :=
  match a, b with
  | [], _ => ok b
  | _, [] => ok a
  | x :: a', y :: b' =>
      (r <- broadcast_rev a' b' ;;
       if x =? y then ok (x :: r)
       else if x =? 1 then ok (y :: r)
       else if y =? 1 then ok (x :: r)
       else raise RuntimeError)%result
  end.

Definition broadcast_shapes (a b : list nat) : result (list nat) :=
  (r <- broadcast_rev (rev a) (rev b) ;; ok (rev r))%result.

Fixpoint broadcast_strides_rev (sh st target : list nat) : list nat :=
  match target with
  | [] => []
  | m :: target' =>
      match sh, st with
      | n :: sh', s :: st' =>
          (if n =? m then s else 0) :: broadcast_strides_rev sh' st' target'
      | _, _ => 0 :: broadcast_strides_rev [] [] target'
      end
  end.

(** [t] read at the broadcast shape [s]: a repeated dimension has stride 0. *)
Definition broadcast_to (t : tensor) (s : list nat) : tensor :=
  mkTensor s
    (rev (broadcast_strides_rev (rev (shape t)) (rev (strides t)) (rev s)))
    (offset t) (storage t).

(** Elementwise unary and (broadcasting) binary operations. *)
Definition tmap (f : F -> F) (t : tensor) : tensor :=
  build (shape t) (fun idx => f (get t idx)).

Definition binop (f : F -> F -> F) (a b : tensor) : result tensor :=
  (s <- broadcast_shapes (shape a) (shape b) ;;
   ok (build s (fun idx =>
                  f (get (broadcast_to a s) idx) (get (broadcast_to b s) idx))))%result.
End Tensor.

Arguments mkTensor {F}.
Arguments build {F}.
Arguments scalar_tensor {F}.

(** A tensor is well formed when it has one stride per dimension. *)
Definition wf {F} (t : tensor F) : Prop := length (strides t) = length (shape t).

(** ** Scalars, randomness and the library layers *)

(** The float32 scalars of the source and the kernels PyTorch supplies for
    them.  [softmax_row r j] is element [j] of the softmax of the row [r];
    [normalize_row r j] is element [j] of [r] after LayerNorm's normalisation
    (mean subtracted, divided by the square root of variance plus epsilon);
    [dropout_scale p v] is [v / (1 - p)]. *)
Class Float (F : Type) : Type := {
  fzero : F;
  fone : F;
  fadd : F -> F -> F;
  fmul : F -> F -> F;
  fdiv : F -> F -> F;
  fsqrt : F -> F;
  of_nat : nat -> F;
  gelu_scalar : F -> F;
  softmax_row : list F -> nat -> F;
  normalize_row : list F -> nat -> F;
  dropout_scale : Q -> F -> F
}.

(** How a parameter is drawn when a module is built. *)
Inductive init_kind : Type :=
| Randn
| LinearWeight (fan_in : nat)
| LinearBias (fan_in : nat).

(** The random number generator, with state [G]: [sample k n g] draws [n]
    scalars, [bernoulli p n g] draws a keep-mask of [n] bits for dropout with
    probability [p]; both return the generator's next state. *)
Class Random (F G : Type) : Type := {
  sample : init_kind -> nat -> G -> (nat -> F) * G;
  bernoulli : Q -> nat -> G -> (nat -> bool) * G
}.

(** Computations that use the generator and may raise. *)
Definition M (G A : Type) : Type := G -> exn + (A * G).

Definition mret {G A} (a : A) : M G A := fun g => inr (a, g).

Definition mbind {G A B} (c : M G A) (k : A -> M G B) : M G B :=
  fun g =>
    match c g with
    | inl e => inl e
    | inr (a, g') => k a g'
    end.

Definition lift {G A} (c : result A) : M G A :=
  fun g =>
    match c with
    | inl e => inl e
    | inr a => inr (a, g)
    end.

Declare Scope M_scope.
Delimit Scope M_scope with M.
Notation "x <- c ;; k" := (mbind c (fun x => k))
  (at level 61, c at next level, right associativity) : M_scope.

(** [for x in xs: acc = f(x, acc)] *)
Fixpoint mfold {G A B} (f : B -> A -> M G A) (xs : list B) (acc : A) : M G A :=
  match xs with
  | [] => mret acc
  | x :: xs' => (acc' <- f x acc ;; mfold f xs' acc')%M
  end.

(** [[c for _ in range(n)]] *)
Fixpoint mrepeat {G A} (n : nat) (c : M G A) : M G (list A) :=
  match n with
  | 0 => mret []
  | S n' => (a <- c ;; l <- mrepeat n' c ;; mret (a :: l))%M
  end.

Section Kernels.
Context {F G : Type} {fl : Float F} {rn : Random F G}.

(** [torch.randn(s)] and the other parameter initialisers. *)
Definition draw (k : init_kind) (s : list nat) : M G (tensor F) :=
  fun g =>
    let (f, g') := sample k (numel s) g in
    inr (mkTensor s (contig_strides s) 0 f, g').

(** Sum of [f 0 .. f (n-1)], accumulated from the left. *)
Definition fsum (f : nat -> F) (n : nat) : F :=
  fold_left (fun acc k => fadd acc (f k)) (seq 0 n) fzero.

(** The row of [t] along dimension [d] that passes through [idx]. *)
Definition row_along (t : tensor F) (d : nat) (idx : list nat) : list F :=
  map (fun j => get t (set_nth d j idx)) (seq 0 (nth d (shape t) 0)).

(** [torch.matmul(a, b)] for tensors of two or more dimensions (the source
    multiplies four-dimensional tensors): a batch of matrix products, the
    batch dimensions broadcast. *)
Definition matmul (a b : tensor F) : result (tensor F) :=
  match rev (shape a), rev (shape b) with
  | k :: m :: ba, p :: k' :: bb =>
      if negb (k =? k') then raise RuntimeError
      else
        (bs <- broadcast_rev ba bb ;;
         let batch := rev bs in
         let nb := length batch in
         let a' := broadcast_to a (batch ++ [m; k]) in
         let b' := broadcast_to b (batch ++ [k; p]) in
         ok (build (batch ++ [m; p])
               (fun idx =>
                  let bi := firstn nb idx in
                  let i := nth nb idx 0 in
                  let j := nth (S nb) idx 0 in
                  fsum (fun l => fmul (get a' (bi ++ [i; l]))
                                      (get b' (bi ++ [l; j]))) k)))%result
  | _, _ => raise RuntimeError
  end.

(** [torch.softmax(t, dim=d)] *)
Definition softmax (t : tensor F) (dim : Z) : result (tensor F) :=
  (d <- wrap_dim (ndim t) dim ;;
   ok (build (shape t)
         (fun idx => softmax_row (row_along t d idx) (nth d idx 0))))%result.

(** [F.gelu(t)] and [torch.sqrt(t)] *)
Definition gelu (t : tensor F) : tensor F := tmap gelu_scalar t.
Definition sqrt (t : tensor F) : tensor F := tmap fsqrt t.

(** [a + b] and [a / b] on tensors *)
Definition add (a b : tensor F) : result (tensor F) := binop fadd a b.
Definition div (a b : tensor F) : result (tensor F) := binop fdiv a b.
End Kernels.

(** [nn.Linear] *)
Module Linear.
Section Def.
Context {F G : Type} {fl : Float F} {rn : Random F G}.

Record t : Type := mk {
  in_features : nat;
  out_features : nat;
  weight : tensor F;
  bias : tensor F
}.

Definition init (i o : nat) : M G t :=
  (w <- draw (LinearWeight i) [o; i] ;;
   b <- draw (LinearBias i) [o] ;;
   mret (mk i o w b))%M.

(** [x @ weight.T + bias], on the last dimension of [x]. *)
Definition forward (l : t) (x : tensor F) : result (tensor F) :=
  match shape (weight l), shape (bias l), rev (shape x) with
  | [o; i], [o'], k :: lead_rev =>
      if negb (k =? i) || negb (o' =? o) then raise RuntimeError
      else
        let lead := rev lead_rev in
        let nl := length lead in
        ok (build (lead ++ [o])
              (fun idx =>
                 let li := firstn nl idx in
                 let c := nth nl idx 0 in
                 fadd (fsum (fun j => fmul (get x (li ++ [j]))
                                           (get (weight l) [c; j])) i)
                      (get (bias l) [c])))
  | _, _, _ => raise RuntimeError
  end.
End Def.
Arguments t : clear implicits.
End Linear.

(** [nn.LayerNorm] over the last dimension *)
Module LayerNorm.
Section Def.
Context {F G : Type} {fl : Float F} {rn : Random F G}.

Record t : Type := mk {
  normalized_shape : nat;
  weight : tensor F;
  bias : tensor F
}.

Definition init (n : nat) : M G t :=
  mret (mk n (build [n] (fun _ => fone)) (build [n] (fun _ => fzero))).

Definition forward (ln : t) (x : tensor F) : result (tensor F) :=
  match rev (shape x) with
  | k :: _ =>
      if negb (k =? normalized_shape ln) then raise RuntimeError
      else
        let d := ndim x - 1 in
        ok (build (shape x)
              (fun idx =>
                 let j := nth d idx 0 in
                 fadd (fmul (normalize_row (row_along x d idx) j)
                            (get (weight ln) [j]))
                      (get (bias ln) [j])))
  | [] => raise RuntimeError
  end.
End Def.
Arguments t : clear implicits.
End LayerNorm.

(** [nn.Dropout] *)
Module Dropout.
Section Def.
Context {F G : Type} {fl : Float F} {rn : Random F G}.

Record t : Type := mk {
  p : Q;
  training : bool
}.

Definition init (prob : Q) : M G t :=
  if Qle_bool 0 prob && Qle_bool prob 1
  then mret (mk prob true)
  else lift (raise ValueError).

(** In training mode every element is dropped independently and the kept
    ones are rescaled; in evaluation mode the input is returned. *)
Definition forward (d : t) (x : tensor F) : M G (tensor F) :=
  fun g =>
    if training d then
      let (keep, g') := bernoulli (F := F) (p d) (numel (shape x)) g in
      inr (build (shape x)
             (fun idx =>
                if keep (ravel (shape x) idx)
                then dropout_scale (p d) (get x idx)
                else fzero), g')
    else inr (x, g).
End Def.
End Dropout.

(** ** The classes of the notebook *)

(** [class PatchEmbedding] (notebook lines 67-90) *)
Module PatchEmbedding.
Section Def.
Context {F G : Type} {fl : Float F} {rn : Random F G}.

Record t : Type := mk {
  patch_size : nat;
  embed_dim : nat;
  projection : Linear.t F
}.

Definition init (patch_size in_channels embed_dim : nat) : M G t :=
  (projection <- Linear.init (in_channels * patch_size * patch_size) embed_dim ;;
   mret (mk patch_size embed_dim projection))%M.

Definition forward (self : t) (x : tensor F) : result (tensor F) :=
  match shape x with
  | [batch_size; in_channels; height; width] =>
      if patch_size self =? 0 then raise ZeroDivisionError
      else
        let n_patches := (height / patch_size self) * (width / patch_size self) in
        (x <- unfold x 2 (patch_size self) (patch_size self) ;;
         x <- unfold x 3 (patch_size self) (patch_size self) ;;
         x <- view (contiguous x)
                [Dim batch_size; Dim in_channels; Minus1;
                 Dim (patch_size self * patch_size self)] ;;
         x <- permute x [0; 2; 1; 3] ;;
         x <- view (contiguous x) [Dim batch_size; Dim n_patches; Minus1] ;;
         Linear.forward (projection self) x)%result
  | _ => raise ValueError
  end.
End Def.
Arguments t : clear implicits.
End PatchEmbedding.

(** [class Position_Encoding] (lines 110-117) *)
Module Position_Encoding.
Section Def.
Context {F G : Type} {fl : Float F} {rn : Random F G}.

Record t : Type := mk {
  position_encoding : tensor F
}.

Definition init (embed_dim n_patches : nat) : M G t :=
  (pe <- draw Randn [1; n_patches + 1; embed_dim] ;;
   mret (mk pe))%M.

Definition forward (self : t) (x : tensor F) : result (tensor F) :=
  add x (position_encoding self).
End Def.
Arguments t : clear implicits.
End Position_Encoding.

(** [class MultiHeadSelfAttention] (lines 144-189) *)
Module MultiHeadSelfAttention.
Section Def.
Context {F G : Type} {fl : Float F} {rn : Random F G}.

Record t : Type := mk {
  num_heads : nat;
  embed_dim : nat;
  head_dim : nat;
  query : Linear.t F;
  key : Linear.t F;
  value : Linear.t F;
  out : Linear.t F
}.

Definition init (embed_dim num_heads : nat) : M G t :=
  if num_heads =? 0 then lift (raise ZeroDivisionError)
  else if negb (embed_dim mod num_heads =? 0)
  then lift (raise (AssertionError
                      "Embedding dimesion should be divisible by num heads"))
  else
    let head_dim := embed_dim / num_heads in
    (query <- Linear.init embed_dim embed_dim ;;
     key <- Linear.init embed_dim embed_dim ;;
     value <- Linear.init embed_dim embed_dim ;;
     out <- Linear.init embed_dim embed_dim ;;
     mret (mk num_heads embed_dim head_dim query key value out))%M.

(** The three projections, as the source computes them (lines 165-167):
    [Q = self.query(x)], [K = self.query(x)], [V = self.query(x)]. *)
Definition projections (self : t) (x : tensor F)
  : result (tensor F * tensor F * tensor F) :=
  (Q <- Linear.forward (query self) x ;;
   K <- Linear.forward (query self) x ;;
   V <- Linear.forward (query self) x ;;
   ok (Q, K, V))%result.

(** The attention weights (lines 177-179): the softmax, along the last
    dimension, of [Q @ K.transpose(-2, -1) / sqrt(head_dim)]. *)
Definition attention_weights (self : t) (Q K : tensor F) : result (tensor F) :=
  (Kt <- transpose K (-2) (-1) ;;
   QK <- matmul Q Kt ;;
   scores <- div QK (sqrt (scalar_tensor (of_nat (head_dim self)))) ;;
   softmax scores (-1))%result.

Definition forward (self : t) (x : tensor F) : result (tensor F) :=
  match shape x with
  | [batch_size; n_patches; embed_dim] =>
      let heads :=
        [Dim batch_size; Dim n_patches; Dim (num_heads self); Dim (head_dim self)] in
      (QKV <- projections self x ;;
       let '(Q, K, V) := QKV in
       Q <- view Q heads ;;
       Q <- permute Q [0; 2; 1; 3] ;;
       K <- view K heads ;;
       K <- permute K [0; 2; 1; 3] ;;
       V <- view V heads ;;
       V <- permute V [0; 2; 1; 3] ;;
       attention <- attention_weights self Q K ;;
       o <- matmul attention V ;;
       o <- permute o [0; 2; 1; 3] ;;
       o <- view (contiguous o) [Dim batch_size; Dim n_patches; Dim embed_dim] ;;
       Linear.forward (out self) o)%result
  | _ => raise ValueError
  end.
End Def.
Arguments t : clear implicits.
End MultiHeadSelfAttention.

(** [class TransformerEncoder] (lines 209-232) *)
Module TransformerEncoder.
Section Def.
Context {F G : Type} {fl : Float F} {rn : Random F G}.

Record t : Type := mk {
  self_attn : MultiHeadSelfAttention.t F;
  linear1 : Linear.t F;
  dropout : Dropout.t;
  linear2 : Linear.t F;
  norm1 : LayerNorm.t F;
  norm2 : LayerNorm.t F;
  dropout1 : Dropout.t;
  dropout2 : Dropout.t
}.

(** The default of the keyword argument [dropout]. *)
Definition default_dropout : Q := 1 # 10.

(** [__init__(self, embed_dim, num_heads, mlp_dim, dropout=0.1)]; [None]
    stands for a call that leaves the keyword argument out. *)
Definition init (embed_dim num_heads mlp_dim : nat) (dropout : option Q) : M G t :=
  let dropout := match dropout with Some q => q | None => default_dropout end in
  (self_attn <- MultiHeadSelfAttention.init embed_dim num_heads ;;
   linear1 <- Linear.init embed_dim mlp_dim ;;
   dropout0 <- Dropout.init dropout ;;
   linear2 <- Linear.init mlp_dim embed_dim ;;
   norm1 <- LayerNorm.init embed_dim ;;
   norm2 <- LayerNorm.init embed_dim ;;
   dropout1 <- Dropout.init dropout ;;
   dropout2 <- Dropout.init dropout ;;
   mret (mk self_attn linear1 dropout0 linear2 norm1 norm2 dropout1 dropout2))%M.

Definition forward (self : t) (x : tensor F) : M G (tensor F) :=
  (attn_out <- lift (MultiHeadSelfAttention.forward (self_attn self) x) ;;
   d1 <- Dropout.forward (dropout1 self) attn_out ;;
   x <- lift (add x d1) ;;
   x <- lift (LayerNorm.forward (norm1 self) x) ;;
   h <- lift (Linear.forward (linear1 self) x) ;;
   h <- Dropout.forward (dropout self) (gelu h) ;;
   ff_out <- lift (Linear.forward (linear2 self) h) ;;
   d2 <- Dropout.forward (dropout2 self) ff_out ;;
   x <- lift (add x d2) ;;
   lift (LayerNorm.forward (norm2 self) x))%M.
End Def.
Arguments t : clear implicits.
End TransformerEncoder.

(** [class VisionTransformer] (lines 254-294) *)
Module VisionTransformer.
Section Def.
Context {F G : Type} {fl : Float F} {rn : Random F G}.

Record t : Type := mk {
  patch_size : nat;
  patch_embedding : PatchEmbedding.t F;
  position_encoding : Position_Encoding.t F;
  classification_token : tensor F;
  transformer_encoders : list (TransformerEncoder.t F);
  classifier : Linear.t F
}.

Definition init (img_size in_channels patch_size embed_dim mlp_dim
                   num_heads num_layers num_classes : nat) : M G t :=
  if patch_size =? 0 then lift (raise ZeroDivisionError)
  else
    let n_patches := (img_size / patch_size) * (img_size / patch_size) in
    (patch_embedding <- PatchEmbedding.init patch_size in_channels embed_dim ;;
     position_encoding <- Position_Encoding.init embed_dim n_patches ;;
     classification_token <- draw Randn [1; 1; embed_dim] ;;
     transformer_encoders <-
       mrepeat num_layers (TransformerEncoder.init embed_dim num_heads mlp_dim None) ;;
     classifier <- Linear.init embed_dim num_classes ;;
     mret (mk patch_size patch_embedding position_encoding classification_token
              transformer_encoders classifier))%M.

Definition forward (self : t) (x : tensor F) : M G (tensor F) :=
  (x <- lift (PatchEmbedding.forward (patch_embedding self) x) ;;
   batch_size <- lift (size x 0) ;;
   cls_tokens <- lift (expand (classification_token self)
                         [Dim batch_size; Minus1; Minus1]) ;;
   x <- lift (cat cls_tokens x 1) ;;
   x <- lift (Position_Encoding.forward (position_encoding self) x) ;;
   x <- mfold TransformerEncoder.forward (transformer_encoders self) x ;;
   cls_token_out <- lift (select x 1 0) ;;
   lift (Linear.forward (classifier self) cls_token_out))%M.
End Def.
Arguments t : clear implicits.
End VisionTransformer.

(** ** A symbolic interpretation of the scalars

    Scalars as the expressions the program builds: literals, drawn parameters
    and the operations applied to them.  Running the model on it shows which
    computation the code performs, whatever the floating-point semantics. *)
Module Symbolic.
Unset Elimination Schemes.
Inductive sym : Type :=
| SLit (z : Z)
| SDraw (k : init_kind) (seed i : nat)
| SAdd (a b : sym)
| SMul (a b : sym)
| SDiv (a b : sym)
| SSqrt (a : sym)
| SOfNat (n : nat)
| SGelu (a : sym)
| SSoftmax (row : list sym) (j : nat)
| SNormalize (row : list sym) (j : nat)
| SDropScale (p : Q) (a : sym).
Set Elimination Schemes.

#[export] Instance sym_Float : Float sym := {
  fzero := SLit 0;
  fone := SLit 1;
  fadd := SAdd;
  fmul := SMul;
  fdiv := SDiv;
  fsqrt := SSqrt;
  of_nat := SOfNat;
  gelu_scalar := SGelu;
  softmax_row := SSoftmax;
  normalize_row := SNormalize;
  dropout_scale := SDropScale
}.

(** A generator whose state counts the draws; draw number [g] keeps the
    elements at the positions [i] with [g + i] even. *)
#[export] Instance sym_Random : Random sym nat := {
  sample := fun k _ g => (fun i => SDraw k g i, S g);
  bernoulli := fun _ _ g => (fun i => Nat.even (g + i), S g)
}.

(** A tensor of literals: element [idx] is its own flat position. *)
Definition arange (s : list nat) : tensor sym :=
  build s (fun idx => SLit (Z.of_nat (ravel s idx))).
End Symbolic.

(** ** Vocabulary of the statements *)

(** The eight fields a model is configured with. *)
Record Config : Type := mkConfig {
  img_size : nat;
  in_channels : nat;
  patch_size : nat;
  embed_dim : nat;
  mlp_dim : nat;
  num_heads : nat;
  num_layers : nat;
  num_classes : nat
}.

Definition n_patches (c : Config) : nat :=
  (img_size c / patch_size c) * (img_size c / patch_size c).

Section Vocabulary.
Context {F G : Type} {fl : Float F} {rn : Random F G}.

(** [VisionTransformer(img_size, in_channels, ..., num_classes)] *)
Definition construct (c : Config) : M G (VisionTransformer.t F) :=
  VisionTransformer.init (img_size c) (in_channels c) (patch_size c) (embed_dim c)
    (mlp_dim c) (num_heads c) (num_layers c) (num_classes c).

(** The parameters of [l] have the shapes of [nn.Linear(i, o)]. *)
Definition Linear_shaped (l : Linear.t F) (i o : nat) : Prop :=
  Linear.in_features l = i /\ Linear.out_features l = o /\
  shape (Linear.weight l) = [o; i] /\ shape (Linear.bias l) = [o].

(** The parameters of an attention module for [e]-dimensional tokens and
    [h] heads. *)
Definition Attention_shaped (a : MultiHeadSelfAttention.t F) (e h : nat) : Prop :=
  MultiHeadSelfAttention.num_heads a = h /\
  MultiHeadSelfAttention.embed_dim a = e /\
  MultiHeadSelfAttention.head_dim a = e / h /\
  h * (e / h) = e /\
  Linear_shaped (MultiHeadSelfAttention.query a) e e /\
  Linear_shaped (MultiHeadSelfAttention.key a) e e /\
  Linear_shaped (MultiHeadSelfAttention.value a) e e /\
  Linear_shaped (MultiHeadSelfAttention.out a) e e.

(** The parameters of an encoder block. *)
Definition Encoder_shaped (b : TransformerEncoder.t F) (e h mlp : nat) : Prop :=
  Attention_shaped (TransformerEncoder.self_attn b) e h /\
  Linear_shaped (TransformerEncoder.linear1 b) e mlp /\
  Linear_shaped (TransformerEncoder.linear2 b) mlp e /\
  LayerNorm.normalized_shape (TransformerEncoder.norm1 b) = e /\
  LayerNorm.normalized_shape (TransformerEncoder.norm2 b) = e.

(** The parameters of a model have the shapes its configuration gives them.
    Training changes the values of the parameters and keeps this. *)
Definition Model_shaped (m : VisionTransformer.t F) (c : Config) : Prop :=
  VisionTransformer.patch_size m = patch_size c /\
  PatchEmbedding.patch_size (VisionTransformer.patch_embedding m) = patch_size c /\
  PatchEmbedding.embed_dim (VisionTransformer.patch_embedding m) = embed_dim c /\
  Linear_shaped (PatchEmbedding.projection (VisionTransformer.patch_embedding m))
    (in_channels c * patch_size c * patch_size c) (embed_dim c) /\
  shape (Position_Encoding.position_encoding (VisionTransformer.position_encoding m))
    = [1; n_patches c + 1; embed_dim c] /\
  wf (Position_Encoding.position_encoding (VisionTransformer.position_encoding m)) /\
  shape (VisionTransformer.classification_token m) = [1; 1; embed_dim c] /\
  wf (VisionTransformer.classification_token m) /\
  length (VisionTransformer.transformer_encoders m) = num_layers c /\
  Forall (fun b => Encoder_shaped b (embed_dim c) (num_heads c) (mlp_dim c))
    (VisionTransformer.transformer_encoders m) /\
  Linear_shaped (VisionTransformer.classifier m) (embed_dim c) (num_classes c).

(** The blocks applied one after the other, each to the output of the one
    before it, the generator threaded through. *)
Inductive runs_layers
  : list (TransformerEncoder.t F) -> tensor F -> G -> tensor F -> G -> Prop :=
| runs_nil x g : runs_layers [] x g x g
| runs_cons b bs x g x1 g1 y g' :
    TransformerEncoder.forward b x g = inr (x1, g1) ->
    runs_layers bs x1 g1 y g' ->
    runs_layers (b :: bs) x g y g'.

(** [a] with other key and value layers. *)
Definition with_key_value (a : MultiHeadSelfAttention.t F) (k v : Linear.t F)
  : MultiHeadSelfAttention.t F :=
  MultiHeadSelfAttention.mk
    (MultiHeadSelfAttention.num_heads a) (MultiHeadSelfAttention.embed_dim a)
    (MultiHeadSelfAttention.head_dim a) (MultiHeadSelfAttention.query a)
    k v (MultiHeadSelfAttention.out a).

(** Every dropout layer of the block has the default probability 0.1. *)
Definition Encoder_default_dropout (b : TransformerEncoder.t F) : Prop :=
  Dropout.p (TransformerEncoder.dropout b) = 1 # 10 /\
  Dropout.p (TransformerEncoder.dropout1 b) = 1 # 10 /\
  Dropout.p (TransformerEncoder.dropout2 b) = 1 # 10.

(** The values of the patch in row [r] and column [q] of the patch grid of
    image [b]: channel after channel, each channel row by row. *)
Definition flatten_patch (x : tensor F) (ps channels b r q : nat) : list F :=
  flat_map (fun c =>
    flat_map (fun i =>
      map (fun j => get x [b; c; r * ps + i; q * ps + j]) (seq 0 ps))
      (seq 0 ps))
    (seq 0 channels).

(** Component [e] of [W v + bias] for the weight and bias of [l]; the
    products are accumulated from the left, as [fsum] does. *)
Definition dotF (v w : list F) : F :=
  fold_left (fun acc p => fadd acc (fmul (fst p) (snd p))) (combine v w) fzero.

Definition weight_row (l : Linear.t F) (e : nat) : list F :=
  map (fun k => get (Linear.weight l) [e; k]) (seq 0 (Linear.in_features l)).

Definition affine (l : Linear.t F) (v : list F) (e : nat) : F :=
  fadd (dotF v (weight_row l e)) (get (Linear.bias l) [e]).

(** [out] is what the sequence of steps of the model gives for the batch
    [x] of [B] images, from generator state [g] to [g']: patch embedding;
    the class token, broadcast over the batch, in front of the patches;
    positional encoding added; the encoder blocks in order; position 0 of
    the result; the classification head. *)
Definition forward_sequence (m : VisionTransformer.t F) (c : Config)
           (x : tensor F) (g : G) (B : nat) (out : tensor F) (g' : G) : Prop :=
  let token := VisionTransformer.classification_token m in
  let positions :=
    Position_Encoding.position_encoding (VisionTransformer.position_encoding m) in
  exists pe cls xcat xpos xenc c0,
    PatchEmbedding.forward (VisionTransformer.patch_embedding m) x = ok pe /\
    shape pe = [B; n_patches c; embed_dim c] /\
    shape token = [1; 1; embed_dim c] /\
    expand token [Dim B; Minus1; Minus1] = ok cls /\
    shape cls = [B; 1; embed_dim c] /\
    cat cls pe 1 = ok xcat /\
    shape xcat = [B; 1 + n_patches c; embed_dim c] /\
    (forall b e, b < B -> e < embed_dim c ->
       get xcat [b; 0; e] = get token [0; 0; e]) /\
    (forall b j e, b < B -> j < n_patches c -> e < embed_dim c ->
       get xcat [b; S j; e] = get pe [b; j; e]) /\
    Position_Encoding.forward (VisionTransformer.position_encoding m) xcat = ok xpos /\
    shape xpos = [B; 1 + n_patches c; embed_dim c] /\
    (forall b l e, b < B -> l < 1 + n_patches c -> e < embed_dim c ->
       get xpos [b; l; e] = fadd (get xcat [b; l; e]) (get positions [0; l; e])) /\
    length (VisionTransformer.transformer_encoders m) = num_layers c /\
    runs_layers (VisionTransformer.transformer_encoders m) xpos g xenc g' /\
    shape xenc = [B; 1 + n_patches c; embed_dim c] /\
    select xenc 1 0 = ok c0 /\
    shape c0 = [B; embed_dim c] /\
    (forall b e, get c0 [b; e] = get xenc [b; 0; e]) /\
    Linear.forward (VisionTransformer.classifier m) c0 = ok out /\
    (forall b k, b < B -> k < num_classes c ->
       get out [b; k]
       = affine (VisionTransformer.classifier m)
           (map (fun e => get c0 [b; e]) (seq 0 (embed_dim c))) k).

(** [y] is what the two post-normalised residual sub-layers give for the
    sequence [x] of shape [[B; N; E]]:
    [x1 = LayerNorm1 (x + Dropout1 (SelfAttention x))], then
    [y = LayerNorm2 (x1 + Dropout2 (Linear2 (Dropout (GELU (Linear1 x1)))))],
    the hidden layer [mlp] wide. *)
Definition post_norm_steps (blk : TransformerEncoder.t F) (x : tensor F) (g : G)
           (B N E mlp : nat) (y : tensor F) (g' : G) : Prop :=
  exists attn_out d1 s1 x1 h1 h2 ff_out d2 s2 g1 g2,
    MultiHeadSelfAttention.forward (TransformerEncoder.self_attn blk) x = ok attn_out /\
    Dropout.forward (TransformerEncoder.dropout1 blk) attn_out g = inr (d1, g1) /\
    add x d1 = ok s1 /\
    LayerNorm.forward (TransformerEncoder.norm1 blk) s1 = ok x1 /\
    shape x1 = [B; N; E] /\
    Linear.forward (TransformerEncoder.linear1 blk) x1 = ok h1 /\
    shape h1 = [B; N; mlp] /\
    Dropout.forward (TransformerEncoder.dropout blk) (gelu h1) g1 = inr (h2, g2) /\
    Linear.forward (TransformerEncoder.linear2 blk) h2 = ok ff_out /\
    shape ff_out = [B; N; E] /\
    Dropout.forward (TransformerEncoder.dropout2 blk) ff_out g2 = inr (d2, g') /\
    add x1 d2 = ok s2 /\
    LayerNorm.forward (TransformerEncoder.norm2 blk) s2 = ok y.
End Vocabulary.

(** ** Concrete inputs *)
Module Examples.
Import Symbolic.

(** 4x4 images with one channel, 2x2 patches, two-dimensional embeddings,
    one head, one layer, two classes. *)
Definition tiny : Config := mkConfig 4 1 2 2 3 1 1 2.

(** The configuration of the notebook. *)
Definition notebook : Config := mkConfig 224 3 16 768 3072 12 12 10.

(** The model that construction from [c] returns, and the state it leaves
    the generator in, when the generator starts in state 0. *)
Definition empty : tensor sym := build [0] (fun _ => SLit 0).

Definition no_model : VisionTransformer.t sym :=
  VisionTransformer.mk 0 (PatchEmbedding.mk 0 0 (Linear.mk 0 0 empty empty))
    (Position_Encoding.mk empty) empty [] (Linear.mk 0 0 empty empty).

Definition model_of (c : Config) : VisionTransformer.t sym :=
  match construct c 0 with
  | inr (m, _) => m
  | inl _ => no_model
  end.

Definition state_after (c : Config) : nat :=
  match construct (F := sym) c 0 with
  | inr (_, g) => g
  | inl _ => 0
  end.

(** A batch of images whose pixels are all 0. *)
Definition zeros (s : list nat) : tensor sym := build s (fun _ => SLit 0).

(** An attention module for one-dimensional tokens, its four layers given
    by their single weight and bias. *)
Definition linear_1x1 (w b : Z) : Linear.t sym :=
  Linear.mk 1 1 (build [1; 1] (fun _ => SLit w)) (build [1] (fun _ => SLit b)).

Definition attention_1x1 : MultiHeadSelfAttention.t sym :=
  MultiHeadSelfAttention.mk 1 1 1
    (linear_1x1 2 0) (linear_1x1 3 0) (linear_1x1 5 0) (linear_1x1 1 0).

(** The sequence of one token [1]. *)
Definition one : tensor sym := build [1; 1; 1] (fun _ => SLit 1).

(** The value of an expression of literals, sums and products. *)
Fixpoint value (s : sym) : option Z :=
  match s with
  | SLit z => Some z
  | SAdd a b =>
      match value a, value b with
      | Some x, Some y => Some (x + y)%Z
      | _, _ => None
      end
  | SMul a b =>
      match value a, value b with
      | Some x, Some y => Some (x * y)%Z
      | _, _ => None
      end
  | _ => None
  end.
End Examples.

(** ** Training and evaluation mode *)

(** [nn.Module.train(mode)] on a model: the flag of every dropout layer is
    set to [mode]; the notebook calls [model.train()] at the start of every
    epoch, [model.eval()] is [train false]. *)
Definition Dropout_train (mode : bool) (d : Dropout.t) : Dropout.t :=
  Dropout.mk (Dropout.p d) mode.

Definition TransformerEncoder_train {F : Type} (mode : bool)
           (b : TransformerEncoder.t F) : TransformerEncoder.t F :=
  TransformerEncoder.mk
    (TransformerEncoder.self_attn b) (TransformerEncoder.linear1 b)
    (Dropout_train mode (TransformerEncoder.dropout b))
    (TransformerEncoder.linear2 b)
    (TransformerEncoder.norm1 b) (TransformerEncoder.norm2 b)
    (Dropout_train mode (TransformerEncoder.dropout1 b))
    (Dropout_train mode (TransformerEncoder.dropout2 b)).

Definition VisionTransformer_train {F : Type} (mode : bool)
           (m : VisionTransformer.t F) : VisionTransformer.t F :=
  VisionTransformer.mk
    (VisionTransformer.patch_size m) (VisionTransformer.patch_embedding m)
    (VisionTransformer.position_encoding m) (VisionTransformer.classification_token m)
    (map (TransformerEncoder_train mode) (VisionTransformer.transformer_encoders m))
    (VisionTransformer.classifier m).

(** The three dropout layers of a block are in mode [mode]. *)
Definition Encoder_in_mode {F : Type} (mode : bool) (b : TransformerEncoder.t F) : Prop :=
  Dropout.training (TransformerEncoder.dropout b) = mode /\
  Dropout.training (TransformerEncoder.dropout1 b) = mode /\
  Dropout.training (TransformerEncoder.dropout2 b) = mode.

(** ** More vocabulary *)

Section Vocabulary2.
Context {F : Type} {fl : Float F}.

(** Two batches have the same pixels in the patch in row [r] and column [q]
    of the patch grid of image [b]. *)
Definition agree_on_patch (x x' : tensor F) (ps channels b r q : nat) : Prop :=
  forall c i j, c < channels -> i < ps -> j < ps ->
    get x [b; c; r * ps + i; q * ps + j] = get x' [b; c; r * ps + i; q * ps + j].

(** Two batches of images of height [H] and width [W] have the same pixels
    in every whole patch of image [b]; the pixels of the rows and columns
    beyond the last whole patch are free. *)
Definition agree_on_image (x x' : tensor F) (ps channels H W b : nat) : Prop :=
  forall r q, r < H / ps -> q < W / ps -> agree_on_patch x x' ps channels b r q.

(** Two batches of [B] images of [C] channels have the same pixels in the
    first [rows] rows and the first [cols] columns of every image. *)
Definition agree_within (x x' : tensor F) (B C rows cols : nat) : Prop :=
  forall b c i j, b < B -> c < C -> i < rows -> j < cols ->
    get x [b; c; i; j] = get x' [b; c; i; j].

(** Two sequences have the same tokens in batch element [b]. *)
Definition agree_on_sequence (x x' : tensor F) (N E b : nat) : Prop :=
  forall n e, n < N -> e < E -> get x [b; n; e] = get x' [b; n; e].
End Vocabulary2.

(** ** Attention, element by element *)

Section AttentionVocabulary.
Context {F : Type} {fl : Float F}.

(** The scaled score of token [i] against token [j] in head [h] of batch
    element [b], read off the projected sequence [q]: head [h] owns the
    components [h * hd .. h * hd + hd - 1] of every token. *)
Definition head_score (q : tensor F) (hd b h i j : nat) : F :=
  fdiv (fsum (fun l => fmul (get q [b; i; h * hd + l]) (get q [b; j; h * hd + l])) hd)
       (fsqrt (of_nat hd)).

(** The weight token [i] gives to token [j]: the softmax over all [N] tokens
    of the scores of [i]. *)
Definition head_weight (q : tensor F) (hd N b h i j : nat) : F :=
  softmax_row (map (head_score q hd b h i) (seq 0 N)) j.

(** Component [d] of head [h] of the attended token [i]: the weighted sum
    over all tokens. *)
Definition head_output (q : tensor F) (hd N b h i d : nat) : F :=
  fsum (fun j => fmul (head_weight q hd N b h i j) (get q [b; j; h * hd + d])) N.
End AttentionVocabulary.

(** ** More concrete inputs *)

Module MoreExamples.
Import Symbolic.

(** A tensor of shape [s] that is 0 at the positions [keep] holds of and 1
    at the others. *)
Definition marked (s : list nat) (keep : list nat -> bool) : tensor sym :=
  build s (fun idx => if keep idx then SLit 0 else SLit 1).

(** The positions of the patch in row 0 and column 0, for 2x2 patches. *)
Definition first_patch (idx : list nat) : bool :=
  (nth 2 idx 0 <? 2) && (nth 3 idx 0 <? 2).

(** The positions of the 4x4 pixels in the whole 2x2 patches of image 0. *)
Definition whole_patches_of_first_image (idx : list nat) : bool :=
  (nth 0 idx 0 =? 0) && (nth 2 idx 0 <? 4) && (nth 3 idx 0 <? 4).

(** The positions of batch element 0. *)
Definition first_element (idx : list nat) : bool := nth 0 idx 0 =? 0.

(** A configuration whose images are smaller than one patch. *)
Definition small_image : Config := mkConfig 1 1 2 2 3 1 1 2.

(** The tiny configuration without encoder blocks. *)
Definition no_layers : Config := mkConfig 4 1 2 2 3 1 0 2.

(** The same with three-dimensional embeddings and no head at all. *)
Definition no_layers_no_heads : Config := mkConfig 4 1 2 3 3 0 0 2.
End MoreExamples.

(** ** Real-number scalars and the softmax of the spec *)

Module RealScalars.
Import Reals.
Local Open Scope R_scope.

(** The largest element of a row (0 for the empty row). *)
Definition row_max (r : list R) : R := fold_right Rmax (hd 0 r) r.

(** The sum of a row. *)
Definition Rsum (l : list R) : R := fold_right Rplus 0 l.

(** Modelled from the spec: the kernel [torch.softmax], which line 179 of
    the source calls and which is not in the repository.  The spec: "Apply
    numerically-stable softmax along the last axis (subtract per-row max
    before exponentiating) to obtain attention weights".  [stable_softmax r j]
    is element [j] of the softmax of the row [r]: the exponential of the
    element minus the row maximum, divided by the sum of these exponentials
    over the row. *)
Definition stable_softmax (r : list R) (j : nat) : R :=
  Rtrigo_def.exp (nth j r 0 - row_max r)
  / Rsum (map (fun s => Rtrigo_def.exp (s - row_max r)) r).

(** The scalars as real numbers.  Sum, product, quotient, square root and
    the conversion of a size are the real ones, the softmax is the one of
    the spec; the kernels of GELU, of the normalisation of LayerNorm and of
    the rescaling of dropout are parameters. *)
Definition Real_Float (gelu : R -> R) (normalize : list R -> nat -> R)
           (scale : Q -> R -> R) : Float R :=
  {| fzero := 0;
     fone := 1;
     fadd := Rplus;
     fmul := Rmult;
     fdiv := Rdiv;
     fsqrt := R_sqrt.sqrt;
     of_nat := INR;
     gelu_scalar := gelu;
     softmax_row := stable_softmax;
     normalize_row := normalize;
     dropout_scale := scale |}.
End RealScalars.

Module RealExamples.
Import Reals RealScalars.


(** A tensor of real numbers: element [idx] is its own flat position. *)
Definition positions (s : list nat) : tensor R :=
  build s (fun idx => INR (ravel s idx)).



End RealExamples.
(** * Properties *)

Unset Implicit Arguments.

Lemma numel_cons n s : numel (n :: s) = n * numel s.
Proof. reflexivity. Qed.

Lemma numel_app s1 s2 : numel (s1 ++ s2) = numel s1 * numel s2.
Proof.
  induction s1 as [|n s1 IH]; simpl.
  - lia.
  - rewrite IH. lia.
Qed.

Lemma ravel_cons n s i idx :
  ravel (n :: s) (i :: idx) = i * numel s + ravel s idx.
Proof. reflexivity. Qed.

Lemma ravel_lt s : forall idx, in_range idx s -> ravel s idx < numel s.
Proof.
  induction s as [|n s IH]; intros idx H; inversion H; subst.
  - unfold ravel. simpl. lia.
  - rewrite ravel_cons, numel_cons.
    match goal with Hs : Forall2 lt _ s |- _ => specialize (IH _ Hs) end.
    nia.
Qed.

Lemma unravel_ravel s : forall idx, in_range idx s -> unravel s (ravel s idx) = idx.
Proof.
  induction s as [|n s IH]; intros idx H; inversion H as [|i n' idx' s' Hi Hs]; subst.
  - reflexivity.
  - rewrite ravel_cons. simpl.
    match goal with Hs : Forall2 lt _ s |- _ =>
      pose proof (ravel_lt _ _ Hs) as Hlt; specialize (IH _ Hs) end.
    assert (Hn : numel s <> 0) by lia.
    rewrite Nat.div_add_l, (Nat.div_small _ _ Hlt) by assumption.
    rewrite (Nat.add_comm (i * numel s)), Nat.Div0.mod_add, Nat.mod_small by assumption.
    rewrite IH. f_equal. lia.
Qed.

Lemma unravel_in_range s : forall k, k < numel s -> in_range (unravel s k) s.
Proof.
  induction s as [|n s IH]; intros k Hk.
  - constructor.
  - rewrite numel_cons in Hk. simpl.
    assert (numel s <> 0) by (intro E; rewrite E in Hk; lia).
    constructor.
    + apply Nat.Div0.div_lt_upper_bound; lia.
    + apply IH. apply Nat.mod_upper_bound; assumption.
Qed.

Lemma ravel_unravel s : forall k, k < numel s -> ravel s (unravel s k) = k.
Proof.
  induction s as [|n s IH]; intros k Hk.
  - simpl in *. unfold ravel. simpl. lia.
  - rewrite numel_cons in Hk. simpl. rewrite ravel_cons.
    assert (numel s <> 0) by (intro E; rewrite E in Hk; lia).
    rewrite IH by (apply Nat.mod_upper_bound; assumption).
    pose proof (Nat.div_mod_eq k (numel s)). lia.
Qed.

(** ** Lists of sizes *)

Lemma list_eqb_eq a : forall b, list_eqb a b = true <-> a = b.
Proof.
  induction a as [|x a IH]; intros [|y b]; simpl; split; intro H;
    try reflexivity; try discriminate.
  - apply andb_true_iff in H as [H1 H2].
    apply Nat.eqb_eq in H1. apply IH in H2. congruence.
  - injection H as -> ->. rewrite Nat.eqb_refl. simpl. apply IH. reflexivity.
Qed.

Lemma list_eqb_refl a : list_eqb a a = true.
Proof. apply list_eqb_eq. reflexivity. Qed.

Lemma length_contig_strides s : length (contig_strides s) = length s.
Proof. induction s; simpl; congruence. Qed.

Lemma length_set_nth d v l : length (set_nth d v l) = length l.
Proof.
  revert d; induction l as [|a l IH]; intros [|d]; simpl; try reflexivity.
  now rewrite IH.
Qed.

Lemma in_range_length idx s : in_range idx s -> length idx = length s.
Proof. induction 1; simpl; congruence. Qed.

Lemma in_range_app i1 s1 i2 s2 :
  in_range i1 s1 -> in_range i2 s2 -> in_range (i1 ++ i2) (s1 ++ s2).
Proof. intros H1 H2. apply Forall2_app; assumption. Qed.

(** ** Reading tensors *)

Section TensorFacts.
Context {F : Type}.
Implicit Types (t : tensor F) (s idx : list nat) (f : list nat -> F).

Lemma get_build s f idx : in_range idx s -> get (build s f) idx = f idx.
Proof.
  intro H. unfold get, build. simpl.
  change (dot idx (contig_strides s)) with (ravel s idx).
  now rewrite unravel_ravel.
Qed.

Lemma wf_build s f : wf (build s f).
Proof. unfold wf. simpl. apply length_contig_strides. Qed.

Lemma is_contiguous_build s f : is_contiguous (build s f) = true.
Proof. unfold is_contiguous. simpl. apply list_eqb_refl. Qed.

Lemma is_contiguous_strides t :
  is_contiguous t = true -> strides t = contig_strides (shape t).
Proof. unfold is_contiguous. apply list_eqb_eq. Qed.

Lemma get_contiguous_ravel t idx :
  is_contiguous t = true ->
  get t idx = storage t (offset t + ravel (shape t) idx).
Proof.
  intro H. unfold get, ravel. now rewrite (is_contiguous_strides _ H).
Qed.

Lemma shape_contiguous t : shape (contiguous t) = shape t.
Proof. unfold contiguous. destruct (is_contiguous t); reflexivity. Qed.

Lemma is_contiguous_contiguous t : is_contiguous (contiguous t) = true.
Proof.
  unfold contiguous. destruct (is_contiguous t) eqn:E; [assumption|].
  apply is_contiguous_build.
Qed.

Lemma get_contiguous t idx :
  in_range idx (shape t) -> get (contiguous t) idx = get t idx.
Proof.
  intro H. unfold contiguous. destruct (is_contiguous t); [reflexivity|].
  now apply get_build.
Qed.

(** [view] keeps the storage: it succeeds exactly when the new shape can be
    inferred, and the element at [idx'] of the result is the element of the
    argument that has the same row-major position. *)
Lemma view_ok t args s :
  is_contiguous t = true ->
  infer_shape (numel (shape t)) args = ok s ->
  view t args = ok (mkTensor s (contig_strides s) (offset t) (storage t)).
Proof. intros Hc Hs. unfold view. rewrite Hc, Hs. reflexivity. Qed.

Lemma view_inv t args v :
  view t args = ok v ->
  is_contiguous t = true /\
  infer_shape (numel (shape t)) args = ok (shape v) /\
  v = mkTensor (shape v) (contig_strides (shape v)) (offset t) (storage t).
Proof.
  unfold view. destruct (is_contiguous t); [|discriminate].
  destruct (infer_shape _ _) as [e|s]; simpl; [discriminate|].
  intro H. injection H as <-. simpl. auto.
Qed.

Lemma view_get t args v idx idx' :
  view t args = ok v ->
  ravel (shape v) idx' = ravel (shape t) idx ->
  get v idx' = get t idx.
Proof.
  intros Hv Hr. apply view_inv in Hv as (Hc & _ & Hv).
  rewrite (get_contiguous_ravel _ idx Hc), <- Hr, Hv.
  reflexivity.
Qed.
End TensorFacts.

(** ** Arithmetic of patch grids *)

Lemma div_sub_add ps h : 0 < ps -> ps <= h -> (h - ps) / ps + 1 = h / ps.
Proof.
  intros Hp Hh.
  replace h with (1 * ps + (h - ps)) at 2 by lia.
  rewrite Nat.div_add_l by lia. lia.
Qed.

Lemma infer_quot n k q : k <> 0 -> n = q * k -> n mod k = 0 /\ n / k = q.
Proof.
  intros Hk ->. split.
  - apply Nat.Div0.mod_mul.
  - now apply Nat.div_mul.
Qed.

Lemma map_seq_shift {A} (f : nat -> A) a m :
  map f (seq a m) = map (fun j => f (a + j)) (seq 0 m).
Proof.
  revert a. induction m as [|m IH]; intro a; [reflexivity|].
  rewrite !seq_S, !map_app, IH. simpl. reflexivity.
Qed.

(** Enumerating [0 .. n*m) is enumerating the pairs (quotient, remainder) in
    lexicographic order. *)
Lemma map_div_mod_flat {A} (h : nat -> nat -> A) n m :
  0 < m ->
  map (fun k => h (k / m) (k mod m)) (seq 0 (n * m))
  = flat_map (fun a => map (h a) (seq 0 m)) (seq 0 n).
Proof.
  intro Hm. induction n as [|n IH]; [reflexivity|].
  replace (S n * m) with (n * m + m) by lia.
  rewrite seq_app, map_app, IH, seq_S, flat_map_app. simpl.
  rewrite app_nil_r. f_equal.
  rewrite map_seq_shift. apply map_ext_in. intros j Hj.
  apply in_seq in Hj.
  rewrite (Nat.add_comm (n * m) j), Nat.div_add, Nat.Div0.mod_add by lia.
  rewrite Nat.div_small, Nat.mod_small by lia. reflexivity.
Qed.

(** ** Sums and affine maps *)

Section Sums.
Context {F : Type} {fl : Float F}.

Lemma fsum_ext (f g : nat -> F) n :
  (forall k, k < n -> f k = g k) -> fsum f n = fsum g n.
Proof.
  unfold fsum. generalize (fzero (F := F)).
  induction n as [|n IH]; intros a H; [reflexivity|].
  rewrite seq_S, !fold_left_app. simpl.
  rewrite IH by (intros; apply H; lia). rewrite H by lia. reflexivity.
Qed.

Lemma fsum_dotF (f g : nat -> F) n :
  fsum (fun k => fmul (f k) (g k)) n = dotF (map f (seq 0 n)) (map g (seq 0 n)).
Proof.
  unfold fsum, dotF. generalize (fzero (F := F)). generalize (seq 0 n).
  induction l as [|k l IH]; intro a; simpl; [reflexivity|apply IH].
Qed.
End Sums.

(** ** The layout operations succeed on tensors of the right shape *)

Section Layout.
Context {F : Type}.
Implicit Types (t : tensor F).

Lemma unfold_ok t d sz step :
  d < ndim t -> sz <= nth d (shape t) 0 -> step <> 0 ->
  unfold t d sz step =
  ok (mkTensor
        (set_nth d ((nth d (shape t) 0 - sz) / step + 1) (shape t) ++ [sz])
        (set_nth d (step * nth d (strides t) 0) (strides t) ++ [nth d (strides t) 0])
        (offset t) (storage t)).
Proof.
  intros Hd Hs Hst. unfold unfold.
  apply Nat.ltb_lt in Hd. rewrite Hd. simpl.
  destruct (Nat.ltb_spec (nth d (shape t) 0) sz); [lia|].
  apply Nat.eqb_neq in Hst. rewrite Hst. reflexivity.
Qed.

Lemma unfold_too_small t d sz step :
  d < ndim t -> nth d (shape t) 0 < sz ->
  unfold t d sz step = raise RuntimeError.
Proof.
  intros Hd Hs. unfold unfold.
  apply Nat.ltb_lt in Hd. rewrite Hd. simpl.
  apply Nat.ltb_lt in Hs. rewrite Hs. reflexivity.
Qed.
End Layout.

(** ** [nn.Linear] *)

Section LinearFacts.
Context {F : Type} {fl : Float F}.

Lemma Linear_forward_ok (l : Linear.t F) (x : tensor F) lead i o :
  Linear_shaped l i o -> shape x = lead ++ [i] ->
  Linear.forward l x =
  ok (build (lead ++ [o])
        (fun idx =>
           fadd (fsum (fun j => fmul (get x (firstn (length lead) idx ++ [j]))
                                      (get (Linear.weight l)
                                         [nth (length lead) idx 0; j])) i)
                (get (Linear.bias l) [nth (length lead) idx 0]))).
Proof.
  intros (_ & _ & Hw & Hb) Hx. unfold Linear.forward.
  rewrite Hw, Hb, Hx, rev_app_distr. simpl.
  rewrite !Nat.eqb_refl. simpl. rewrite rev_involutive. reflexivity.
Qed.

Lemma Linear_forward_mismatch (l : Linear.t F) (x : tensor F) lead i o k :
  Linear_shaped l i o -> shape x = lead ++ [k] -> k <> i ->
  Linear.forward l x = raise RuntimeError.
Proof.
  intros (_ & _ & Hw & Hb) Hx Hk. unfold Linear.forward.
  rewrite Hw, Hb, Hx, rev_app_distr. simpl.
  apply Nat.eqb_neq in Hk. rewrite Hk. reflexivity.
Qed.

(** Elementwise, the layer is the affine map of its weight and bias. *)
Lemma Linear_forward_get (l : Linear.t F) (x y : tensor F) lead i o li e :
  Linear_shaped l i o -> shape x = lead ++ [i] ->
  Linear.forward l x = ok y ->
  in_range li lead -> e < o ->
  get y (li ++ [e]) = affine l (map (fun j => get x (li ++ [j])) (seq 0 i)) e.
Proof.
  intros Hl Hx Hy Hli He.
  rewrite (Linear_forward_ok _ _ _ _ _ Hl Hx) in Hy. injection Hy as <-.
  rewrite get_build
    by (apply in_range_app; [assumption|repeat constructor; assumption]).
  pose proof (in_range_length _ _ Hli) as Hlen.
  rewrite <- Hlen, firstn_app, Nat.sub_diag, firstn_all, app_nil_r.
  rewrite nth_middle. simpl.
  unfold affine, weight_row. destruct Hl as (-> & _).
  now rewrite fsum_dotF.
Qed.
End LinearFacts.

(** ** PatchEmbedding *)

Section PatchEmbeddingFacts.
Context {F : Type} {fl : Float F}.

(** Up to the projection, [forward] cuts the image into its patches: the
    tensor that reaches [self.projection] has one row per patch, patches in
    row-major order of the grid, and in each row the values of the patch
    channel after channel, row by row. *)
Lemma patches_ok (x : tensor F) ps B C H W proj E :
  shape x = [B; C; H; W] ->
  0 < ps -> ps <= H -> ps <= W -> 0 < B -> 0 < C ->
  exists v,
    PatchEmbedding.forward (PatchEmbedding.mk ps E proj) x = Linear.forward proj v /\
    shape v = [B; (H / ps) * (W / ps); C * (ps * ps)] /\
    (wf x ->
     forall b c r q i j,
       b < B -> c < C -> r < H / ps -> q < W / ps -> i < ps -> j < ps ->
       get v [b; r * (W / ps) + q; c * (ps * ps) + (i * ps + j)]
       = get x [b; c; r * ps + i; q * ps + j]).
Proof.
  intros Hsh Hps HH HW HB HC.
  destruct x as [sh st off sto]. simpl in Hsh. subst sh.
  unfold PatchEmbedding.forward. cbn [shape PatchEmbedding.patch_size].
  destruct (Nat.eqb_spec ps 0); [lia|].
  rewrite unfold_ok by (cbn; lia).
  cbn [rbind ok shape strides offset storage nth set_nth app].
  rewrite unfold_ok by (cbn; lia).
  cbn [rbind ok shape strides offset storage nth set_nth app].
  rewrite !div_sub_add by assumption.
  assert (Hnh : 0 < H / ps) by (apply Nat.div_str_pos; lia).
  assert (Hnw : 0 < W / ps) by (apply Nat.div_str_pos; lia).
  set (nh := H / ps) in *. set (nw := W / ps) in *.
  match goal with |- context [contiguous ?t] => set (u := t) end.
  pose proof (is_contiguous_contiguous u) as Hc1.
  pose proof (shape_contiguous u) as Hs1.
  pose proof (get_contiguous u) as Hg1.
  set (c1 := contiguous u) in *.
  assert (Hi1 : infer_shape (numel (shape c1)) [Dim B; Dim C; Minus1; Dim (ps * ps)]
                = ok [B; C; nh * nw; ps * ps]).
  { rewrite Hs1. unfold infer_shape.
    cbn [map known_size filter is_minus1 length numel fold_right shape u].
    destruct (infer_quot (B * (C * (nh * (nw * (ps * (ps * 1))))))
                (B * (C * (1 * (ps * ps * 1)))) (nh * nw)) as [Hm Hq]; [nia|ring|].
    rewrite Hm, Hq.
    destruct (Nat.eqb_spec (B * (C * (1 * (ps * ps * 1)))) 0); [nia|].
    reflexivity. }
  rewrite (view_ok _ _ _ Hc1 Hi1).
  cbn [rbind ok].
  match goal with |- context [permute ?t] => set (v1 := t) end.
  unfold permute.
  cbn [ndim shape strides v1 length is_perm Nat.eqb forallb Nat.ltb Nat.leb nodupb
       existsb negb andb orb map nth contig_strides offset storage].
  cbn [rbind ok].
  match goal with |- context [contiguous ?t] => set (p1 := t) end.
  pose proof (is_contiguous_contiguous p1) as Hc2.
  pose proof (shape_contiguous p1) as Hs2.
  pose proof (get_contiguous p1) as Hg2.
  set (c2 := contiguous p1) in *.
  assert (Hi2 : infer_shape (numel (shape c2)) [Dim B; Dim (nh * nw); Minus1]
                = ok [B; nh * nw; C * (ps * ps)]).
  { rewrite Hs2. unfold infer_shape.
    cbn [map known_size filter is_minus1 length numel fold_right shape p1].
    destruct (infer_quot (B * (nh * nw * (C * (ps * ps * 1))))
                (B * (nh * nw * (1 * 1))) (C * (ps * ps))) as [Hm Hq]; [nia|ring|].
    rewrite Hm, Hq.
    destruct (Nat.eqb_spec (B * (nh * nw * (1 * 1))) 0); [nia|].
    reflexivity. }
  rewrite (view_ok _ _ _ Hc2 Hi2).
  cbn [rbind ok PatchEmbedding.projection].
  eexists. split; [reflexivity|]. split; [reflexivity|].
  intros Hwf b c r q i j Hb Hc Hr Hq Hi Hj.
  assert (Hp : r * nw + q < nh * nw) by nia.
  assert (Hk : i * ps + j < ps * ps) by nia.
  transitivity (get c2 [b; r * nw + q; c; i * ps + j]).
  { rewrite (get_contiguous_ravel c2 _ Hc2), Hs2.
    unfold get. cbn [shape strides offset storage p1]. f_equal. f_equal.
    unfold ravel. cbn [contig_strides dot numel fold_right]. ring. }
  rewrite Hg2 by (cbn [shape p1]; repeat constructor; assumption).
  transitivity (get c1 [b; c; r; q; i; j]).
  { rewrite (get_contiguous_ravel c1 _ Hc1), Hs1.
    unfold get. cbn [shape strides offset storage p1 v1 u]. f_equal. f_equal.
    unfold ravel. cbn [contig_strides dot numel fold_right]. ring. }
  rewrite Hg1 by (cbn [shape u]; repeat constructor; assumption).
  unfold wf in Hwf. cbn [shape strides length] in Hwf.
  unfold get, u. cbn [shape strides offset storage].
  destruct st as [|s0 [|s1 [|s2 [|s3 [|? ?]]]]]; try discriminate.
  cbn [dot set_nth nth app]. f_equal. ring.
Qed.

(** An image smaller than a patch, and an empty batch or channel list, make
    [unfold] or the first [view] raise. *)
Lemma patches_fail (x : tensor F) ps B C H W proj E :
  shape x = [B; C; H; W] -> 0 < ps ->
  H < ps \/ W < ps \/ B = 0 \/ C = 0 ->
  PatchEmbedding.forward (PatchEmbedding.mk ps E proj) x = raise RuntimeError.
Proof.
  intros Hsh Hps Hbad.
  destruct x as [sh st off sto]. simpl in Hsh. subst sh.
  unfold PatchEmbedding.forward. cbn [shape PatchEmbedding.patch_size].
  destruct (Nat.eqb_spec ps 0); [lia|].
  destruct (Nat.lt_ge_cases H ps) as [HH|HH].
  { rewrite unfold_too_small by (cbn; lia). reflexivity. }
  rewrite unfold_ok by (cbn; lia).
  cbn [rbind ok shape strides offset storage nth set_nth app].
  destruct (Nat.lt_ge_cases W ps) as [HW|HW].
  { rewrite unfold_too_small by (cbn; lia). reflexivity. }
  rewrite unfold_ok by (cbn; lia).
  cbn [rbind ok shape strides offset storage nth set_nth app].
  unfold view. rewrite is_contiguous_contiguous, shape_contiguous.
  unfold infer_shape.
  cbn [map known_size filter is_minus1 length numel fold_right shape].
  destruct (Nat.eqb_spec (B * (C * (1 * (ps * ps * 1)))) 0); [reflexivity|].
  exfalso. nia.
Qed.

Lemma forward_patch_size_zero (self : PatchEmbedding.t F) (x : tensor F) B C H W :
  shape x = [B; C; H; W] -> PatchEmbedding.patch_size self = 0 ->
  PatchEmbedding.forward self x = raise ZeroDivisionError.
Proof.
  intros Hsh Hps. unfold PatchEmbedding.forward. rewrite Hsh, Hps. reflexivity.
Qed.

(** [PatchEmbedding.forward] on an image no smaller than a patch: one
    embedding per patch of the grid, each the projection of the flattened
    patch. *)
Lemma PatchEmbedding_forward_ok (self : PatchEmbedding.t F) (x : tensor F) B C H W E :
  let ps := PatchEmbedding.patch_size self in
  Linear_shaped (PatchEmbedding.projection self) (C * ps * ps) E ->
  shape x = [B; C; H; W] ->
  0 < ps -> ps <= H -> ps <= W -> 0 < B -> 0 < C ->
  exists y,
    PatchEmbedding.forward self x = ok y /\
    shape y = [B; (H / ps) * (W / ps); E] /\
    is_contiguous y = true /\
    (wf x ->
     forall b r q e,
       b < B -> r < H / ps -> q < W / ps -> e < E ->
       get y [b; r * (W / ps) + q; e]
       = affine (PatchEmbedding.projection self) (flatten_patch x ps C b r q) e).
Proof.
  intros ps Hl Hsh Hps HH HW HB HC.
  destruct self as [ps' E' proj]. cbn in ps, Hl. subst ps.
  destruct (patches_ok x ps' B C H W proj E' Hsh Hps HH HW HB HC)
    as (v & Hf & Hv & Hget).
  rewrite <- Nat.mul_assoc in Hl.
  change [B; H / ps' * (W / ps'); C * (ps' * ps')]
    with ([B; H / ps' * (W / ps')] ++ [C * (ps' * ps')]) in Hv.
  pose proof (Linear_forward_ok proj v _ _ _ Hl Hv) as Hy.
  set (y := build _ _) in Hy.
  exists y. split; [rewrite Hf; exact Hy|].
  split; [reflexivity|]. split; [apply is_contiguous_build|].
  intros Hwf b r q e Hb Hr Hq He.
  assert (Hp : r * (W / ps') + q < H / ps' * (W / ps')) by nia.
  change [b; r * (W / ps') + q; e] with ([b; r * (W / ps') + q] ++ [e]).
  rewrite (Linear_forward_get proj v y _ _ _ _ e Hl Hv Hy)
    by (try assumption; repeat constructor; assumption).
  cbn [PatchEmbedding.projection]. f_equal.
  unfold flatten_patch.
  rewrite (flat_map_ext _
    (fun c => map (fun k => get x [b; c; r * ps' + k / ps'; q * ps' + k mod ps'])
                (seq 0 (ps' * ps')))).
  2:{ intro c.
      now rewrite (map_div_mod_flat
        (fun i j => get x [b; c; r * ps' + i; q * ps' + j])) by assumption. }
  rewrite <- (map_div_mod_flat
    (fun c k => get x [b; c; r * ps' + k / ps'; q * ps' + k mod ps'])) by nia.
  apply map_ext_in. intros k Hk. apply in_seq in Hk.
  assert (Hpp : ps' * ps' <> 0) by nia.
  pose proof (Nat.div_mod_eq k (ps' * ps')) as Hk1.
  pose proof (Nat.mod_upper_bound k (ps' * ps') Hpp) as Hk2.
  pose proof (Nat.div_mod_eq (k mod (ps' * ps')) ps') as Hk3.
  assert (Hk4 : (k mod (ps' * ps')) mod ps' < ps')
    by (apply Nat.mod_upper_bound; lia).
  assert (Hk5 : k / (ps' * ps') < C)
    by (apply Nat.Div0.div_lt_upper_bound; lia).
  assert (Hk6 : k mod (ps' * ps') / ps' < ps')
    by (apply Nat.Div0.div_lt_upper_bound; lia).
  rewrite <- (Hget Hwf b _ r q _ _ Hb Hk5 Hr Hq Hk6 Hk4).
  cbn [app]. do 4 f_equal. lia.
Qed.
End PatchEmbeddingFacts.

(** ** Construction *)

Section MonadFacts.
Context {G : Type}.

Lemma mbind_inr {A B} (c : M G A) (k : A -> M G B) g a g' :
  c g = inr (a, g') -> mbind c k g = k a g'.
Proof. intro H. unfold mbind. now rewrite H. Qed.

Lemma mbind_inl {A B} (c : M G A) (k : A -> M G B) g e :
  c g = inl e -> mbind c k g = inl e.
Proof. intro H. unfold mbind. now rewrite H. Qed.

Lemma mrepeat_ok {A} (c : M G A) (P : A -> Prop) :
  (forall g, exists a g', c g = inr (a, g') /\ P a) ->
  forall n g, exists l g',
    mrepeat n c g = inr (l, g') /\ length l = n /\ Forall P l.
Proof.
  intros Hc. induction n as [|n IH]; intro g; simpl.
  - exists [], g. repeat split. constructor.
  - destruct (Hc g) as (a & g1 & Ha & HP).
    destruct (IH g1) as (l & g2 & Hl & Hlen & HF).
    exists (a :: l), g2.
    rewrite (mbind_inr _ _ _ _ _ Ha), (mbind_inr _ _ _ _ _ Hl).
    repeat split; [simpl; congruence|constructor; assumption].
Qed.

Lemma mrepeat_raise {A} (c : M G A) e n g :
  (forall g, c g = inl e) -> 0 < n -> mrepeat n c g = inl e.
Proof.
  intros Hc Hn. destruct n as [|n]; [lia|]. simpl.
  now apply mbind_inl.
Qed.
End MonadFacts.

Section Construction.
Context {F G : Type} {fl : Float F} {rn : Random F G}.

Lemma draw_eq k s (g : G) :
  draw k s g
  = inr (mkTensor s (contig_strides s) 0 (fst (sample (F := F) k (numel s) g)),
         snd (sample (F := F) k (numel s) g)).
Proof. unfold draw. destruct (sample k (numel s) g). reflexivity. Qed.

Lemma Linear_init_ok i o (g : G) :
  exists l g', Linear.init (F := F) i o g = inr (l, g') /\ Linear_shaped l i o.
Proof.
  unfold Linear.init.
  rewrite (mbind_inr _ _ _ _ _ (draw_eq _ _ _)).
  rewrite (mbind_inr _ _ _ _ _ (draw_eq _ _ _)).
  eexists _, _. split; [reflexivity|]. repeat split.
Qed.

Lemma Attention_init_ok e h (g : G) :
  0 < h -> e mod h = 0 ->
  exists a g',
    MultiHeadSelfAttention.init (F := F) e h g = inr (a, g') /\
    Attention_shaped a e h.
Proof.
  intros Hh Hm. unfold MultiHeadSelfAttention.init.
  destruct (Nat.eqb_spec h 0); [lia|].
  rewrite Hm. simpl.
  destruct (Linear_init_ok e e g) as (q & g1 & Hq & Hqs).
  destruct (Linear_init_ok e e g1) as (k & g2 & Hk & Hks).
  destruct (Linear_init_ok e e g2) as (v & g3 & Hv & Hvs).
  destruct (Linear_init_ok e e g3) as (o & g4 & Ho & Hos).
  rewrite (mbind_inr _ _ _ _ _ Hq), (mbind_inr _ _ _ _ _ Hk),
    (mbind_inr _ _ _ _ _ Hv), (mbind_inr _ _ _ _ _ Ho).
  eexists _, _. split; [reflexivity|].
  repeat split; try assumption; try (apply Hqs || apply Hks || apply Hvs || apply Hos).
  cbn. pose proof (Nat.div_mod_eq e h). lia.
Qed.

Lemma Attention_init_assert e h (g : G) :
  0 < h -> e mod h <> 0 ->
  MultiHeadSelfAttention.init (F := F) e h g
  = inl (AssertionError "Embedding dimesion should be divisible by num heads").
Proof.
  intros Hh Hm. unfold MultiHeadSelfAttention.init.
  destruct (Nat.eqb_spec h 0); [lia|].
  apply Nat.eqb_neq in Hm. rewrite Hm. reflexivity.
Qed.

Lemma Attention_init_zero e (g : G) :
  MultiHeadSelfAttention.init (F := F) e 0 g = inl ZeroDivisionError.
Proof. reflexivity. Qed.

Lemma Dropout_init_default (g : G) :
  Dropout.init (1 # 10) g = inr (Dropout.mk (1 # 10) true, g).
Proof. reflexivity. Qed.

Lemma LayerNorm_init_eq n (g : G) :
  LayerNorm.init (F := F) n g
  = inr (LayerNorm.mk n (build [n] (fun _ => fone)) (build [n] (fun _ => fzero)), g).
Proof. reflexivity. Qed.

Lemma Encoder_init_ok e h mlp (g : G) :
  0 < h -> e mod h = 0 ->
  exists b g',
    TransformerEncoder.init (F := F) e h mlp None g = inr (b, g') /\
    Encoder_shaped b e h mlp /\ Encoder_default_dropout b.
Proof.
  intros Hh Hm. unfold TransformerEncoder.init.
  destruct (Attention_init_ok e h g Hh Hm) as (a & g1 & Ha & Has).
  destruct (Linear_init_ok e mlp g1) as (l1 & g2 & Hl1 & Hl1s).
  destruct (Linear_init_ok mlp e g2) as (l2 & g3 & Hl2 & Hl2s).
  unfold TransformerEncoder.default_dropout.
  rewrite (mbind_inr _ _ _ _ _ Ha), (mbind_inr _ _ _ _ _ Hl1),
    (mbind_inr _ _ _ _ _ (Dropout_init_default _)), (mbind_inr _ _ _ _ _ Hl2),
    (mbind_inr _ _ _ _ _ (LayerNorm_init_eq _ _)),
    (mbind_inr _ _ _ _ _ (LayerNorm_init_eq _ _)),
    (mbind_inr _ _ _ _ _ (Dropout_init_default _)),
    (mbind_inr _ _ _ _ _ (Dropout_init_default _)).
  eexists _, _. split; [reflexivity|].
  split; [|repeat split].
  split; [exact Has|]. split; [exact Hl1s|]. split; [exact Hl2s|].
  split; reflexivity.
Qed.

Lemma Encoder_init_inv e h mlp (g g' : G) b :
  0 < h -> e mod h = 0 ->
  TransformerEncoder.init (F := F) e h mlp None g = inr (b, g') ->
  Encoder_shaped b e h mlp /\ Encoder_default_dropout b.
Proof.
  intros Hh Hm H.
  destruct (Encoder_init_ok e h mlp g Hh Hm) as (b' & g'' & Hb & Hs).
  rewrite Hb in H. injection H as -> ->. exact Hs.
Qed.

Lemma Encoder_init_assert e h mlp (g : G) :
  0 < h -> e mod h <> 0 ->
  TransformerEncoder.init (F := F) e h mlp None g
  = inl (AssertionError "Embedding dimesion should be divisible by num heads").
Proof.
  intros Hh Hm. unfold TransformerEncoder.init.
  apply mbind_inl. now apply Attention_init_assert.
Qed.

Lemma Encoder_init_zero e mlp (g : G) :
  TransformerEncoder.init (F := F) e 0 mlp None g = inl ZeroDivisionError.
Proof. reflexivity. Qed.

Lemma PatchEmbedding_init_ok ps ch e (g : G) :
  exists pe g',
    PatchEmbedding.init (F := F) ps ch e g = inr (pe, g') /\
    PatchEmbedding.patch_size pe = ps /\
    PatchEmbedding.embed_dim pe = e /\
    Linear_shaped (PatchEmbedding.projection pe) (ch * ps * ps) e.
Proof.
  unfold PatchEmbedding.init.
  destruct (Linear_init_ok (ch * ps * ps) e g) as (l & g1 & Hl & Hls).
  rewrite (mbind_inr _ _ _ _ _ Hl).
  eexists _, _. split; [reflexivity|]. repeat split; apply Hls.
Qed.

Lemma Position_Encoding_init_eq e n (g : G) :
  Position_Encoding.init (F := F) e n g
  = inr (Position_Encoding.mk
           (mkTensor [1; n + 1; e] (contig_strides [1; n + 1; e]) 0
              (fst (sample (F := F) Randn (numel [1; n + 1; e]) g))),
         snd (sample (F := F) Randn (numel [1; n + 1; e]) g)).
Proof.
  unfold Position_Encoding.init.
  now rewrite (mbind_inr _ _ _ _ _ (draw_eq _ _ _)).
Qed.

(** Construction succeeds when the patch size is positive and, if there is
    a layer at all, the number of heads divides the embedding dimension;
    the parameters then have the shapes of the configuration. *)
Lemma construct_ok (c : Config) (g : G) :
  0 < patch_size c ->
  (num_layers c = 0 \/ (0 < num_heads c /\ embed_dim c mod num_heads c = 0)) ->
  exists m g',
    construct (F := F) c g = inr (m, g') /\
    Model_shaped m c /\
    Forall Encoder_default_dropout (VisionTransformer.transformer_encoders m).
Proof.
  intros Hps Hh. unfold construct, VisionTransformer.init.
  destruct (Nat.eqb_spec (patch_size c) 0); [lia|].
  destruct (PatchEmbedding_init_ok (patch_size c) (in_channels c) (embed_dim c) g)
    as (pe & g1 & Hpe & Hpe1 & Hpe2 & Hpe3).
  assert (Hencs : forall g, exists l g',
    mrepeat (num_layers c)
      (TransformerEncoder.init (F := F) (embed_dim c) (num_heads c) (mlp_dim c) None) g
    = inr (l, g') /\ length l = num_layers c /\
    Forall (fun b => Encoder_shaped b (embed_dim c) (num_heads c) (mlp_dim c) /\
                     Encoder_default_dropout b) l).
  { intro g0. destruct Hh as [H0|[Hh Hm]].
    - rewrite H0. exists [], g0. repeat split. constructor.
    - apply mrepeat_ok. intro g'. now apply Encoder_init_ok. }
  rewrite (mbind_inr _ _ _ _ _ Hpe),
    (mbind_inr _ _ _ _ _ (Position_Encoding_init_eq _ _ _)),
    (mbind_inr _ _ _ _ _ (draw_eq _ _ _)).
  match goal with |- context [mbind (mrepeat _ _) _ ?g0] =>
    destruct (Hencs g0) as (l & g2 & Hl & Hlen & HF) end.
  rewrite (mbind_inr _ _ _ _ _ Hl).
  destruct (Linear_init_ok (embed_dim c) (num_classes c) g2)
    as (cl & g3 & Hcl & Hcls).
  rewrite (mbind_inr _ _ _ _ _ Hcl).
  eexists _, _. split; [reflexivity|].
  split.
  - unfold Model_shaped, wf. cbn -[Nat.div Nat.mul Nat.add].
    repeat (split; [first [assumption|reflexivity]|]).
    split; [|assumption].
    eapply Forall_impl; [|exact HF]. cbn. tauto.
  - cbn. eapply Forall_impl; [|exact HF]. cbn. tauto.
Qed.

Lemma construct_raise_in_layers (c : Config) (g : G) e :
  0 < patch_size c -> 0 < num_layers c ->
  (forall g, TransformerEncoder.init (F := F) (embed_dim c) (num_heads c)
               (mlp_dim c) None g = inl e) ->
  construct (F := F) c g = inl e.
Proof.
  intros Hps Hn He. unfold construct, VisionTransformer.init.
  destruct (Nat.eqb_spec (patch_size c) 0); [lia|].
  destruct (PatchEmbedding_init_ok (patch_size c) (in_channels c) (embed_dim c) g)
    as (pe & g1 & Hpe & _).
  rewrite (mbind_inr _ _ _ _ _ Hpe),
    (mbind_inr _ _ _ _ _ (Position_Encoding_init_eq _ _ _)),
    (mbind_inr _ _ _ _ _ (draw_eq _ _ _)).
  apply mbind_inl. now apply mrepeat_raise.
Qed.

(** The assertion of [MultiHeadSelfAttention.__init__] is the only check of
    the configuration; it runs when the first encoder layer is built. *)
Lemma construct_assert (c : Config) (g : G) :
  0 < patch_size c -> 0 < num_layers c ->
  0 < num_heads c -> embed_dim c mod num_heads c <> 0 ->
  construct (F := F) c g
  = inl (AssertionError "Embedding dimesion should be divisible by num heads").
Proof.
  intros Hps Hn Hh Hm. apply construct_raise_in_layers; try assumption.
  intro g0. now apply Encoder_init_assert.
Qed.

Lemma construct_heads_zero (c : Config) (g : G) :
  0 < patch_size c -> 0 < num_layers c -> num_heads c = 0 ->
  construct (F := F) c g = inl ZeroDivisionError.
Proof.
  intros Hps Hn Hh. apply construct_raise_in_layers; try assumption.
  intro g0. rewrite Hh. apply Encoder_init_zero.
Qed.

Lemma construct_patch_size_zero (c : Config) (g : G) :
  patch_size c = 0 -> construct (F := F) c g = inl ZeroDivisionError.
Proof.
  intro Hps. unfold construct, VisionTransformer.init. rewrite Hps. reflexivity.
Qed.

(** Whatever [construct] returns has the shapes of the configuration and
    the default dropout probability in every layer. *)
Lemma construct_inv (c : Config) (g g' : G) m :
  construct (F := F) c g = inr (m, g') ->
  0 < patch_size c /\
  (num_layers c = 0 \/ (0 < num_heads c /\ embed_dim c mod num_heads c = 0)) /\
  Model_shaped m c /\
  Forall Encoder_default_dropout (VisionTransformer.transformer_encoders m).
Proof.
  intro H.
  destruct (Nat.eq_dec (patch_size c) 0) as [Hps|Hps].
  { rewrite construct_patch_size_zero in H by assumption. discriminate. }
  assert (Hh : num_layers c = 0 \/
               (0 < num_heads c /\ embed_dim c mod num_heads c = 0)).
  { destruct (Nat.eq_dec (num_layers c) 0) as [Hn|Hn]; [now left|right].
    destruct (Nat.eq_dec (num_heads c) 0) as [Hh|Hh].
    { rewrite construct_heads_zero in H by lia. discriminate. }
    destruct (Nat.eq_dec (embed_dim c mod num_heads c) 0) as [Hm|Hm]; [lia|].
    rewrite construct_assert in H by lia. discriminate. }
  destruct (construct_ok c g ltac:(lia) Hh) as (m' & g'' & Hc & Hs & Hd).
  rewrite Hc in H. injection H as -> ->.
  split; [lia|]. split; [exact Hh|]. split; assumption.
Qed.
End Construction.

(** ** Shapes through self-attention *)

Lemma known_size_Dim s : map known_size (map Dim s) = s.
Proof. induction s as [|n s IH]; simpl; [reflexivity|]. now rewrite IH. Qed.

Lemma filter_minus1_Dim s : filter is_minus1 (map Dim s) = [].
Proof. induction s as [|n s IH]; simpl; auto. Qed.

Section ShapeFacts.
Context {F : Type} {fl : Float F}.
Implicit Types (t : tensor F).

Lemma view_exact t s :
  is_contiguous t = true -> numel s = numel (shape t) ->
  view t (map Dim s) = ok (mkTensor s (contig_strides s) (offset t) (storage t)).
Proof.
  intros Hc Hn. apply view_ok; [assumption|].
  unfold infer_shape.
  rewrite filter_minus1_Dim, known_size_Dim. simpl. rewrite Hn, Nat.eqb_refl. reflexivity.
Qed.

Lemma permute_0213 t a b c d :
  shape t = [a; b; c; d] ->
  exists y, permute t [0; 2; 1; 3] = ok y /\ shape y = [a; c; b; d].
Proof.
  intro H. unfold permute, ndim. rewrite H. cbn.
  eexists. split; reflexivity.
Qed.

Lemma transpose_last2 t a b c d :
  shape t = [a; b; c; d] ->
  exists y, transpose t (-2) (-1) = ok y /\ shape y = [a; b; d; c].
Proof.
  intro H. unfold transpose, ndim. rewrite H. cbn.
  eexists. split; reflexivity.
Qed.

Lemma matmul_4d (x y : tensor F) a b m k p :
  shape x = [a; b; m; k] -> shape y = [a; b; k; p] ->
  exists z, matmul x y = ok z /\ shape z = [a; b; m; p].
Proof.
  intros Hx Hy. unfold matmul. rewrite Hx, Hy.
  cbn [rev app]. rewrite Nat.eqb_refl. cbn [negb].
  cbn [broadcast_rev rbind ok]. rewrite !Nat.eqb_refl.
  cbn [rbind ok rev app].
  eexists. split; reflexivity.
Qed.

Lemma div_scalar (x y : tensor F) :
  shape y = [] -> exists z, div x y = ok z /\ shape z = shape x.
Proof.
  intro Hy. unfold div, binop, broadcast_shapes. rewrite Hy. cbn [rev].
  assert (H : broadcast_rev (rev (shape x)) [] = ok (rev (shape x))).
  { destruct (rev (shape x)); reflexivity. }
  rewrite H. cbn [rbind ok]. rewrite rev_involutive.
  eexists. split; reflexivity.
Qed.

Lemma softmax_last t a b c d :
  shape t = [a; b; c; d] ->
  exists y, softmax t (-1) = ok y /\ shape y = [a; b; c; d].
Proof.
  intro H. unfold softmax, ndim. rewrite H. cbn.
  eexists. split; reflexivity.
Qed.
End ShapeFacts.

Section AttentionFacts.
Context {F : Type} {fl : Float F}.

Lemma projections_ok (a : MultiHeadSelfAttention.t F) (x : tensor F) B N E :
  Linear_shaped (MultiHeadSelfAttention.query a) E E ->
  shape x = [B; N; E] ->
  exists q,
    Linear.forward (MultiHeadSelfAttention.query a) x = ok q /\
    MultiHeadSelfAttention.projections a x = ok (q, q, q) /\
    shape q = [B; N; E] /\ is_contiguous q = true.
Proof.
  intros Hq Hx.
  pose proof (Linear_forward_ok _ x [B; N] E E Hq Hx) as H.
  set (q := build _ _) in H. exists q.
  unfold MultiHeadSelfAttention.projections. rewrite H.
  repeat split. apply is_contiguous_build.
Qed.

Lemma heads_ok (q : tensor F) B N E h hd :
  shape q = [B; N; E] -> is_contiguous q = true -> h * hd = E ->
  exists v y,
    view q [Dim B; Dim N; Dim h; Dim hd] = ok v /\
    permute v [0; 2; 1; 3] = ok y /\
    shape y = [B; h; N; hd].
Proof.
  intros Hs Hc HE.
  change [Dim B; Dim N; Dim h; Dim hd] with (map Dim [B; N; h; hd]).
  rewrite (view_exact q [B; N; h; hd] Hc)
    by (rewrite Hs; cbn [numel fold_right]; nia).
  set (v := mkTensor [B; N; h; hd] _ _ _).
  destruct (permute_0213 v B N h hd eq_refl) as (y & Hy & Hys).
  exists v, y. repeat split; assumption.
Qed.

Lemma attention_weights_ok (a : MultiHeadSelfAttention.t F) (q k : tensor F) B h N hd :
  shape q = [B; h; N; hd] -> shape k = [B; h; N; hd] ->
  exists w, MultiHeadSelfAttention.attention_weights a q k = ok w /\
            shape w = [B; h; N; N].
Proof.
  intros Hq Hk. unfold MultiHeadSelfAttention.attention_weights.
  destruct (transpose_last2 k _ _ _ _ Hk) as (kt & Hkt & Hkts).
  rewrite Hkt. cbn [rbind ok].
  destruct (matmul_4d q kt _ _ _ _ _ Hq Hkts) as (qk & Hqk & Hqks).
  rewrite Hqk. cbn [rbind ok].
  match goal with |- context [div qk ?s] =>
    destruct (div_scalar qk s eq_refl) as (sc & Hsc & Hscs) end.
  rewrite Hsc. cbn [rbind ok]. rewrite Hqks in Hscs.
  exact (softmax_last sc _ _ _ _ Hscs).
Qed.

(** Self-attention returns a sequence of the shape of its input. *)
Lemma Attention_forward_ok (a : MultiHeadSelfAttention.t F) (x : tensor F) B N E h :
  Attention_shaped a E h -> shape x = [B; N; E] ->
  exists y, MultiHeadSelfAttention.forward a x = ok y /\ shape y = [B; N; E].
Proof.
  intros (Hh & _ & Hhd & HE & Hq & _ & _ & Ho) Hx.
  unfold MultiHeadSelfAttention.forward. rewrite Hx.
  destruct (projections_ok a x B N E Hq Hx) as (q & _ & Hp & Hqs & Hqc).
  rewrite Hp. cbn [rbind ok]. rewrite Hh, Hhd.
  destruct (heads_ok q B N E h (E / h) Hqs Hqc HE) as (v & qh & Hv & Hqh & Hqhs).
  rewrite Hv. cbn [rbind ok]. rewrite Hqh. cbn [rbind ok].
  destruct (attention_weights_ok a qh qh _ _ _ _ Hqhs Hqhs) as (w & Hw & Hws).
  rewrite Hw. cbn [rbind ok].
  destruct (matmul_4d w qh _ _ _ _ _ Hws Hqhs) as (o & Ho1 & Hos).
  rewrite Ho1. cbn [rbind ok].
  destruct (permute_0213 o _ _ _ _ Hos) as (o' & Ho' & Ho's).
  rewrite Ho'. cbn [rbind ok].
  change [Dim B; Dim N; Dim E] with (map Dim [B; N; E]).
  rewrite (view_exact (contiguous o') [B; N; E] (is_contiguous_contiguous o'))
    by (rewrite shape_contiguous, Ho's; cbn [numel fold_right]; nia).
  cbn [rbind ok].
  match goal with |- context [Linear.forward _ ?t] =>
    pose proof (Linear_forward_ok _ t [B; N] E E Ho eq_refl) as Hy end.
  eexists. split; [exact Hy|reflexivity].
Qed.
End AttentionFacts.

(** ** The encoder block *)

Section EncoderFacts.
Context {F G : Type} {fl : Float F} {rn : Random F G}.

Lemma lift_ok {A} (a : A) (g : G) : lift (ok a) g = inr (a, g).
Proof. reflexivity. Qed.

Lemma broadcast_rev_same s : broadcast_rev s s = ok s.
Proof.
  induction s as [|n s IH]; [reflexivity|].
  simpl. rewrite IH. simpl. now rewrite Nat.eqb_refl.
Qed.

Lemma add_same_shape (a b : tensor F) :
  shape b = shape a ->
  exists y, add a b = ok y /\ shape y = shape a /\ wf y.
Proof.
  intro H. unfold add, binop, broadcast_shapes.
  rewrite H, broadcast_rev_same. cbn [rbind ok]. rewrite rev_involutive.
  eexists. split; [reflexivity|]. split; [reflexivity|apply wf_build].
Qed.

Lemma Dropout_forward_ok (d : Dropout.t) (x : tensor F) (g : G) :
  exists y g', Dropout.forward d x g = inr (y, g') /\ shape y = shape x.
Proof.
  unfold Dropout.forward. destruct (Dropout.training d).
  - destruct (bernoulli _ _ g) as [keep g'].
    eexists _, _. split; reflexivity.
  - eexists _, _. split; reflexivity.
Qed.

(** In evaluation mode dropout is the identity and draws nothing. *)
Lemma Dropout_forward_eval (d : Dropout.t) (x : tensor F) (g : G) :
  Dropout.training d = false -> Dropout.forward d x g = inr (x, g).
Proof. intro H. unfold Dropout.forward. now rewrite H. Qed.

Lemma LayerNorm_forward_ok (ln : LayerNorm.t F) (x : tensor F) lead e :
  LayerNorm.normalized_shape ln = e -> shape x = lead ++ [e] ->
  exists y, LayerNorm.forward ln x = ok y /\ shape y = shape x /\ wf y.
Proof.
  intros Hn Hx. unfold LayerNorm.forward.
  rewrite Hx, rev_app_distr. cbn [rev app]. rewrite Hn, Nat.eqb_refl. cbn [negb].
  eexists. split; [reflexivity|]. split; [reflexivity|apply wf_build].
Qed.

(** The steps of [TransformerEncoder.forward], each with the tensor it
    produces: attention on the input, dropout, residual sum, first
    normalisation; then the feed-forward network on the normalised sequence,
    dropout, residual sum, second normalisation. *)
Lemma Encoder_forward_steps (blk : TransformerEncoder.t F) (x : tensor F) (g : G)
      B N E h mlp :
  Encoder_shaped blk E h mlp -> shape x = [B; N; E] ->
  exists attn_out d1 s1 x1 h1 h2 ff_out d2 s2 x2 g1 g2 g3,
    MultiHeadSelfAttention.forward (TransformerEncoder.self_attn blk) x = ok attn_out /\
    Dropout.forward (TransformerEncoder.dropout1 blk) attn_out g = inr (d1, g1) /\
    add x d1 = ok s1 /\
    LayerNorm.forward (TransformerEncoder.norm1 blk) s1 = ok x1 /\
    shape x1 = [B; N; E] /\
    Linear.forward (TransformerEncoder.linear1 blk) x1 = ok h1 /\
    shape h1 = [B; N; mlp] /\
    Dropout.forward (TransformerEncoder.dropout blk) (gelu h1) g1 = inr (h2, g2) /\
    Linear.forward (TransformerEncoder.linear2 blk) h2 = ok ff_out /\
    shape ff_out = [B; N; E] /\
    Dropout.forward (TransformerEncoder.dropout2 blk) ff_out g2 = inr (d2, g3) /\
    add x1 d2 = ok s2 /\
    LayerNorm.forward (TransformerEncoder.norm2 blk) s2 = ok x2 /\
    TransformerEncoder.forward blk x g = inr (x2, g3) /\
    shape x2 = [B; N; E] /\ wf x2.
Proof.
  intros (Ha & Hl1 & Hl2 & Hn1 & Hn2) Hx.
  destruct (Attention_forward_ok _ x B N E h Ha Hx) as (attn_out & Hattn & Hattns).
  destruct (Dropout_forward_ok (TransformerEncoder.dropout1 blk) attn_out g)
    as (d1 & g1 & Hd1 & Hd1s).
  destruct (add_same_shape x d1) as (s1 & Hs1 & Hs1s & _); [congruence|].
  rewrite Hx in Hs1s.
  destruct (LayerNorm_forward_ok _ s1 [B; N] E Hn1 Hs1s) as (x1 & Hx1 & Hx1s & _).
  rewrite Hs1s in Hx1s.
  pose proof (Linear_forward_ok _ x1 [B; N] E mlp Hl1 Hx1s) as Hh1.
  set (h1 := build _ _) in Hh1.
  destruct (Dropout_forward_ok (TransformerEncoder.dropout blk) (gelu h1) g1)
    as (h2 & g2 & Hh2 & Hh2s).
  change (shape (gelu h1)) with ([B; N] ++ [mlp]) in Hh2s.
  pose proof (Linear_forward_ok _ h2 [B; N] mlp E Hl2 Hh2s) as Hff.
  set (ff_out := build _ _) in Hff.
  destruct (Dropout_forward_ok (TransformerEncoder.dropout2 blk) ff_out g2)
    as (d2 & g3 & Hd2 & Hd2s).
  destruct (add_same_shape x1 d2) as (s2 & Hs2 & Hs2s & _);
    [rewrite Hd2s, Hx1s; reflexivity|].
  rewrite Hx1s in Hs2s.
  destruct (LayerNorm_forward_ok _ s2 [B; N] E Hn2 Hs2s) as (x2 & Hx2 & Hx2s & Hx2w).
  rewrite Hs2s in Hx2s.
  exists attn_out, d1, s1, x1, h1, h2, ff_out, d2, s2, x2, g1, g2, g3.
  repeat (split; [first [assumption|reflexivity]|]).
  split; [|split; assumption].
  unfold TransformerEncoder.forward.
  unfold mbind. rewrite Hattn, lift_ok, Hd1, Hs1, lift_ok, Hx1, lift_ok, Hh1, lift_ok,
    Hh2, Hff, lift_ok, Hd2, Hs2, lift_ok, Hx2, lift_ok.
  reflexivity.
Qed.

(** A stack of encoder blocks, applied in order, keeps the shape. *)
Lemma mfold_Encoder_ok (blocks : list (TransformerEncoder.t F)) B N E h mlp :
  Forall (fun b => Encoder_shaped b E h mlp) blocks ->
  forall (x : tensor F) (g : G),
    shape x = [B; N; E] -> wf x ->
    exists y g',
      mfold TransformerEncoder.forward blocks x g = inr (y, g') /\
      shape y = [B; N; E] /\ wf y.
Proof.
  induction 1 as [|blk blocks Hb _ IH]; intros x g Hx Hw.
  - exists x, g. repeat split; assumption.
  - destruct (Encoder_forward_steps blk x g B N E h mlp Hb Hx)
      as (? & ? & ? & ? & ? & ? & ? & ? & ? & x2 & ? & ? & g3 & H).
    decompose [and] H.
    destruct (IH x2 g3) as (y & g' & Hy & Hys & Hyw); try assumption.
    exists y, g'. split; [|split; assumption].
    cbn [mfold]. erewrite mbind_inr by eassumption. exact Hy.
Qed.
End EncoderFacts.

(** ** Class token, positions and the classification head *)

Ltac solve_in_range :=
  unfold in_range; repeat (apply Forall2_cons; [lia|]); apply Forall2_nil.

Section Orchestration.
Context {F G : Type} {fl : Float F} {rn : Random F G}.

Lemma expand_cls (cls : tensor F) B E :
  shape cls = [1; 1; E] -> wf cls ->
  exists y,
    expand cls [Dim B; Minus1; Minus1] = ok y /\
    shape y = [B; 1; E] /\ wf y /\
    forall b e, b < B -> get y [b; 0; e] = get cls [0; 0; e].
Proof.
  intros Hs Hw. destruct cls as [sh st off sto]. cbn in Hs. subst sh.
  unfold wf in Hw. cbn in Hw.
  destruct st as [|s0 [|s1 [|s2 [|? ?]]]]; try discriminate.
  unfold expand. cbn [shape strides expand_dims rbind ok fst snd offset storage].
  destruct (Nat.eqb_spec B 1) as [->|HB].
  - eexists. split; [reflexivity|]. repeat split.
    intros b e Hb. assert (b = 0) as -> by lia. reflexivity.
  - cbn [Nat.eqb fst snd]. eexists. split; [reflexivity|]. repeat split.
    intros b e Hb. unfold get. cbn [dot strides offset storage fst snd]. f_equal. lia.
Qed.

Lemma cat_dim1 (a b : tensor F) B n E :
  shape a = [B; 1; E] -> shape b = [B; n; E] ->
  exists y,
    cat a b 1 = ok y /\ shape y = [B; 1 + n; E] /\ wf y /\
    (forall i e, i < B -> e < E -> get y [i; 0; e] = get a [i; 0; e]) /\
    (forall i j e, i < B -> j < n -> e < E -> get y [i; S j; e] = get b [i; j; e]).
Proof.
  intros Ha Hb. unfold cat, ndim. rewrite Ha, Hb.
  cbn [length Nat.ltb Nat.leb negb set_nth nth].
  rewrite list_eqb_refl. cbn [negb].
  eexists. split; [reflexivity|]. split; [reflexivity|]. split; [apply wf_build|].
  split.
  - intros i e Hi He. rewrite get_build by solve_in_range.
    reflexivity.
  - intros i j e Hi Hj He. rewrite get_build by solve_in_range.
    cbn [nth Nat.ltb Nat.leb set_nth].
    replace (S j - 1) with j by lia. reflexivity.
Qed.

Lemma add_positions (x pos : tensor F) B L E :
  shape x = [B; L; E] -> shape pos = [1; L; E] ->
  exists y,
    add x pos = ok y /\ shape y = [B; L; E] /\ wf y /\
    (wf x -> wf pos ->
     forall b l e, b < B -> l < L -> e < E ->
       get y [b; l; e] = fadd (get x [b; l; e]) (get pos [0; l; e])).
Proof.
  intros Hx Hp. unfold add, binop, broadcast_shapes. rewrite Hx, Hp.
  cbn [rev app broadcast_rev rbind ok]. rewrite !Nat.eqb_refl.
  assert (Hb : (if B =? 1 then ok [B] else if B =? 1 then ok [1] else ok [B])
               = ok (A := list nat) [B]).
  { destruct (B =? 1); reflexivity. }
  rewrite Hb. cbn [rbind ok rev app].
  eexists. split; [reflexivity|]. split; [reflexivity|]. split; [apply wf_build|].
  intros Hwx Hwp b l e Hb' Hl He.
  rewrite get_build by solve_in_range.
  destruct x as [sh st off sto], pos as [sh' st' off' sto'].
  cbn in Hx, Hp. subst sh sh'. unfold wf in Hwx, Hwp. cbn in Hwx, Hwp.
  destruct st as [|s0 [|s1 [|s2 [|? ?]]]]; try discriminate.
  destruct st' as [|t0 [|t1 [|t2 [|? ?]]]]; try discriminate.
  unfold get, broadcast_to.
  cbn [shape strides offset storage rev app broadcast_strides_rev].
  rewrite !Nat.eqb_refl.
  f_equal; f_equal; destruct (Nat.eqb_spec 1 B) as [<-|HB]; cbn [dot]; lia.
Qed.

Lemma add_positions_mismatch (x pos : tensor F) B L L' E :
  shape x = [B; L; E] -> shape pos = [1; L'; E] ->
  L <> L' -> L <> 1 -> L' <> 1 ->
  add x pos = raise RuntimeError.
Proof.
  intros Hx Hp H1 H2 H3. unfold add, binop, broadcast_shapes. rewrite Hx, Hp.
  cbn [rev app broadcast_rev rbind ok].
  assert (Hb : (if B =? 1 then ok [B] else
                if B =? 1 then ok [1] else
                if 1 =? 1 then ok [B] else raise RuntimeError) = ok [B]).
  { destruct (B =? 1); reflexivity. }
  rewrite Hb. cbn [rbind ok].
  apply Nat.eqb_neq in H1, H2, H3. rewrite H1, H2, H3. reflexivity.
Qed.

Lemma select_first (x : tensor F) B L E :
  shape x = [B; L; E] -> 0 < L ->
  exists y,
    select x 1 0 = ok y /\ shape y = [B; E] /\
    (wf x -> forall b e, get y [b; e] = get x [b; 0; e]).
Proof.
  intros Hx HL. unfold select, ndim. rewrite Hx.
  cbn [length nth]. change (1 <? 3) with true. cbn [negb].
  destruct (Nat.ltb_spec 0 L); [|lia]. cbn [negb].
  eexists. split; [reflexivity|]. split; [reflexivity|].
  intros Hw b e. destruct x as [sh st off sto]. cbn in Hx. subst sh.
  unfold wf in Hw. cbn in Hw.
  destruct st as [|s0 [|s1 [|s2 [|? ?]]]]; try discriminate.
  unfold get, remove_nth.
  cbn [shape strides offset storage firstn skipn app nth dot]. f_equal. lia.
Qed.

Lemma is_contiguous_wf (t : tensor F) : is_contiguous t = true -> wf t.
Proof.
  intro H. unfold wf. rewrite (is_contiguous_strides _ H).
  apply length_contig_strides.
Qed.

Lemma mfold_runs (bs : list (TransformerEncoder.t F)) :
  forall x (g : G) y g',
    mfold TransformerEncoder.forward bs x g = inr (y, g') <->
    runs_layers bs x g y g'.
Proof.
  induction bs as [|b bs IH]; intros x g y g'; split; intro H.
  - cbn in H. injection H as <- <-. constructor.
  - inversion H; subst. reflexivity.
  - cbn [mfold] in H. unfold mbind in H.
    destruct (TransformerEncoder.forward b x g) as [e|[x1 g1]] eqn:Hb;
      [discriminate|].
    econstructor; [exact Hb|]. now apply IH.
  - inversion H; subst. cbn [mfold].
    erewrite mbind_inr by eassumption. now apply IH.
Qed.
End Orchestration.

(** ** The forward pass of the whole model *)

Section Forward.
Context {F G : Type} {fl : Float F} {rn : Random F G}.

Lemma forward_steps (m : VisionTransformer.t F) (c : Config) (x : tensor F) (g : G)
      B H W :
  Model_shaped m c ->
  shape x = [B; in_channels c; H; W] ->
  0 < patch_size c -> patch_size c <= H -> patch_size c <= W ->
  0 < B -> 0 < in_channels c ->
  (H / patch_size c) * (W / patch_size c) = n_patches c ->
  exists pe cls xcat xpos xenc g' c0 out,
    PatchEmbedding.forward (VisionTransformer.patch_embedding m) x = ok pe /\
    shape pe = [B; n_patches c; embed_dim c] /\
    expand (VisionTransformer.classification_token m) [Dim B; Minus1; Minus1] = ok cls /\
    shape cls = [B; 1; embed_dim c] /\
    (forall b e, b < B ->
       get cls [b; 0; e] = get (VisionTransformer.classification_token m) [0; 0; e]) /\
    cat cls pe 1 = ok xcat /\
    shape xcat = [B; 1 + n_patches c; embed_dim c] /\
    (forall b e, b < B -> e < embed_dim c ->
       get xcat [b; 0; e] = get (VisionTransformer.classification_token m) [0; 0; e]) /\
    (forall b j e, b < B -> j < n_patches c -> e < embed_dim c ->
       get xcat [b; S j; e] = get pe [b; j; e]) /\
    Position_Encoding.forward (VisionTransformer.position_encoding m) xcat = ok xpos /\
    shape xpos = [B; 1 + n_patches c; embed_dim c] /\
    (forall b l e, b < B -> l < 1 + n_patches c -> e < embed_dim c ->
       get xpos [b; l; e]
       = fadd (get xcat [b; l; e])
              (get (Position_Encoding.position_encoding
                      (VisionTransformer.position_encoding m)) [0; l; e])) /\
    runs_layers (VisionTransformer.transformer_encoders m) xpos g xenc g' /\
    shape xenc = [B; 1 + n_patches c; embed_dim c] /\
    select xenc 1 0 = ok c0 /\
    shape c0 = [B; embed_dim c] /\
    (forall b e, get c0 [b; e] = get xenc [b; 0; e]) /\
    Linear.forward (VisionTransformer.classifier m) c0 = ok out /\
    shape out = [B; num_classes c] /\
    (forall b k, b < B -> k < num_classes c ->
       get out [b; k]
       = affine (VisionTransformer.classifier m)
           (map (fun e => get c0 [b; e]) (seq 0 (embed_dim c))) k) /\
    VisionTransformer.forward m x g = inr (out, g').
Proof.
  intros (_ & Hps & _ & Hproj & Hpos & Hposw & Hcls & Hclsw & _ & Hencs & Hcl)
         Hx Hp HH HW HB HC Hn.
  rewrite <- Hps in Hp, HH, HW, Hn, Hproj.
  destruct (PatchEmbedding_forward_ok _ x B _ H W _ Hproj Hx Hp HH HW HB HC)
    as (pe & Hpe & Hpes & Hpec & _).
  rewrite Hn in Hpes.
  destruct (expand_cls _ B _ Hcls Hclsw) as (cls & Hex & Hexs & Hexw & Hexg).
  destruct (cat_dim1 cls pe B _ _ Hexs Hpes) as (xcat & Hcat & Hcats & Hcatw & Hc0 & Hc1).
  destruct (add_positions xcat
              (Position_Encoding.position_encoding (VisionTransformer.position_encoding m))
              B (1 + n_patches c) (embed_dim c) Hcats)
    as (xpos & Hadd & Hadds & Haddw & Haddg).
  { rewrite Hpos. f_equal. f_equal. lia. }
  destruct (mfold_Encoder_ok _ B (1 + n_patches c) _ _ _ Hencs xpos g Hadds Haddw)
    as (xenc & g' & Hfold & Hfolds & Hfoldw).
  destruct (select_first xenc B _ _ Hfolds ltac:(lia)) as (c0 & Hsel & Hsels & Hselg).
  change [B; embed_dim c] with ([B] ++ [embed_dim c]) in Hsels.
  pose proof (Linear_forward_ok _ c0 [B] _ _ Hcl Hsels) as Hout.
  set (out := build _ _) in Hout.
  exists pe, cls, xcat, xpos, xenc, g', c0, out.
  split; [assumption|]. split; [assumption|]. split; [assumption|].
  split; [assumption|]. split; [assumption|]. split; [assumption|].
  split; [assumption|].
  split; [intros b e Hb He; rewrite Hc0 by assumption; now apply Hexg|].
  split; [assumption|]. split; [assumption|]. split; [assumption|].
  split; [now apply Haddg|].
  split; [now apply mfold_runs|]. split; [assumption|]. split; [assumption|].
  split; [assumption|]. split; [now apply Hselg|]. split; [assumption|].
  split; [reflexivity|].
  split.
  { intros b k Hb Hk. change [b; k] with ([b] ++ [k]).
    rewrite (Linear_forward_get _ c0 out [B] _ _ [b] k Hcl Hsels Hout)
      by (try assumption; solve_in_range).
    reflexivity. }
  unfold VisionTransformer.forward.
  unfold mbind at 1. rewrite Hpe, lift_ok.
  unfold mbind at 1. unfold size, ndim. rewrite Hpes. cbn [length Nat.ltb Nat.leb nth].
  rewrite lift_ok.
  unfold mbind at 1. rewrite Hex, lift_ok.
  unfold mbind at 1. rewrite Hcat, lift_ok.
  unfold mbind at 1. unfold Position_Encoding.forward. rewrite Hadd, lift_ok.
  unfold mbind at 1. rewrite Hfold.
  unfold mbind at 1. rewrite Hsel, lift_ok.
  rewrite Hout. reflexivity.
Qed.

(** A wrong channel count is caught by the first operation that cannot go
    on: [unfold] or [view] on a degenerate image, else the projection. *)
Lemma forward_wrong_channels (m : VisionTransformer.t F) (c : Config)
      (x : tensor F) (g : G) B C H W :
  Model_shaped m c -> shape x = [B; C; H; W] ->
  0 < patch_size c -> C <> in_channels c ->
  VisionTransformer.forward m x g = inl RuntimeError.
Proof.
  intros (_ & Hps & _ & Hproj & _) Hx Hp HC.
  unfold VisionTransformer.forward. apply mbind_inl.
  destruct (VisionTransformer.patch_embedding m) as [ps E proj].
  cbn in Hps, Hproj. subst ps.
  assert (Hbad : PatchEmbedding.forward (PatchEmbedding.mk (patch_size c) E proj) x
                 = raise RuntimeError).
  { destruct (Nat.lt_ge_cases H (patch_size c)) as [HH|HH];
      [apply (patches_fail x _ B C H W); auto|].
    destruct (Nat.lt_ge_cases W (patch_size c)) as [HW|HW];
      [apply (patches_fail x _ B C H W); auto|].
    destruct (Nat.eq_dec B 0) as [HB|HB];
      [apply (patches_fail x _ B C H W); auto|].
    destruct (Nat.eq_dec C 0) as [HC0|HC0];
      [apply (patches_fail x _ B C H W); auto|].
    destruct (patches_ok x (patch_size c) B C H W proj E Hx Hp HH HW
                ltac:(lia) ltac:(lia)) as (v & Hv & Hvs & _).
    rewrite Hv.
    change [B; H / patch_size c * (W / patch_size c); C * (patch_size c * patch_size c)]
      with ([B; H / patch_size c * (W / patch_size c)]
              ++ [C * (patch_size c * patch_size c)]) in Hvs.
    apply (Linear_forward_mismatch proj v _ _ _ _ Hproj Hvs). nia. }
  unfold lift. now rewrite Hbad.
Qed.

(** An image with the right channels and a grid of another size than the
    configured one gets as far as the positional encoding, whose addition
    raises; an empty batch, an empty channel list and an image smaller than
    a patch raise in [PatchEmbedding.forward]. *)
Lemma forward_wrong_grid (m : VisionTransformer.t F) (c : Config)
      (x : tensor F) (g : G) B H W :
  Model_shaped m c -> shape x = [B; in_channels c; H; W] ->
  0 < patch_size c -> 0 < n_patches c ->
  (H / patch_size c) * (W / patch_size c) <> n_patches c \/ B = 0
  \/ in_channels c = 0 ->
  VisionTransformer.forward m x g = inl RuntimeError.
Proof.
  intros Hm Hx Hp HN Hbad.
  pose proof Hm as (_ & Hps & _ & Hproj & Hpos & _ & Hcls & Hclsw & _).
  unfold VisionTransformer.forward.
  destruct (Nat.lt_ge_cases H (patch_size c)) as [HH|HH].
  { apply mbind_inl. unfold lift.
    destruct (VisionTransformer.patch_embedding m) as [ps E proj]. cbn in Hps. subst ps.
    rewrite (patches_fail x _ B _ H W proj E Hx Hp); auto. }
  destruct (Nat.lt_ge_cases W (patch_size c)) as [HW|HW].
  { apply mbind_inl. unfold lift.
    destruct (VisionTransformer.patch_embedding m) as [ps E proj]. cbn in Hps. subst ps.
    rewrite (patches_fail x _ B _ H W proj E Hx Hp); auto. }
  destruct (Nat.eq_dec B 0) as [HB|HB].
  { apply mbind_inl. unfold lift.
    destruct (VisionTransformer.patch_embedding m) as [ps E proj]. cbn in Hps. subst ps.
    rewrite (patches_fail x _ B _ H W proj E Hx Hp); auto. }
  destruct (Nat.eq_dec (in_channels c) 0) as [HC|HC].
  { apply mbind_inl. unfold lift.
    destruct (VisionTransformer.patch_embedding m) as [ps E proj]. cbn in Hps. subst ps.
    rewrite (patches_fail x _ B _ H W proj E Hx Hp); auto. }
  destruct Hbad as [Hgrid|[?|?]]; [|lia|lia].
  rewrite <- Hps in Hp, HH, HW, Hproj.
  destruct (PatchEmbedding_forward_ok _ x B _ H W _ Hproj Hx Hp HH HW
              ltac:(lia) ltac:(lia)) as (pe & Hpe & Hpes & _).
  destruct (expand_cls _ B _ Hcls Hclsw) as (cls & Hex & Hexs & _).
  destruct (cat_dim1 cls pe B _ _ Hexs Hpes) as (xcat & Hcat & Hcats & _).
  unfold mbind at 1. rewrite Hpe, lift_ok.
  unfold mbind at 1. unfold size, ndim. rewrite Hpes. cbn [length Nat.ltb Nat.leb nth].
  rewrite lift_ok.
  unfold mbind at 1. rewrite Hex, lift_ok.
  unfold mbind at 1. rewrite Hcat, lift_ok.
  apply mbind_inl. unfold Position_Encoding.forward, lift.
  rewrite (add_positions_mismatch xcat _ B _ _ _ Hcats Hpos); [reflexivity| | |lia].
  - rewrite Hps. lia.
  - assert (0 < H / PatchEmbedding.patch_size (VisionTransformer.patch_embedding m))
      by (apply Nat.div_str_pos; lia).
    assert (0 < W / PatchEmbedding.patch_size (VisionTransformer.patch_embedding m))
      by (apply Nat.div_str_pos; lia).
    nia.
Qed.

(** The forward pass succeeds as soon as the channels and the grid of whole
    patches are the configured ones; the height and width themselves need
    not be multiples of the patch size. *)
Lemma forward_succeeds (m : VisionTransformer.t F) (c : Config)
      (x : tensor F) (g : G) B H W :
  Model_shaped m c -> shape x = [B; in_channels c; H; W] ->
  0 < patch_size c -> 0 < n_patches c ->
  (H / patch_size c) * (W / patch_size c) = n_patches c ->
  0 < B -> 0 < in_channels c ->
  exists out g',
    VisionTransformer.forward m x g = inr (out, g') /\
    shape out = [B; num_classes c].
Proof.
  intros Hm Hx Hp HN Hn HB HC.
  assert (HH : patch_size c <= H).
  { destruct (Nat.lt_ge_cases H (patch_size c)) as [Hlt|]; [|assumption].
    rewrite (Nat.div_small _ _ Hlt) in Hn. lia. }
  assert (HW : patch_size c <= W).
  { destruct (Nat.lt_ge_cases W (patch_size c)) as [Hlt|]; [|assumption].
    rewrite (Nat.div_small _ _ Hlt) in Hn. lia. }
  destruct (forward_steps m c x g B H W Hm Hx Hp HH HW HB HC Hn)
    as (pe & cls & xcat & xpos & xenc & g' & c0 & out & Hs).
  decompose [and] Hs. exists out, g'. split; assumption.
Qed.

Lemma forward_not_4d (m : VisionTransformer.t F) (x : tensor F) (g : G) :
  length (shape x) <> 4 -> VisionTransformer.forward m x g = inl ValueError.
Proof.
  intro H. unfold VisionTransformer.forward. apply mbind_inl.
  unfold lift, PatchEmbedding.forward.
  destruct (shape x) as [|? [|? [|? [|? [|? ?]]]]]; try reflexivity.
  cbn in H. lia.
Qed.
End Forward.

(** * The claims *)

Section Claims.
Context {F G : Type} {fl : Float F} {rn : Random F G}.

(** C2. [MultiHeadSelfAttention.forward] computes Q, K and V with the one
    layer [self.query]: the three projections are the same tensor, and the
    output of the attention is the same whatever the parameters of
    [self.key] and [self.value] are. *)
Theorem C2_attention_ignores_key_and_value_layers
        (a : MultiHeadSelfAttention.t F) (k v : Linear.t F) (x : tensor F) :
  MultiHeadSelfAttention.projections a x
  = (q <- Linear.forward (MultiHeadSelfAttention.query a) x ;; ok (q, q, q))%result /\
  MultiHeadSelfAttention.projections (with_key_value a k v) x
  = MultiHeadSelfAttention.projections a x /\
  MultiHeadSelfAttention.forward (with_key_value a k v) x
  = MultiHeadSelfAttention.forward a x.
Proof.
  split; [|split].
  - unfold MultiHeadSelfAttention.projections.
    destruct (Linear.forward (MultiHeadSelfAttention.query a) x); reflexivity.
  - reflexivity.
  - reflexivity.
Qed.

(** C8. On a sequence of shape [[B; N; E]] an encoder block returns, and
    what it returns is made by the two post-normalised residual sub-layers
    in order: [x1 = LayerNorm1 (x + Dropout1 (SelfAttention x))], then
    [LayerNorm2 (x1 + Dropout2 (Linear2 (Dropout (GELU (Linear1 x1)))))],
    the feed-forward network widening to [mlp_dim] and projecting back. *)
Theorem C8_encoder_block_is_post_norm
        (blk : TransformerEncoder.t F) (x : tensor F) (g : G) (B N E h mlp : nat) :
  Encoder_shaped blk E h mlp -> shape x = [B; N; E] ->
  exists y g',
    TransformerEncoder.forward blk x g = inr (y, g') /\
    shape y = [B; N; E] /\
    post_norm_steps blk x g B N E mlp y g'.
Proof.
  intros Hb Hx.
  destruct (Encoder_forward_steps blk x g B N E h mlp Hb Hx)
    as (attn_out & d1 & s1 & x1 & h1 & h2 & ff_out & d2 & s2 & x2 & g1 & g2 & g3 & H).
  decompose [and] H. clear H.
  exists x2, g3. split; [assumption|]. split; [assumption|].
  exists attn_out, d1, s1, x1, h1, h2, ff_out, d2, s2, g1, g2.
  repeat (split; [assumption|]). assumption.
Qed.

(** C10. Whatever the eight configuration fields are, a model that
    [VisionTransformer.__init__] returns has [num_layers] encoder blocks,
    and in each of them the three dropout layers have the default
    probability 0.1 of [TransformerEncoder.__init__]. *)
Theorem C10_every_block_has_default_dropout
        (c : Config) (g g' : G) (m : VisionTransformer.t F) :
  construct c g = inr (m, g') ->
  length (VisionTransformer.transformer_encoders m) = num_layers c /\
  Forall Encoder_default_dropout (VisionTransformer.transformer_encoders m).
Proof.
  intro H. apply construct_inv in H as (_ & _ & Hs & Hd).
  split; [apply Hs|exact Hd].
Qed.

(** C3. On a batch of images that fit the configuration,
    [VisionTransformer.forward] returns [num_classes] logits per image,
    computed by the steps of [forward_sequence]: patch embedding, the one
    class token of shape [[1; 1; embed_dim]] broadcast over the batch and
    put at position 0, positional encoding added, the [num_layers] encoder
    blocks in order, position 0 extracted, the classification head. *)
Theorem C3_forward_is_the_sequence_of_steps
        (m : VisionTransformer.t F) (c : Config) (x : tensor F) (g : G)
        (B H W : nat) :
  Model_shaped m c ->
  shape x = [B; in_channels c; H; W] ->
  0 < patch_size c -> patch_size c <= H -> patch_size c <= W ->
  0 < B -> 0 < in_channels c ->
  (H / patch_size c) * (W / patch_size c) = n_patches c ->
  exists out g',
    VisionTransformer.forward m x g = inr (out, g') /\
    shape out = [B; num_classes c] /\
    forward_sequence m c x g B out g'.
Proof.
  intros Hm Hx Hp HH HW HB HC Hn.
  destruct (forward_steps m c x g B H W Hm Hx Hp HH HW HB HC Hn)
    as (pe & cls & xcat & xpos & xenc & g' & c0 & out & Hs).
  decompose [and] Hs. clear Hs.
  exists out, g'. split; [assumption|]. split; [assumption|].
  exists pe, cls, xcat, xpos, xenc, c0.
  destruct Hm as (_ & _ & _ & _ & _ & _ & Hcls & _ & Hlen & _).
  repeat (split; [assumption|]). assumption.
Qed.

(** C4. With the configuration of the notebook and a batch of 32 images of
    224x224 pixels and 3 channels: there are 196 patches, the sequence that
    enters the stack of the 12 encoder blocks has length 197, and the output
    has shape [[32; 10]]. *)
Theorem C4_notebook_configuration_shapes
        (m : VisionTransformer.t F) (g0 g1 g : G) (x : tensor F) :
  construct Examples.notebook g0 = inr (m, g1) ->
  shape x = [32; 3; 224; 224] ->
  n_patches Examples.notebook = 196 /\
  exists pe xcat xpos xenc out g',
    PatchEmbedding.forward (VisionTransformer.patch_embedding m) x = ok pe /\
    shape pe = [32; 196; 768] /\
    Position_Encoding.forward (VisionTransformer.position_encoding m) xcat = ok xpos /\
    shape xpos = [32; 197; 768] /\
    length (VisionTransformer.transformer_encoders m) = 12 /\
    runs_layers (VisionTransformer.transformer_encoders m) xpos g xenc g' /\
    VisionTransformer.forward m x g = inr (out, g') /\
    shape out = [32; 10].
Proof.
  intros Hc Hx. split; [reflexivity|].
  apply construct_inv in Hc as (_ & _ & Hm & _).
  destruct (forward_steps m Examples.notebook x g 32 224 224 Hm Hx)
    as (pe & cls & xcat & xpos & xenc & g' & c0 & out & Hs);
    try (cbn; lia); try reflexivity.
  decompose [and] Hs. clear Hs.
  destruct Hm as (_ & _ & _ & _ & _ & _ & _ & _ & Hlen & _).
  exists pe, xcat, xpos, xenc, out, g'.
  repeat (split; [assumption|]). assumption.
Qed.

(** C6, as the code has it.  With a positive patch size and a positive
    number of heads, construction has one check: when there is at least one
    layer and [num_heads] does not divide [embed_dim], it raises the
    [AssertionError] of [MultiHeadSelfAttention.__init__]; when [num_heads]
    divides [embed_dim] it succeeds, whatever [img_size] is, and the
    positional encoding gets [(img_size // patch_size)^2 + 1] positions. *)
Theorem C6_construction_checks_heads_only (c : Config) (g : G) :
  0 < patch_size c -> 0 < num_heads c ->
  (0 < num_layers c -> embed_dim c mod num_heads c <> 0 ->
   construct (F := F) c g
   = inl (AssertionError "Embedding dimesion should be divisible by num heads")) /\
  (embed_dim c mod num_heads c = 0 ->
   exists m g',
     construct (F := F) c g = inr (m, g') /\
     Model_shaped m c /\
     shape (Position_Encoding.position_encoding (VisionTransformer.position_encoding m))
     = [1; (img_size c / patch_size c) * (img_size c / patch_size c) + 1; embed_dim c]).
Proof.
  intros Hp Hh. split.
  - intros Hn Hm. now apply construct_assert.
  - intro Hm.
    destruct (construct_ok c g Hp (or_intror (conj Hh Hm))) as (m & g' & Hc & Hs & _).
    exists m, g'. split; [assumption|]. split; [assumption|]. apply Hs.
Qed.

(** C9. Shapes.  (1) On a batch of [B] images of [C] channels whose height
    and width are positive multiples of the patch size, [PatchEmbedding]
    returns shape [[B; (H/ps) * (W/ps); E]], and the embedding at position
    [r * (W/ps) + q] (the grid in row-major order) is the shared affine map
    applied to the [C * ps * ps] values of the patch in row [r] and column
    [q].  (2) An encoder block returns a tensor of the shape of its input.
    (3) The model returns shape [[B; num_classes]]. *)
Theorem C9_shape_invariants :
  (forall (self : PatchEmbedding.t F) (x : tensor F) (B C H W E ps : nat),
      PatchEmbedding.patch_size self = ps ->
      Linear_shaped (PatchEmbedding.projection self) (C * ps * ps) E ->
      shape x = [B; C; H; W] -> wf x ->
      0 < B -> 0 < C -> 0 < H -> 0 < W -> 0 < ps ->
      H mod ps = 0 -> W mod ps = 0 ->
      exists y,
        PatchEmbedding.forward self x = ok y /\
        shape y = [B; (H / ps) * (W / ps); E] /\
        forall b r q e,
          b < B -> r < H / ps -> q < W / ps -> e < E ->
          get y [b; r * (W / ps) + q; e]
          = affine (PatchEmbedding.projection self) (flatten_patch x ps C b r q) e) /\
  (forall (blk : TransformerEncoder.t F) (x : tensor F) (g : G) (B N E h mlp : nat),
      Encoder_shaped blk E h mlp -> shape x = [B; N; E] ->
      exists y g',
        TransformerEncoder.forward blk x g = inr (y, g') /\ shape y = shape x) /\
  (forall (m : VisionTransformer.t F) (c : Config) (x : tensor F) (g : G) (B : nat),
      Model_shaped m c ->
      0 < patch_size c -> 0 < img_size c -> img_size c mod patch_size c = 0 ->
      0 < in_channels c -> 0 < B ->
      shape x = [B; in_channels c; img_size c; img_size c] ->
      exists out g',
        VisionTransformer.forward m x g = inr (out, g') /\
        shape out = [B; num_classes c]).
Proof.
  split; [|split].
  - intros self x B C H W E ps <- Hl Hx Hw HB HC HH HW Hp HmH HmW.
    set (ps := PatchEmbedding.patch_size self) in *.
    assert (HH' : ps <= H).
    { destruct (Nat.lt_ge_cases H ps) as [Hlt|]; [|assumption].
      rewrite (Nat.mod_small _ _ Hlt) in HmH. lia. }
    assert (HW' : ps <= W).
    { destruct (Nat.lt_ge_cases W ps) as [Hlt|]; [|assumption].
      rewrite (Nat.mod_small _ _ Hlt) in HmW. lia. }
    destruct (PatchEmbedding_forward_ok self x B C H W E Hl Hx Hp HH' HW' HB HC)
      as (y & Hy & Hys & _ & Hg).
    exists y. split; [assumption|]. split; [assumption|]. now apply Hg.
  - intros blk x g B N E h mlp Hb Hx.
    destruct (Encoder_forward_steps blk x g B N E h mlp Hb Hx)
      as (? & ? & ? & ? & ? & ? & ? & ? & ? & x2 & ? & ? & g3 & H).
    decompose [and] H. exists x2, g3. split; [assumption|congruence].
  - intros m c x g B Hm Hp Hi Hmod HC HB Hx.
    assert (Hle : patch_size c <= img_size c).
    { destruct (Nat.lt_ge_cases (img_size c) (patch_size c)) as [Hlt|]; [|assumption].
      rewrite (Nat.mod_small _ _ Hlt) in Hmod. lia. }
    assert (HN : 0 < n_patches c).
    { unfold n_patches.
      assert (0 < img_size c / patch_size c) by (apply Nat.div_str_pos; lia). nia. }
    apply (forward_succeeds m c x g B (img_size c) (img_size c)); auto.
Qed.
End Claims.

(** * The claims on concrete inputs *)

Section Concrete.
Import Symbolic Examples.

Lemma construct_model_of (c : Config) :
  0 < patch_size c ->
  (num_layers c = 0 \/ (0 < num_heads c /\ embed_dim c mod num_heads c = 0)) ->
  construct c 0 = inr (model_of c, state_after c).
Proof.
  intros Hp Hh. unfold model_of, state_after.
  destruct (construct_ok (F := sym) c 0 Hp Hh) as (m & g & H & _).
  rewrite H. reflexivity.
Qed.

Lemma Model_shaped_model_of (c : Config) :
  0 < patch_size c ->
  (num_layers c = 0 \/ (0 < num_heads c /\ embed_dim c mod num_heads c = 0)) ->
  Model_shaped (model_of c) c.
Proof.
  intros Hp Hh.
  apply (construct_inv c 0 (state_after c) (model_of c) (construct_model_of c Hp Hh)).
Qed.

(** C1 at a failing input: one-dimensional tokens, one head, the weights of
    the query, key and value layers 2, 3 and 5, all biases 0, the sequence
    of the single token 1.  The code computes Q = K = V = 2; the key and
    value layers would give 3 and 5. *)
Theorem C1_key_and_value_come_from_the_query_layer :
  match MultiHeadSelfAttention.projections attention_1x1 one,
        Linear.forward (MultiHeadSelfAttention.key attention_1x1) one,
        Linear.forward (MultiHeadSelfAttention.value attention_1x1) one
  with
  | inr (Q, K, V), inr key_x, inr value_x =>
      value (get Q [0; 0; 0]) = Some 2%Z /\
      value (get K [0; 0; 0]) = Some 2%Z /\
      value (get V [0; 0; 0]) = Some 2%Z /\
      value (get key_x [0; 0; 0]) = Some 3%Z /\
      value (get value_x [0; 0; 0]) = Some 5%Z
  | _, _, _ => False
  end.
Proof. vm_compute. repeat split. Qed.

(** C3 on one 4x4 image and the tiny model. *)
Lemma C3_forward_is_the_sequence_of_steps_witness :
  exists out g',
    VisionTransformer.forward (model_of tiny) (arange [1; 1; 4; 4]) (state_after tiny)
    = inr (out, g') /\
    shape out = [1; 2] /\
    forward_sequence (model_of tiny) tiny (arange [1; 1; 4; 4]) (state_after tiny)
      1 out g'.
Proof.
  apply (C3_forward_is_the_sequence_of_steps (model_of tiny) tiny
           (arange [1; 1; 4; 4]) (state_after tiny) 1 4 4).
  - apply Model_shaped_model_of; [cbn; lia|right; split; [cbn; lia|reflexivity]].
  - reflexivity.
  - cbn; lia.
  - cbn; lia.
  - cbn; lia.
  - lia.
  - cbn; lia.
  - reflexivity.
Defined.

(** C4 on a batch of 32 black images and the model of the notebook. *)
Lemma C4_notebook_configuration_shapes_witness :
  n_patches notebook = 196 /\
  exists pe xcat xpos xenc out g',
    PatchEmbedding.forward (VisionTransformer.patch_embedding (model_of notebook))
      (zeros [32; 3; 224; 224]) = ok pe /\
    shape pe = [32; 196; 768] /\
    Position_Encoding.forward (VisionTransformer.position_encoding (model_of notebook))
      xcat = ok xpos /\
    shape xpos = [32; 197; 768] /\
    length (VisionTransformer.transformer_encoders (model_of notebook)) = 12 /\
    runs_layers (VisionTransformer.transformer_encoders (model_of notebook))
      xpos (state_after notebook) xenc g' /\
    VisionTransformer.forward (model_of notebook) (zeros [32; 3; 224; 224])
      (state_after notebook) = inr (out, g') /\
    shape out = [32; 10].
Proof.
  apply (C4_notebook_configuration_shapes (model_of notebook) 0 (state_after notebook)
           (state_after notebook) (zeros [32; 3; 224; 224])).
  - apply construct_model_of; [cbn; lia|right; split; [cbn; lia|reflexivity]].
  - reflexivity.
Defined.

(** C5 does not hold of the code: 5 is not a multiple of the patch size 2,
    and the tiny model returns an output for an image of 5x5 pixels. *)
Lemma C5_image_of_5x5_pixels_is_accepted :
  5 mod patch_size tiny <> 0 /\
  exists out g',
    VisionTransformer.forward (model_of tiny) (arange [1; 1; 5; 5]) (state_after tiny)
    = inr (out, g') /\
    shape out = [1; 2].
Proof.
  split; [cbn; lia|].
  apply (forward_succeeds (model_of tiny) tiny (arange [1; 1; 5; 5])
           (state_after tiny) 1 5 5).
  - apply Model_shaped_model_of; [cbn; lia|right; split; [cbn; lia|reflexivity]].
  - reflexivity.
  - cbn; lia.
  - cbn; lia.
  - reflexivity.
  - lia.
  - cbn; lia.
Qed.

(** C6 does not hold of the code: 15 does not divide 224, and construction
    with [img_size = 224] and [patch_size = 15] succeeds. *)
Lemma C6_construction_with_224_and_15_succeeds :
  224 mod 15 <> 0 /\
  exists m g',
    construct (F := sym) (mkConfig 224 3 15 768 3072 12 12 10) 0 = inr (m, g').
Proof.
  split; [cbn; lia|].
  destruct (construct_ok (F := sym) (mkConfig 224 3 15 768 3072 12 12 10) 0)
    as (m & g' & H & _); [cbn; lia|right; split; [cbn; lia|reflexivity]|].
  exists m, g'. exact H.
Qed.

(** C6, as the code has it: [embed_dim = 100] with [num_heads = 7] raises
    the assertion; the configuration of the notebook is accepted. *)
Lemma C6_construction_checks_heads_only_witness :
  construct (F := sym) (mkConfig 224 3 16 100 3072 7 12 10) 0
  = inl (AssertionError "Embedding dimesion should be divisible by num heads") /\
  exists m g',
    construct (F := sym) notebook 0 = inr (m, g') /\
    Model_shaped m notebook /\
    shape (Position_Encoding.position_encoding (VisionTransformer.position_encoding m))
    = [1; 197; 768].
Proof.
  split.
  - apply (proj1 (C6_construction_checks_heads_only
                    (mkConfig 224 3 16 100 3072 7 12 10) 0
                    ltac:(cbn; lia) ltac:(cbn; lia))); cbn; lia.
  - apply (proj2 (C6_construction_checks_heads_only notebook 0
                    ltac:(cbn; lia) ltac:(cbn; lia))).
    reflexivity.
Defined.

(** C8 on a block for two-dimensional tokens and a sequence of two tokens. *)
Lemma C8_encoder_block_is_post_norm_witness :
  exists blk g1,
    TransformerEncoder.init (F := sym) 2 1 3 None 0 = inr (blk, g1) /\
    exists y g',
      TransformerEncoder.forward blk (arange [1; 2; 2]) g1 = inr (y, g') /\
      shape y = [1; 2; 2] /\
      post_norm_steps blk (arange [1; 2; 2]) g1 1 2 2 3 y g'.
Proof.
  eexists _, _. split; [vm_compute; reflexivity|].
  match goal with |- context [TransformerEncoder.forward ?blk ?x ?g] =>
    apply (C8_encoder_block_is_post_norm blk x g 1 2 2 1 3)
  end.
  - apply (Encoder_init_inv 2 1 3 0 _ _ ltac:(lia) eq_refl eq_refl).
  - reflexivity.
Defined.

(** C9 on the tiny model: one 4x4 image gives four patch embeddings, the
    one at position [r * 2 + q] made from the patch in row [r] and column
    [q]; a block keeps the shape [[1; 2; 2]]; the model returns [[1; 2]]. *)
Lemma C9_shape_invariants_witness :
  (exists y,
      PatchEmbedding.forward (VisionTransformer.patch_embedding (model_of tiny))
        (arange [1; 1; 4; 4]) = ok y /\
      shape y = [1; 4; 2] /\
      forall b r q e,
        b < 1 -> r < 2 -> q < 2 -> e < 2 ->
        get y [b; r * 2 + q; e]
        = affine (PatchEmbedding.projection
                    (VisionTransformer.patch_embedding (model_of tiny)))
            (flatten_patch (arange [1; 1; 4; 4]) 2 1 b r q) e) /\
  (exists blk g1,
      TransformerEncoder.init (F := sym) 2 1 3 None 0 = inr (blk, g1) /\
      exists y g',
        TransformerEncoder.forward blk (arange [1; 2; 2]) g1 = inr (y, g') /\
        shape y = [1; 2; 2]) /\
  (exists out g',
      VisionTransformer.forward (model_of tiny) (arange [1; 1; 4; 4]) (state_after tiny)
      = inr (out, g') /\
      shape out = [1; 2]).
Proof.
  assert (Hm : Model_shaped (model_of tiny) tiny)
    by (apply Model_shaped_model_of; [cbn; lia|right; split; [cbn; lia|reflexivity]]).
  split; [|split].
  - apply (proj1 (C9_shape_invariants (F := sym) (G := nat))
             (VisionTransformer.patch_embedding (model_of tiny))
             (arange [1; 1; 4; 4]) 1 1 4 4 2 2).
    + apply Hm.
    + apply Hm.
    + reflexivity.
    + reflexivity.
    + lia.
    + lia.
    + lia.
    + lia.
    + lia.
    + reflexivity.
    + reflexivity.
  - eexists _, _. split; [vm_compute; reflexivity|].
    match goal with |- context [TransformerEncoder.forward ?blk ?x ?g] =>
      apply (proj1 (proj2 (C9_shape_invariants (F := sym) (G := nat)))
               blk x g 1 2 2 1 3)
    end.
    + apply (Encoder_init_inv 2 1 3 0 _ _ ltac:(lia) eq_refl eq_refl).
    + reflexivity.
  - apply (proj2 (proj2 (C9_shape_invariants (F := sym) (G := nat)))
             (model_of tiny) tiny (arange [1; 1; 4; 4]) (state_after tiny) 1 Hm).
    + cbn; lia.
    + cbn; lia.
    + reflexivity.
    + cbn; lia.
    + lia.
    + reflexivity.
Defined.

(** C10 on the tiny model. *)
Lemma C10_every_block_has_default_dropout_witness :
  length (VisionTransformer.transformer_encoders (model_of tiny)) = 1 /\
  Forall Encoder_default_dropout (VisionTransformer.transformer_encoders (model_of tiny)).
Proof.
  apply (C10_every_block_has_default_dropout tiny 0 (state_after tiny) (model_of tiny)).
  apply construct_model_of; [cbn; lia|right; split; [cbn; lia|reflexivity]].
Defined.
End Concrete.

(** * More facts about the embedding *)

Section MonadInversion.
Context {G : Type}.

Lemma mbind_inv {A B} (c : M G A) (k : A -> M G B) g r :
  mbind c k g = inr r -> exists a g1, c g = inr (a, g1) /\ k a g1 = inr r.
Proof.
  unfold mbind. destruct (c g) as [e|[a g1]]; [discriminate|].
  intro H. exists a, g1. split; [reflexivity|assumption].
Qed.

Lemma mret_inv {A} (a b : A) (g g' : G) : mret a g = inr (b, g') -> a = b /\ g = g'.
Proof. unfold mret. intro H. injection H as -> ->. split; reflexivity. Qed.

Lemma mrepeat_inv {A} (c : M G A) (P : A -> Prop) :
  (forall g a g', c g = inr (a, g') -> P a) ->
  forall n g l g', mrepeat n c g = inr (l, g') -> length l = n /\ Forall P l.
Proof.
  intro Hc. induction n as [|n IH]; intros g l g' H; cbn [mrepeat] in H.
  - apply mret_inv in H as [<- _]. split; [reflexivity|constructor].
  - apply mbind_inv in H as (a & g1 & Ha & H).
    apply mbind_inv in H as (l' & g2 & Hl & H).
    apply mret_inv in H as [<- _].
    destruct (IH _ _ _ Hl) as [Hlen HF].
    split; [simpl; congruence|constructor; [eapply Hc; eassumption|assumption]].
Qed.
End MonadInversion.

Section ConstructionMore.
Context {F G : Type} {fl : Float F} {rn : Random F G}.

Lemma Dropout_init_inv q (g g' : G) d :
  Dropout.init q g = inr (d, g') ->
  Dropout.p d = q /\ Dropout.training d = true /\
  (Qle_bool 0 q && Qle_bool q 1 = true)%bool.
Proof.
  unfold Dropout.init. destruct (Qle_bool 0 q && Qle_bool q 1)%bool.
  - intro H. apply mret_inv in H as [<- _]. repeat split.
  - discriminate.
Qed.

Lemma Dropout_init_out_of_range q (g : G) :
  (Qle_bool 0 q && Qle_bool q 1 = false)%bool -> Dropout.init q g = inl ValueError.
Proof. intro H. unfold Dropout.init. rewrite H. reflexivity. Qed.

Lemma Dropout_init_in_range q (g : G) :
  (Qle_bool 0 q && Qle_bool q 1 = true)%bool ->
  Dropout.init q g = inr (Dropout.mk q true, g).
Proof. intro H. unfold Dropout.init. rewrite H. reflexivity. Qed.

(** What [TransformerEncoder.__init__] returns, whatever its arguments. *)
Lemma Encoder_init_dropout_inv e h mlp dr (g g' : G) (b : TransformerEncoder.t F) :
  TransformerEncoder.init e h mlp dr g = inr (b, g') ->
  let q := match dr with Some q => q | None => 1 # 10 end in
  Dropout.p (TransformerEncoder.dropout b) = q /\
  Dropout.p (TransformerEncoder.dropout1 b) = q /\
  Dropout.p (TransformerEncoder.dropout2 b) = q /\
  Encoder_in_mode true b.
Proof.
  unfold TransformerEncoder.init. intro H.
  apply mbind_inv in H as (a & g1 & _ & H).
  apply mbind_inv in H as (l1 & g2 & _ & H).
  apply mbind_inv in H as (d0 & g3 & Hd0 & H).
  apply mbind_inv in H as (l2 & g4 & _ & H).
  apply mbind_inv in H as (n1 & g5 & _ & H).
  apply mbind_inv in H as (n2 & g6 & _ & H).
  apply mbind_inv in H as (d1 & g7 & Hd1 & H).
  apply mbind_inv in H as (d2 & g8 & Hd2 & H).
  apply mret_inv in H as [<- _].
  apply Dropout_init_inv in Hd0 as (? & ? & _).
  apply Dropout_init_inv in Hd1 as (? & ? & _).
  apply Dropout_init_inv in Hd2 as (? & ? & _).
  cbn. unfold Encoder_in_mode. cbn. repeat split; assumption.
Qed.

Lemma construct_encoders_inv (c : Config) (g g' : G) (m : VisionTransformer.t F) :
  construct c g = inr (m, g') ->
  exists g1 g2,
    mrepeat (num_layers c)
      (TransformerEncoder.init (F := F) (embed_dim c) (num_heads c) (mlp_dim c) None) g1
    = inr (VisionTransformer.transformer_encoders m, g2).
Proof.
  unfold construct, VisionTransformer.init.
  destruct (patch_size c =? 0); [discriminate|].
  intro H.
  apply mbind_inv in H as (pe & g1 & _ & H).
  apply mbind_inv in H as (pos & g2 & _ & H).
  apply mbind_inv in H as (cls & g3 & _ & H).
  apply mbind_inv in H as (encs & g4 & Hencs & H).
  apply mbind_inv in H as (cl & g5 & _ & H).
  apply mret_inv in H as [<- _].
  exists g3, g4. exact Hencs.
Qed.

Lemma construct_in_training_mode (c : Config) (g g' : G) (m : VisionTransformer.t F) :
  construct c g = inr (m, g') ->
  Forall (Encoder_in_mode true) (VisionTransformer.transformer_encoders m).
Proof.
  intro H. apply construct_encoders_inv in H as (g1 & g2 & H).
  apply (mrepeat_inv _ (Encoder_in_mode true)) in H; [apply H|].
  intros g0 b g0' Hb. now apply Encoder_init_dropout_inv in Hb.
Qed.

Lemma Encoder_train_same mode (b : TransformerEncoder.t F) :
  Encoder_in_mode mode b -> TransformerEncoder_train mode b = b.
Proof.
  destruct b as [a l1 [p0 t0] l2 n1 n2 [p1 t1] [p2 t2]].
  unfold Encoder_in_mode, TransformerEncoder_train, Dropout_train. cbn.
  intros (-> & -> & ->). reflexivity.
Qed.

Lemma Encoder_train_mode mode (b : TransformerEncoder.t F) :
  Encoder_in_mode mode (TransformerEncoder_train mode b).
Proof. repeat split. Qed.
End ConstructionMore.

Section EvalMode.
Context {F G : Type} {fl : Float F} {rn : Random F G}.

Lemma mbind_lift {A B} (c : result A) (k : A -> M G B) (g : G) :
  mbind (lift c) k g = match c with inl e => inl e | inr a => k a g end.
Proof. unfold mbind, lift. destruct c; reflexivity. Qed.

(** In evaluation mode a block is a function of its input alone. *)
Lemma Encoder_forward_eval (blk : TransformerEncoder.t F) (x : tensor F) :
  Encoder_in_mode false blk ->
  exists r : result (tensor F),
    forall g : G, TransformerEncoder.forward blk x g = lift r g.
Proof.
  intros (H0 & H1 & H2).
  unfold TransformerEncoder.forward.
  destruct (MultiHeadSelfAttention.forward (TransformerEncoder.self_attn blk) x)
    as [e|a]; [exists (inl e); intro g; now rewrite mbind_lift|].
  destruct (add x a) as [e|s1] eqn:Hs1.
  { exists (inl e). intro g. rewrite mbind_lift.
    unfold mbind at 1. rewrite (Dropout_forward_eval _ _ _ H1).
    rewrite mbind_lift, Hs1. reflexivity. }
  destruct (LayerNorm.forward (TransformerEncoder.norm1 blk) s1) as [e|x1] eqn:Hx1.
  { exists (inl e). intro g. rewrite mbind_lift.
    unfold mbind at 1. rewrite (Dropout_forward_eval _ _ _ H1).
    rewrite mbind_lift, Hs1, mbind_lift, Hx1. reflexivity. }
  destruct (Linear.forward (TransformerEncoder.linear1 blk) x1) as [e|h] eqn:Hh.
  { exists (inl e). intro g. rewrite mbind_lift.
    unfold mbind at 1. rewrite (Dropout_forward_eval _ _ _ H1).
    rewrite mbind_lift, Hs1, mbind_lift, Hx1, mbind_lift, Hh. reflexivity. }
  destruct (Linear.forward (TransformerEncoder.linear2 blk) (gelu h)) as [e|ff] eqn:Hff.
  { exists (inl e). intro g. rewrite mbind_lift.
    unfold mbind at 1. rewrite (Dropout_forward_eval _ _ _ H1).
    rewrite mbind_lift, Hs1, mbind_lift, Hx1, mbind_lift, Hh.
    unfold mbind at 1. rewrite (Dropout_forward_eval _ _ _ H0).
    rewrite mbind_lift, Hff. reflexivity. }
  destruct (add x1 ff) as [e|s2] eqn:Hs2.
  { exists (inl e). intro g. rewrite mbind_lift.
    unfold mbind at 1. rewrite (Dropout_forward_eval _ _ _ H1).
    rewrite mbind_lift, Hs1, mbind_lift, Hx1, mbind_lift, Hh.
    unfold mbind at 1. rewrite (Dropout_forward_eval _ _ _ H0).
    rewrite mbind_lift, Hff.
    unfold mbind at 1. rewrite (Dropout_forward_eval _ _ _ H2).
    rewrite mbind_lift, Hs2. reflexivity. }
  exists (LayerNorm.forward (TransformerEncoder.norm2 blk) s2). intro g.
  rewrite mbind_lift.
  unfold mbind at 1. rewrite (Dropout_forward_eval _ _ _ H1).
  rewrite mbind_lift, Hs1, mbind_lift, Hx1, mbind_lift, Hh.
  unfold mbind at 1. rewrite (Dropout_forward_eval _ _ _ H0).
  rewrite mbind_lift, Hff.
  unfold mbind at 1. rewrite (Dropout_forward_eval _ _ _ H2).
  rewrite mbind_lift, Hs2. reflexivity.
Qed.

Lemma mfold_eval (blocks : list (TransformerEncoder.t F)) :
  Forall (Encoder_in_mode false) blocks ->
  forall x : tensor F,
  exists r : result (tensor F),
    forall g : G, mfold TransformerEncoder.forward blocks x g = lift r g.
Proof.
  induction 1 as [|blk blocks Hb _ IH]; intro x.
  - exists (ok x). reflexivity.
  - destruct (Encoder_forward_eval blk x Hb) as ([e|x1] & Hr).
    + exists (inl e). intro g. cbn [mfold]. unfold mbind. now rewrite Hr.
    + destruct (IH x1) as (r & Hr1). exists r. intro g.
      cbn [mfold]. unfold mbind. rewrite Hr. cbn. apply Hr1.
Qed.

Lemma forward_eval (m : VisionTransformer.t F) (x : tensor F) :
  Forall (Encoder_in_mode false) (VisionTransformer.transformer_encoders m) ->
  exists r : result (tensor F),
    forall g : G, VisionTransformer.forward m x g = lift r g.
Proof.
  intro Hm. unfold VisionTransformer.forward.
  destruct (PatchEmbedding.forward (VisionTransformer.patch_embedding m) x)
    as [e|pe] eqn:H1; [exists (inl e); intro g; now rewrite mbind_lift|].
  destruct (size pe 0) as [e|B] eqn:H2;
    [exists (inl e); intro g;
     now repeat (rewrite mbind_lift; cbv beta iota; rewrite ?H2)|].
  destruct (expand (VisionTransformer.classification_token m) [Dim B; Minus1; Minus1])
    as [e|cls] eqn:H3;
    [exists (inl e); intro g;
     now repeat (rewrite mbind_lift; cbv beta iota; rewrite ?H2, ?H3)|].
  destruct (cat cls pe 1) as [e|xcat] eqn:H4;
    [exists (inl e); intro g;
     now repeat (rewrite mbind_lift; cbv beta iota; rewrite ?H2, ?H3, ?H4)|].
  destruct (Position_Encoding.forward (VisionTransformer.position_encoding m) xcat)
    as [e|xpos] eqn:H5;
    [exists (inl e); intro g;
     now repeat (rewrite mbind_lift; cbv beta iota; rewrite ?H2, ?H3, ?H4, ?H5)|].
  destruct (mfold_eval _ Hm xpos) as ([e|xenc] & Hr).
  { exists (inl e). intro g.
    repeat (rewrite mbind_lift; cbv beta iota; rewrite ?H2, ?H3, ?H4, ?H5).
    unfold mbind. now rewrite Hr. }
  exists (c0 <- select xenc 1 0 ;; Linear.forward (VisionTransformer.classifier m) c0)%result.
  intro g.
  repeat (rewrite mbind_lift; cbv beta iota; rewrite ?H2, ?H3, ?H4, ?H5).
  unfold mbind at 1. rewrite Hr. cbn [lift].
  rewrite mbind_lift. destruct (select xenc 1 0); reflexivity.
Qed.

Lemma train_encoders_in_mode mode (m : VisionTransformer.t F) :
  Forall (Encoder_in_mode mode)
    (VisionTransformer.transformer_encoders (VisionTransformer_train mode m)).
Proof.
  cbn. apply Forall_map. apply Forall_forall. intros b _. apply Encoder_train_mode.
Qed.
End EvalMode.

Lemma flat_map_ext_in {A B} (f g : A -> list B) l :
  (forall a, In a l -> f a = g a) -> flat_map f l = flat_map g l.
Proof.
  induction l as [|a l IH]; intro H; [reflexivity|].
  simpl. rewrite (H a (or_introl eq_refl)), IH; [reflexivity|].
  intros b Hb. apply H. now right.
Qed.

Section PatchLocality.
Context {F : Type} {fl : Float F}.

Lemma flatten_patch_ext (x x' : tensor F) ps C b r q :
  agree_on_patch x x' ps C b r q ->
  flatten_patch x ps C b r q = flatten_patch x' ps C b r q.
Proof.
  intro H. unfold flatten_patch.
  apply flat_map_ext_in. intros c Hc. apply in_seq in Hc.
  apply flat_map_ext_in. intros i Hi. apply in_seq in Hi.
  apply map_ext_in. intros j Hj. apply in_seq in Hj.
  apply H; lia.
Qed.

(** The embedding of a patch is computed from the pixels of that patch and
    nothing else. *)
Lemma patch_embedding_local (self : PatchEmbedding.t F) (x x' y y' : tensor F)
      B C H W E ps b r q e :
  PatchEmbedding.patch_size self = ps ->
  Linear_shaped (PatchEmbedding.projection self) (C * ps * ps) E ->
  shape x = [B; C; H; W] -> wf x -> shape x' = [B; C; H; W] -> wf x' ->
  0 < ps -> ps <= H -> ps <= W -> 0 < B -> 0 < C ->
  PatchEmbedding.forward self x = ok y ->
  PatchEmbedding.forward self x' = ok y' ->
  b < B -> r < H / ps -> q < W / ps -> e < E ->
  agree_on_patch x x' ps C b r q ->
  get y [b; r * (W / ps) + q; e] = get y' [b; r * (W / ps) + q; e].
Proof.
  intros <- Hl Hx Hw Hx' Hw' Hp HH HW HB HC Hy Hy' Hb Hr Hq He Hag.
  destruct (PatchEmbedding_forward_ok self x B C H W E Hl Hx Hp HH HW HB HC)
    as (y0 & Hy0 & _ & _ & Hg).
  destruct (PatchEmbedding_forward_ok self x' B C H W E Hl Hx' Hp HH HW HB HC)
    as (y0' & Hy0' & _ & _ & Hg').
  rewrite Hy in Hy0. injection Hy0 as <-.
  rewrite Hy' in Hy0'. injection Hy0' as <-.
  rewrite (Hg Hw b r q e Hb Hr Hq He), (Hg' Hw' b r q e Hb Hr Hq He).
  f_equal. now apply flatten_patch_ext.
Qed.
End PatchLocality.

(** ** Elements through the tensor operations *)

Lemma broadcast_strides_rev_same {F} (t0 : tensor F) sh :
  forall st, length st = length sh -> broadcast_strides_rev sh st sh = st.
Proof.
  induction sh as [|n sh IH]; intros [|s st] H; try discriminate; [reflexivity|].
  simpl. rewrite Nat.eqb_refl, IH; [reflexivity|]. simpl in H. lia.
Qed.

Lemma dot_all_zero idx st : Forall (eq 0) st -> dot idx st = 0.
Proof.
  intro H. revert idx. induction H as [|s st <- _ IH]; intros [|i idx]; simpl; auto.
  rewrite IH. lia.
Qed.

Lemma broadcast_strides_rev_scalar st s :
  Forall (eq 0) (broadcast_strides_rev [] st s).
Proof.
  destruct s as [|m s]; [constructor|]. simpl. constructor; [reflexivity|].
  induction s; simpl; constructor; auto.
Qed.

Section Elements.
Context {F : Type} {fl : Float F}.
Implicit Types (t x y : tensor F).

Lemma get_broadcast_to_same t idx :
  wf t -> get (broadcast_to t (shape t)) idx = get t idx.
Proof.
  intro H. unfold get, broadcast_to. cbn [strides offset storage].
  rewrite (broadcast_strides_rev_same t) by (rewrite !length_rev; exact H).
  now rewrite rev_involutive.
Qed.

Lemma get_broadcast_to_scalar t s idx :
  shape t = [] -> get (broadcast_to t s) idx = get t [].
Proof.
  intro H. unfold get, broadcast_to. cbn [strides offset storage]. rewrite H.
  cbn [rev]. rewrite dot_all_zero.
  - destruct (strides t); reflexivity.
  - apply Forall_rev. apply broadcast_strides_rev_scalar.
Qed.

Lemma permute_0213_get t a b c d :
  shape t = [a; b; c; d] -> wf t ->
  exists y,
    permute t [0; 2; 1; 3] = ok y /\ shape y = [a; c; b; d] /\ wf y /\
    forall i j k l, get y [i; j; k; l] = get t [i; k; j; l].
Proof.
  intros H Hw. destruct t as [sh st off sto]. cbn in H. subst sh.
  unfold wf in Hw. cbn in Hw.
  destruct st as [|s0 [|s1 [|s2 [|s3 [|? ?]]]]]; try discriminate.
  unfold permute, ndim. cbn.
  eexists. split; [reflexivity|]. split; [reflexivity|]. split; [reflexivity|].
  intros i j k l. unfold get. cbn. f_equal. lia.
Qed.

Lemma transpose_last2_get t a b c d :
  shape t = [a; b; c; d] -> wf t ->
  exists y,
    transpose t (-2) (-1) = ok y /\ shape y = [a; b; d; c] /\ wf y /\
    forall i j k l, get y [i; j; k; l] = get t [i; j; l; k].
Proof.
  intros H Hw. destruct t as [sh st off sto]. cbn in H. subst sh.
  unfold wf in Hw. cbn in Hw.
  destruct st as [|s0 [|s1 [|s2 [|s3 [|? ?]]]]]; try discriminate.
  unfold transpose, ndim. cbn [shape length].
  change (wrap_dim 4 (-2)) with (ok 2). change (wrap_dim 4 (-1)) with (ok 3).
  cbn [rbind ok].
  eexists. split; [reflexivity|]. split; [reflexivity|]. split; [reflexivity|].
  intros i j k l. unfold get. cbn. f_equal. lia.
Qed.

Lemma matmul_4d_get x y a b m k p :
  shape x = [a; b; m; k] -> shape y = [a; b; k; p] -> wf x -> wf y ->
  exists z,
    matmul x y = ok z /\ shape z = [a; b; m; p] /\ wf z /\
    forall i1 i2 i j, i1 < a -> i2 < b -> i < m -> j < p ->
      get z [i1; i2; i; j]
      = fsum (fun l => fmul (get x [i1; i2; i; l]) (get y [i1; i2; l; j])) k.
Proof.
  intros Hx Hy Hwx Hwy. unfold matmul. rewrite Hx, Hy.
  cbn [rev app]. rewrite Nat.eqb_refl. cbn [negb].
  cbn [broadcast_rev rbind ok]. rewrite !Nat.eqb_refl.
  cbn [rbind ok rev app length].
  eexists. split; [reflexivity|]. split; [reflexivity|]. split; [apply wf_build|].
  intros i1 i2 i j H1 H2 H3 H4.
  rewrite get_build by solve_in_range.
  cbn [firstn nth app].
  apply fsum_ext. intros l _.
  replace (broadcast_to x [a; b; m; k]) with (broadcast_to x (shape x))
    by now rewrite Hx.
  replace (broadcast_to y [a; b; k; p]) with (broadcast_to y (shape y))
    by now rewrite Hy.
  now rewrite !get_broadcast_to_same.
Qed.

Lemma div_scalar_get x y :
  shape y = [] ->
  exists z,
    div x y = ok z /\ shape z = shape x /\ wf z /\
    (wf x -> forall idx, in_range idx (shape x) ->
       get z idx = fdiv (get x idx) (get y [])).
Proof.
  intro Hy. unfold div, binop, broadcast_shapes. rewrite Hy. cbn [rev].
  assert (H : broadcast_rev (rev (shape x)) [] = ok (rev (shape x))).
  { destruct (rev (shape x)); reflexivity. }
  rewrite H. cbn [rbind ok]. rewrite rev_involutive.
  eexists. split; [reflexivity|]. split; [reflexivity|]. split; [apply wf_build|].
  intros Hw idx Hidx. rewrite get_build by assumption.
  now rewrite get_broadcast_to_same, get_broadcast_to_scalar.
Qed.

Lemma get_sqrt_scalar (v : F) : get (sqrt (scalar_tensor v)) [] = fsqrt v.
Proof.
  unfold sqrt, tmap, scalar_tensor. cbn [shape build].
  rewrite get_build by constructor. now rewrite get_build by constructor.
Qed.

Lemma softmax_last_get t a b c d :
  shape t = [a; b; c; d] ->
  exists y,
    softmax t (-1) = ok y /\ shape y = [a; b; c; d] /\ wf y /\
    forall i1 i2 i j, i1 < a -> i2 < b -> i < c -> j < d ->
      get y [i1; i2; i; j]
      = softmax_row (map (fun j' => get t [i1; i2; i; j']) (seq 0 d)) j.
Proof.
  intro H. unfold softmax, ndim. rewrite H. cbn [length wrap_dim].
  change (wrap_dim 4 (-1)) with (ok 3). cbn [rbind ok].
  eexists. split; [reflexivity|]. split; [reflexivity|]. split; [apply wf_build|].
  intros i1 i2 i j H1 H2 H3 H4. rewrite get_build by solve_in_range.
  unfold row_along. rewrite H. reflexivity.
Qed.
End Elements.

Section AttentionElements.
Context {F : Type} {fl : Float F}.

Lemma heads_get (q : tensor F) B N E h hd :
  shape q = [B; N; E] -> is_contiguous q = true -> h * hd = E ->
  exists v y,
    view q [Dim B; Dim N; Dim h; Dim hd] = ok v /\
    permute v [0; 2; 1; 3] = ok y /\
    shape y = [B; h; N; hd] /\ wf y /\
    forall b h' n d, get y [b; h'; n; d] = get q [b; n; h' * hd + d].
Proof.
  intros Hs Hc HE.
  change [Dim B; Dim N; Dim h; Dim hd] with (map Dim [B; N; h; hd]).
  rewrite (view_exact q [B; N; h; hd] Hc)
    by (rewrite Hs; cbn [numel fold_right]; nia).
  set (v := mkTensor [B; N; h; hd] _ _ _).
  destruct (permute_0213_get v B N h hd eq_refl) as (y & Hy & Hys & Hyw & Hg).
  { unfold wf, v. cbn [strides shape]. apply length_contig_strides. }
  exists v, y. repeat (split; [assumption || reflexivity|]).
  intros b h' n d. rewrite Hg.
  rewrite (get_contiguous_ravel q _ Hc), Hs.
  unfold get, v. cbn [shape strides offset storage]. f_equal. f_equal.
  unfold ravel. cbn [contig_strides dot numel fold_right]. subst E. ring.
Qed.

Lemma merge_heads_get (o : tensor F) B N E h hd :
  shape o = [B; h; N; hd] -> wf o -> h * hd = E ->
  exists o' o1,
    permute o [0; 2; 1; 3] = ok o' /\
    view (contiguous o') [Dim B; Dim N; Dim E] = ok o1 /\
    shape o1 = [B; N; E] /\ is_contiguous o1 = true /\
    forall b n h' d, b < B -> n < N -> h' < h -> d < hd ->
      get o1 [b; n; h' * hd + d] = get o [b; h'; n; d].
Proof.
  intros Hs Hw HE.
  destruct (permute_0213_get o _ _ _ _ Hs Hw) as (o' & Ho' & Ho's & _ & Hg).
  pose proof (is_contiguous_contiguous o') as Hc.
  change [Dim B; Dim N; Dim E] with (map Dim [B; N; E]).
  pose proof (view_exact (contiguous o') [B; N; E] Hc) as Hv.
  rewrite shape_contiguous, Ho's in Hv.
  specialize (Hv ltac:(cbn [numel fold_right]; nia)).
  set (o1 := mkTensor [B; N; E] _ _ _) in Hv.
  exists o', o1. split; [assumption|]. split; [assumption|].
  split; [reflexivity|]. split; [apply list_eqb_refl|].
  intros b n h' d Hb Hn Hh Hd.
  rewrite <- Hg, <- (get_contiguous o') by (rewrite Ho's; solve_in_range).
  rewrite (get_contiguous_ravel (contiguous o') _ Hc), shape_contiguous, Ho's.
  unfold get, o1. cbn [shape strides offset storage]. f_equal. f_equal.
  unfold ravel. cbn [contig_strides dot numel fold_right]. subst E. ring.
Qed.

Lemma attention_weights_get (a : MultiHeadSelfAttention.t F) (q k : tensor F) B h N hd :
  shape q = [B; h; N; hd] -> shape k = [B; h; N; hd] -> wf q -> wf k ->
  exists w,
    MultiHeadSelfAttention.attention_weights a q k = ok w /\
    shape w = [B; h; N; N] /\ wf w /\
    forall b h' i j, b < B -> h' < h -> i < N -> j < N ->
      get w [b; h'; i; j]
      = softmax_row
          (map (fun j' =>
                  fdiv (fsum (fun l => fmul (get q [b; h'; i; l]) (get k [b; h'; j'; l])) hd)
                       (fsqrt (of_nat (MultiHeadSelfAttention.head_dim a))))
               (seq 0 N)) j.
Proof.
  intros Hq Hk Hwq Hwk. unfold MultiHeadSelfAttention.attention_weights.
  destruct (transpose_last2_get k _ _ _ _ Hk Hwk) as (kt & Hkt & Hkts & Hktw & Hktg).
  rewrite Hkt. cbn [rbind ok].
  destruct (matmul_4d_get q kt _ _ _ _ _ Hq Hkts Hwq Hktw)
    as (qk & Hqk & Hqks & Hqkw & Hqkg).
  rewrite Hqk. cbn [rbind ok].
  match goal with |- context [div qk ?s] =>
    destruct (div_scalar_get qk s eq_refl) as (sc & Hsc & Hscs & Hscw & Hscg) end.
  rewrite Hsc. cbn [rbind ok]. rewrite Hqks in Hscs.
  destruct (softmax_last_get sc _ _ _ _ Hscs) as (w & Hw & Hws & Hww & Hwg).
  exists w. repeat (split; [assumption|]).
  intros b h' i j Hb Hh Hi Hj. rewrite Hwg by assumption. f_equal.
  apply map_ext_in. intros j' Hj'. apply in_seq in Hj'.
  rewrite (Hscg Hqkw) by (rewrite Hqks; solve_in_range).
  rewrite get_sqrt_scalar, Hqkg by lia. f_equal.
  apply fsum_ext. intros l _. now rewrite Hktg.
Qed.

(** [MultiHeadSelfAttention.forward], element by element: with [q] the
    projection of the input by [self.query], head [h'] of the attended token
    [i] is the weighted sum [head_output], the heads are laid side by side in
    the order of their numbers, and the result goes through [self.out]. *)
Lemma Attention_forward_elements (a : MultiHeadSelfAttention.t F) (x : tensor F)
      B N E h :
  Attention_shaped a E h -> shape x = [B; N; E] ->
  exists q o y,
    Linear.forward (MultiHeadSelfAttention.query a) x = ok q /\
    shape q = [B; N; E] /\
    shape o = [B; N; E] /\
    (forall b i h' d, b < B -> i < N -> h' < h -> d < E / h ->
       get o [b; i; h' * (E / h) + d] = head_output q (E / h) N b h' i d) /\
    Linear.forward (MultiHeadSelfAttention.out a) o = ok y /\
    shape y = [B; N; E] /\
    MultiHeadSelfAttention.forward a x = ok y.
Proof.
  intros (Hh & _ & Hhd & HE & Hq & _ & _ & Ho) Hx.
  unfold MultiHeadSelfAttention.forward. rewrite Hx.
  destruct (projections_ok a x B N E Hq Hx) as (q & Hql & Hp & Hqs & Hqc).
  rewrite Hp. cbn [rbind ok]. rewrite Hh.
  destruct (heads_get q B N E h (E / h) Hqs Hqc HE)
    as (v & qh & Hv & Hqh & Hqhs & Hqhw & Hqhg).
  pose proof (attention_weights_get a qh qh _ _ _ _ Hqhs Hqhs Hqhw Hqhw)
    as (w & Hw & Hws & Hww & Hwg).
  rewrite Hhd in *.
  rewrite Hv. cbn [rbind ok]. rewrite Hqh. cbn [rbind ok].
  rewrite Hw. cbn [rbind ok].
  destruct (matmul_4d_get w qh _ _ _ _ _ Hws Hqhs Hww Hqhw)
    as (o & Ho1 & Hos & How & Hog).
  rewrite Ho1. cbn [rbind ok].
  destruct (merge_heads_get o B N E h (E / h) Hos How HE)
    as (o' & o1 & Ho' & Ho1v & Ho1s & Ho1c & Ho1g).
  rewrite Ho'. cbn [rbind ok]. rewrite Ho1v. cbn [rbind ok].
  change [B; N; E] with ([B; N] ++ [E]) in Ho1s.
  pose proof (Linear_forward_ok _ o1 [B; N] E E Ho Ho1s) as Hy.
  set (y := build _ _) in Hy.
  exists q, o1, y. repeat (split; [assumption || reflexivity|]).
  split; [|split; [assumption|split; [reflexivity|assumption]]].
  intros b i h' d Hb Hi Hh' Hd.
  rewrite Ho1g, Hog by assumption.
  unfold head_output. apply fsum_ext. intros j Hj.
  rewrite Hqhg. f_equal.
  rewrite Hwg by assumption. unfold head_weight. f_equal.
  apply map_ext_in. intros j' _. unfold head_score. f_equal.
  apply fsum_ext. intros l _. now rewrite !Hqhg.
Qed.
End AttentionElements.

Section ErrorFacts.
Context {F G : Type} {fl : Float F} {rn : Random F G}.

Lemma Attention_forward_not_3d (a : MultiHeadSelfAttention.t F) (x : tensor F) :
  length (shape x) <> 3 -> MultiHeadSelfAttention.forward a x = raise ValueError.
Proof.
  intro H. unfold MultiHeadSelfAttention.forward.
  destruct (shape x) as [|? [|? [|? [|? ?]]]]; try reflexivity.
  cbn in H. lia.
Qed.

Lemma Attention_forward_wrong_dim (a : MultiHeadSelfAttention.t F) (x : tensor F)
      B N E E' h :
  Attention_shaped a E h -> shape x = [B; N; E'] -> E' <> E ->
  MultiHeadSelfAttention.forward a x = raise RuntimeError.
Proof.
  intros (_ & _ & _ & _ & Hq & _) Hx HE.
  unfold MultiHeadSelfAttention.forward, MultiHeadSelfAttention.projections.
  rewrite Hx.
  change [B; N; E'] with ([B; N] ++ [E']) in Hx.
  rewrite (Linear_forward_mismatch _ x _ _ _ _ Hq Hx HE). reflexivity.
Qed.

Lemma Encoder_forward_not_3d (blk : TransformerEncoder.t F) (x : tensor F) (g : G) :
  length (shape x) <> 3 -> TransformerEncoder.forward blk x g = inl ValueError.
Proof.
  intro H. unfold TransformerEncoder.forward. apply mbind_inl.
  unfold lift. now rewrite Attention_forward_not_3d.
Qed.

Lemma Encoder_forward_wrong_dim (blk : TransformerEncoder.t F) (x : tensor F) (g : G)
      B N E E' h mlp :
  Encoder_shaped blk E h mlp -> shape x = [B; N; E'] -> E' <> E ->
  TransformerEncoder.forward blk x g = inl RuntimeError.
Proof.
  intros (Ha & _) Hx HE. unfold TransformerEncoder.forward. apply mbind_inl.
  unfold lift. now rewrite (Attention_forward_wrong_dim _ x B N E E' h Ha Hx HE).
Qed.

Lemma add_single_position (x pos : tensor F) B L E :
  shape x = [B; L; E] -> shape pos = [1; 1; E] ->
  exists y, add x pos = ok y /\ shape y = [B; L; E] /\ wf y.
Proof.
  intros Hx Hp. unfold add, binop, broadcast_shapes. rewrite Hx, Hp.
  cbn [rev app broadcast_rev rbind ok]. rewrite !Nat.eqb_refl.
  assert (Hb : (if B =? 1 then ok [B] else if B =? 1 then ok [1] else ok [B])
               = ok (A := list nat) [B]).
  { destruct (B =? 1); reflexivity. }
  rewrite Hb. cbn [rbind ok].
  assert (Hl : (if L =? 1 then ok [L; B] else if L =? 1 then ok [1; B] else ok [L; B])
               = ok (A := list nat) [L; B]).
  { destruct (L =? 1); reflexivity. }
  rewrite Hl. cbn [rbind ok rev app].
  eexists. split; [reflexivity|]. split; [reflexivity|apply wf_build].
Qed.

(** A model whose positional encoding has the single position of the class
    token (no patch fits the configured image) takes images of any size. *)
Lemma forward_single_position (m : VisionTransformer.t F) (c : Config)
      (x : tensor F) (g : G) B H W :
  Model_shaped m c -> n_patches c = 0 ->
  shape x = [B; in_channels c; H; W] ->
  0 < patch_size c -> patch_size c <= H -> patch_size c <= W ->
  0 < B -> 0 < in_channels c ->
  exists out g',
    VisionTransformer.forward m x g = inr (out, g') /\
    shape out = [B; num_classes c].
Proof.
  intros (_ & Hps & _ & Hproj & Hpos & Hposw & Hcls & Hclsw & _ & Hencs & Hcl)
         HN Hx Hp HH HW HB HC.
  rewrite <- Hps in Hp, HH, HW, Hproj.
  destruct (PatchEmbedding_forward_ok _ x B _ H W _ Hproj Hx Hp HH HW HB HC)
    as (pe & Hpe & Hpes & _).
  destruct (expand_cls _ B _ Hcls Hclsw) as (cls & Hex & Hexs & _).
  destruct (cat_dim1 cls pe B _ _ Hexs Hpes) as (xcat & Hcat & Hcats & _).
  rewrite HN in Hpos.
  destruct (add_single_position xcat _ B _ _ Hcats Hpos)
    as (xpos & Hadd & Hadds & Haddw).
  destruct (mfold_Encoder_ok _ B _ _ _ _ Hencs xpos g Hadds Haddw)
    as (xenc & g' & Hfold & Hfolds & Hfoldw).
  destruct (select_first xenc B _ _ Hfolds ltac:(lia)) as (c0 & Hsel & Hsels & _).
  change [B; embed_dim c] with ([B] ++ [embed_dim c]) in Hsels.
  pose proof (Linear_forward_ok _ c0 [B] _ _ Hcl Hsels) as Hout.
  set (out := build _ _) in Hout.
  exists out, g'. split; [|reflexivity].
  unfold VisionTransformer.forward.
  unfold mbind at 1. rewrite Hpe, lift_ok.
  unfold mbind at 1. unfold size, ndim. rewrite Hpes. cbn [length Nat.ltb Nat.leb nth].
  rewrite lift_ok.
  unfold mbind at 1. rewrite Hex, lift_ok.
  unfold mbind at 1. rewrite Hcat, lift_ok.
  unfold mbind at 1. unfold Position_Encoding.forward. rewrite Hadd, lift_ok.
  unfold mbind at 1. rewrite Hfold.
  unfold mbind at 1. rewrite Hsel, lift_ok.
  rewrite Hout. reflexivity.
Qed.
End ErrorFacts.

(** ** Batch elements do not mix *)

Section BatchLocality.
Context {F G : Type} {fl : Float F} {rn : Random F G}.

Lemma Linear_agree (l : Linear.t F) (x x' y y' : tensor F) B N i o b :
  Linear_shaped l i o -> shape x = [B; N; i] -> shape x' = [B; N; i] ->
  Linear.forward l x = ok y -> Linear.forward l x' = ok y' -> b < B ->
  agree_on_sequence x x' N i b ->
  agree_on_sequence y y' N o b /\
  shape y = [B; N; o] /\ shape y' = [B; N; o] /\ wf y /\ wf y'.
Proof.
  intros Hl Hx Hx' Hy Hy' Hb Hag.
  change [B; N; i] with ([B; N] ++ [i]) in Hx, Hx'.
  pose proof (Linear_forward_ok l x _ _ _ Hl Hx) as E1.
  pose proof (Linear_forward_ok l x' _ _ _ Hl Hx') as E2.
  split.
  - intros n e Hn He. change [b; n; e] with ([b; n] ++ [e]).
    rewrite (Linear_forward_get l x y _ _ _ [b; n] e Hl Hx Hy),
      (Linear_forward_get l x' y' _ _ _ [b; n] e Hl Hx' Hy')
      by (try assumption; solve_in_range).
    f_equal. apply map_ext_in. intros j Hj. apply in_seq in Hj.
    apply Hag; lia.
  - rewrite E1 in Hy. rewrite E2 in Hy'. injection Hy as <-. injection Hy' as <-.
    repeat split; apply wf_build.
Qed.

Lemma add_same_shape_get (a b : tensor F) :
  shape b = shape a -> wf a -> wf b ->
  exists y,
    add a b = ok y /\ shape y = shape a /\ wf y /\
    forall idx, in_range idx (shape a) -> get y idx = fadd (get a idx) (get b idx).
Proof.
  intros H Hwa Hwb. unfold add, binop, broadcast_shapes.
  rewrite H, broadcast_rev_same. cbn [rbind ok]. rewrite rev_involutive.
  eexists. split; [reflexivity|]. split; [reflexivity|]. split; [apply wf_build|].
  intros idx Hidx. rewrite get_build by assumption.
  rewrite get_broadcast_to_same by assumption.
  rewrite <- H. now rewrite get_broadcast_to_same.
Qed.

Lemma add_agree (x x' r r' y y' : tensor F) B N E b :
  shape x = [B; N; E] -> shape x' = [B; N; E] ->
  shape r = [B; N; E] -> shape r' = [B; N; E] ->
  wf x -> wf x' -> wf r -> wf r' ->
  add x r = ok y -> add x' r' = ok y' -> b < B ->
  agree_on_sequence x x' N E b -> agree_on_sequence r r' N E b ->
  agree_on_sequence y y' N E b /\
  shape y = [B; N; E] /\ shape y' = [B; N; E] /\ wf y /\ wf y'.
Proof.
  intros Hx Hx' Hr Hr' Hwx Hwx' Hwr Hwr' Hy Hy' Hb Hag Hagr.
  destruct (add_same_shape_get x r) as (z & Hz & Hzs & Hzw & Hzg);
    [congruence|assumption|assumption|].
  destruct (add_same_shape_get x' r') as (z' & Hz' & Hz's & Hz'w & Hz'g);
    [congruence|assumption|assumption|].
  rewrite Hy in Hz. rewrite Hy' in Hz'. injection Hz as <-. injection Hz' as <-.
  split; [|repeat split; congruence].
  intros n e Hn He.
  rewrite Hzg, Hz'g by (rewrite ?Hx, ?Hx'; solve_in_range).
  now rewrite Hag, Hagr.
Qed.

Lemma LayerNorm_forward_get (ln : LayerNorm.t F) (x : tensor F) B N E :
  LayerNorm.normalized_shape ln = E -> shape x = [B; N; E] ->
  exists y,
    LayerNorm.forward ln x = ok y /\ shape y = [B; N; E] /\ wf y /\
    forall b n e, b < B -> n < N -> e < E ->
      get y [b; n; e]
      = fadd (fmul (normalize_row (map (fun j => get x [b; n; j]) (seq 0 E)) e)
                   (get (LayerNorm.weight ln) [e]))
             (get (LayerNorm.bias ln) [e]).
Proof.
  intros Hn Hx. unfold LayerNorm.forward, ndim.
  rewrite Hx. cbn [rev app length Nat.sub]. rewrite Hn, Nat.eqb_refl. cbn [negb].
  eexists. split; [reflexivity|]. split; [reflexivity|]. split; [apply wf_build|].
  intros b n e Hb Hn' He. rewrite get_build by solve_in_range.
  unfold row_along. rewrite Hx. reflexivity.
Qed.

Lemma LayerNorm_agree (ln : LayerNorm.t F) (x x' y y' : tensor F) B N E b :
  LayerNorm.normalized_shape ln = E ->
  shape x = [B; N; E] -> shape x' = [B; N; E] ->
  LayerNorm.forward ln x = ok y -> LayerNorm.forward ln x' = ok y' -> b < B ->
  agree_on_sequence x x' N E b ->
  agree_on_sequence y y' N E b /\
  shape y = [B; N; E] /\ shape y' = [B; N; E] /\ wf y /\ wf y'.
Proof.
  intros Hn Hx Hx' Hy Hy' Hb Hag.
  destruct (LayerNorm_forward_get ln x B N E Hn Hx) as (z & Hz & Hzs & Hzw & Hzg).
  destruct (LayerNorm_forward_get ln x' B N E Hn Hx') as (z' & Hz' & Hz's & Hz'w & Hz'g).
  rewrite Hy in Hz. rewrite Hy' in Hz'. injection Hz as <-. injection Hz' as <-.
  split; [|repeat split; assumption].
  intros n e Hn' He. rewrite Hzg, Hz'g by assumption.
  f_equal. f_equal. f_equal. apply map_ext_in. intros j Hj. apply in_seq in Hj.
  apply Hag; lia.
Qed.

Lemma gelu_agree (x x' : tensor F) B N E b :
  shape x = [B; N; E] -> shape x' = [B; N; E] -> b < B ->
  agree_on_sequence x x' N E b ->
  agree_on_sequence (gelu x) (gelu x') N E b /\
  shape (gelu x) = [B; N; E] /\ shape (gelu x') = [B; N; E] /\
  wf (gelu x) /\ wf (gelu x').
Proof.
  intros Hx Hx' Hb Hag. split; [|repeat split; try assumption; apply wf_build].
  intros n e Hn He. unfold gelu, tmap.
  rewrite !get_build by (rewrite ?Hx, ?Hx'; solve_in_range).
  now rewrite Hag.
Qed.

Lemma Dropout_agree (d : Dropout.t) (x x' y y' : tensor F) (g g1 g1' : G) B N E b :
  shape x = [B; N; E] -> shape x' = [B; N; E] -> wf x -> wf x' ->
  Dropout.forward d x g = inr (y, g1) -> Dropout.forward d x' g = inr (y', g1') ->
  b < B -> agree_on_sequence x x' N E b ->
  g1 = g1' /\ agree_on_sequence y y' N E b /\
  shape y = [B; N; E] /\ shape y' = [B; N; E] /\ wf y /\ wf y'.
Proof.
  intros Hx Hx' Hw Hw' Hy Hy' Hb Hag.
  unfold Dropout.forward in Hy, Hy'. rewrite Hx in Hy. rewrite Hx' in Hy'.
  destruct (Dropout.training d).
  - destruct (bernoulli (Dropout.p d) (numel [B; N; E]) g) as [keep g2].
    injection Hy as <- <-. injection Hy' as <- <-.
    split; [reflexivity|]. split; [|repeat split; apply wf_build].
    intros n e Hn He. rewrite !get_build by solve_in_range.
    now rewrite Hag.
  - injection Hy as <- <-. injection Hy' as <- <-.
    repeat split; assumption.
Qed.
End BatchLocality.

Section BatchLocality2.
Context {F G : Type} {fl : Float F} {rn : Random F G}.

Lemma head_output_agree (q q' : tensor F) N E h b h' i d :
  h * (E / h) = E -> agree_on_sequence q q' N E b ->
  h' < h -> i < N -> d < E / h ->
  head_output q (E / h) N b h' i d = head_output q' (E / h) N b h' i d.
Proof.
  intros HE Hag Hh Hi Hd. set (hd := E / h) in *.
  assert (Hin : forall l, l < hd -> h' * hd + l < E) by (intros; nia).
  unfold head_output. apply fsum_ext. intros j Hj.
  rewrite (Hag j (h' * hd + d)) by auto. f_equal.
  unfold head_weight. f_equal. apply map_ext_in. intros j' Hj'. apply in_seq in Hj'.
  unfold head_score. f_equal. apply fsum_ext. intros l Hl.
  rewrite (Hag i), (Hag j') by (auto; lia). reflexivity.
Qed.

(** The attended tokens of a batch element are computed from the tokens of
    that batch element alone. *)
Lemma Attention_agree (a : MultiHeadSelfAttention.t F) (x x' y y' : tensor F)
      B N E h b :
  Attention_shaped a E h -> shape x = [B; N; E] -> shape x' = [B; N; E] ->
  MultiHeadSelfAttention.forward a x = ok y ->
  MultiHeadSelfAttention.forward a x' = ok y' -> b < B ->
  agree_on_sequence x x' N E b ->
  agree_on_sequence y y' N E b /\
  shape y = [B; N; E] /\ shape y' = [B; N; E] /\ wf y /\ wf y'.
Proof.
  intros Ha Hx Hx' Hy Hy' Hb Hag.
  destruct (Attention_forward_elements a x B N E h Ha Hx)
    as (q & o & y0 & Hq & Hqs & Hos & Hog & Hoy & Hys & Hf).
  destruct (Attention_forward_elements a x' B N E h Ha Hx')
    as (q' & o' & y0' & Hq' & Hq's & Ho's & Ho'g & Ho'y & Hy's & Hf').
  rewrite Hy in Hf. rewrite Hy' in Hf'. injection Hf as <-. injection Hf' as <-.
  pose proof Ha as (_ & _ & _ & HE & Hql & _ & _ & Hol).
  destruct (Linear_agree _ x x' q q' B N E E b Hql Hx Hx' Hq Hq' Hb Hag) as (Hagq & _).
  apply (Linear_agree _ o o' y y' B N E E b Hol Hos Ho's Hoy Ho'y Hb).
  intros n e Hn He.
  assert (Hhd : E / h <> 0) by (intro H0; rewrite H0 in HE; lia).
  pose proof (Nat.div_mod_eq e (E / h)) as Hdm.
  assert (Hd : e mod (E / h) < E / h) by (apply Nat.mod_upper_bound; assumption).
  assert (Hh' : e / (E / h) < h).
  { apply Nat.Div0.div_lt_upper_bound. lia. }
  replace e with (e / (E / h) * (E / h) + e mod (E / h)) by lia.
  rewrite Hog, Ho'g by assumption.
  now apply head_output_agree.
Qed.

(** An encoder block keeps batch elements apart, and leaves the generator in
    a state that does not depend on the values of its input. *)
Lemma Encoder_agree (blk : TransformerEncoder.t F) (x x' y y' : tensor F)
      (g g1 g1' : G) B N E h mlp b :
  Encoder_shaped blk E h mlp ->
  shape x = [B; N; E] -> shape x' = [B; N; E] -> wf x -> wf x' ->
  TransformerEncoder.forward blk x g = inr (y, g1) ->
  TransformerEncoder.forward blk x' g = inr (y', g1') -> b < B ->
  agree_on_sequence x x' N E b ->
  g1 = g1' /\ agree_on_sequence y y' N E b /\
  shape y = [B; N; E] /\ shape y' = [B; N; E] /\ wf y /\ wf y'.
Proof.
  intros (Ha & Hl1 & Hl2 & Hn1 & Hn2) Hx Hx' Hw Hw' Hy Hy' Hb Hag.
  unfold TransformerEncoder.forward in Hy, Hy'.
  rewrite mbind_lift in Hy, Hy'.
  destruct (MultiHeadSelfAttention.forward (TransformerEncoder.self_attn blk) x)
    as [?|at1] eqn:Hat; [discriminate|].
  destruct (MultiHeadSelfAttention.forward (TransformerEncoder.self_attn blk) x')
    as [?|at1'] eqn:Hat'; [discriminate|].
  destruct (Attention_agree _ x x' at1 at1' B N E h b Ha Hx Hx' Hat Hat' Hb Hag)
    as (Hag1 & Hs1 & Hs1' & Hw1 & Hw1').
  apply mbind_inv in Hy as (d1 & g2 & Hd1 & Hy).
  apply mbind_inv in Hy' as (d1' & g2' & Hd1' & Hy').
  destruct (Dropout_agree _ at1 at1' d1 d1' g g2 g2' B N E b
              Hs1 Hs1' Hw1 Hw1' Hd1 Hd1' Hb Hag1)
    as (<- & Hag2 & Hs2 & Hs2' & Hw2 & Hw2').
  rewrite mbind_lift in Hy, Hy'.
  destruct (add x d1) as [?|s1] eqn:Hadd; [discriminate|].
  destruct (add x' d1') as [?|s1'] eqn:Hadd'; [discriminate|].
  destruct (add_agree x x' d1 d1' s1 s1' B N E b Hx Hx' Hs2 Hs2' Hw Hw' Hw2 Hw2'
              Hadd Hadd' Hb Hag Hag2) as (Hag3 & Hs3 & Hs3' & Hw3 & Hw3').
  rewrite mbind_lift in Hy, Hy'.
  destruct (LayerNorm.forward (TransformerEncoder.norm1 blk) s1) as [?|x1] eqn:Hln;
    [discriminate|].
  destruct (LayerNorm.forward (TransformerEncoder.norm1 blk) s1') as [?|x1'] eqn:Hln';
    [discriminate|].
  destruct (LayerNorm_agree _ s1 s1' x1 x1' B N E b Hn1 Hs3 Hs3' Hln Hln' Hb Hag3)
    as (Hag4 & Hs4 & Hs4' & Hw4 & Hw4').
  rewrite mbind_lift in Hy, Hy'.
  destruct (Linear.forward (TransformerEncoder.linear1 blk) x1) as [?|h1] eqn:Hli;
    [discriminate|].
  destruct (Linear.forward (TransformerEncoder.linear1 blk) x1') as [?|h1'] eqn:Hli';
    [discriminate|].
  destruct (Linear_agree _ x1 x1' h1 h1' B N E mlp b Hl1 Hs4 Hs4' Hli Hli' Hb Hag4)
    as (Hag5 & Hs5 & Hs5' & _ & _).
  destruct (gelu_agree h1 h1' B N mlp b Hs5 Hs5' Hb Hag5)
    as (Hag6 & Hs6 & Hs6' & Hw6 & Hw6').
  apply mbind_inv in Hy as (h2 & g3 & Hd0 & Hy).
  apply mbind_inv in Hy' as (h2' & g3' & Hd0' & Hy').
  destruct (Dropout_agree _ _ _ h2 h2' g2 g3 g3' B N mlp b
              Hs6 Hs6' Hw6 Hw6' Hd0 Hd0' Hb Hag6)
    as (<- & Hag7 & Hs7 & Hs7' & _ & _).
  rewrite mbind_lift in Hy, Hy'.
  destruct (Linear.forward (TransformerEncoder.linear2 blk) h2) as [?|ff] eqn:Hl2f;
    [discriminate|].
  destruct (Linear.forward (TransformerEncoder.linear2 blk) h2') as [?|ff'] eqn:Hl2f';
    [discriminate|].
  destruct (Linear_agree _ h2 h2' ff ff' B N mlp E b Hl2 Hs7 Hs7' Hl2f Hl2f' Hb Hag7)
    as (Hag8 & Hs8 & Hs8' & Hw8 & Hw8').
  apply mbind_inv in Hy as (d2 & g4 & Hd2 & Hy).
  apply mbind_inv in Hy' as (d2' & g4' & Hd2' & Hy').
  destruct (Dropout_agree _ ff ff' d2 d2' g3 g4 g4' B N E b
              Hs8 Hs8' Hw8 Hw8' Hd2 Hd2' Hb Hag8)
    as (<- & Hag9 & Hs9 & Hs9' & Hw9 & Hw9').
  rewrite mbind_lift in Hy, Hy'.
  destruct (add x1 d2) as [?|s2] eqn:Hadd2; [discriminate|].
  destruct (add x1' d2') as [?|s2'] eqn:Hadd2'; [discriminate|].
  destruct (add_agree x1 x1' d2 d2' s2 s2' B N E b Hs4 Hs4' Hs9 Hs9' Hw4 Hw4' Hw9 Hw9'
              Hadd2 Hadd2' Hb Hag4 Hag9) as (Hag10 & Hs10 & Hs10' & _ & _).
  unfold lift in Hy, Hy'.
  destruct (LayerNorm.forward (TransformerEncoder.norm2 blk) s2) as [?|x2] eqn:Hln2;
    [discriminate|].
  destruct (LayerNorm.forward (TransformerEncoder.norm2 blk) s2') as [?|x2'] eqn:Hln2';
    [discriminate|].
  injection Hy as <- <-. injection Hy' as <- <-.
  split; [reflexivity|].
  apply (LayerNorm_agree _ s2 s2' x2 x2' B N E b Hn2 Hs10 Hs10' Hln2 Hln2' Hb Hag10).
Qed.

Lemma mfold_agree (blocks : list (TransformerEncoder.t F)) B N E h mlp b :
  Forall (fun blk => Encoder_shaped blk E h mlp) blocks -> b < B ->
  forall (x x' y y' : tensor F) (g g1 g1' : G),
    shape x = [B; N; E] -> shape x' = [B; N; E] -> wf x -> wf x' ->
    mfold TransformerEncoder.forward blocks x g = inr (y, g1) ->
    mfold TransformerEncoder.forward blocks x' g = inr (y', g1') ->
    agree_on_sequence x x' N E b ->
    g1 = g1' /\ agree_on_sequence y y' N E b /\
    shape y = [B; N; E] /\ shape y' = [B; N; E] /\ wf y /\ wf y'.
Proof.
  intros HF Hb. induction HF as [|blk blocks Hblk _ IH];
    intros x x' y y' g g1 g1' Hx Hx' Hw Hw' Hy Hy' Hag.
  - cbn in Hy, Hy'. injection Hy as <- <-. injection Hy' as <- <-.
    repeat split; assumption.
  - cbn [mfold] in Hy, Hy'.
    apply mbind_inv in Hy as (x1 & g2 & H1 & Hy).
    apply mbind_inv in Hy' as (x1' & g2' & H1' & Hy').
    destruct (Encoder_agree blk x x' x1 x1' g g2 g2' B N E h mlp b
                Hblk Hx Hx' Hw Hw' H1 H1' Hb Hag)
      as (<- & Hag1 & Hs1 & Hs1' & Hw1 & Hw1').
    exact (IH x1 x1' y y' g2 g1 g1' Hs1 Hs1' Hw1 Hw1' Hy Hy' Hag1).
Qed.
End BatchLocality2.

Section BatchLocality3.
Context {F G : Type} {fl : Float F} {rn : Random F G}.

Lemma PatchEmbedding_agree (self : PatchEmbedding.t F) (x x' y y' : tensor F)
      B C H W E ps b :
  PatchEmbedding.patch_size self = ps ->
  Linear_shaped (PatchEmbedding.projection self) (C * ps * ps) E ->
  shape x = [B; C; H; W] -> wf x -> shape x' = [B; C; H; W] -> wf x' ->
  0 < ps -> ps <= H -> ps <= W -> 0 < B -> 0 < C ->
  PatchEmbedding.forward self x = ok y ->
  PatchEmbedding.forward self x' = ok y' ->
  b < B -> agree_on_image x x' ps C H W b ->
  agree_on_sequence y y' ((H / ps) * (W / ps)) E b.
Proof.
  intros Hps Hl Hx Hw Hx' Hw' Hp HH HW HB HC Hy Hy' Hb Hag n e Hn He.
  assert (Hnw : 0 < W / ps) by (apply Nat.div_str_pos; lia).
  pose proof (Nat.div_mod_eq n (W / ps)) as Hdm.
  assert (Hq : n mod (W / ps) < W / ps) by (apply Nat.mod_upper_bound; lia).
  assert (Hr : n / (W / ps) < H / ps).
  { apply Nat.Div0.div_lt_upper_bound. lia. }
  replace n with (n / (W / ps) * (W / ps) + n mod (W / ps)) by lia.
  apply (patch_embedding_local self x x' y y' B C H W E ps); auto.
Qed.

(** The logits of an image are computed from the pixels of that image that
    lie in whole patches, and the state the generator is left in does not
    depend on the pixels at all. *)
Lemma forward_agree (m : VisionTransformer.t F) (c : Config) (x x' out out' : tensor F)
      (g g1 g1' : G) B H W b :
  Model_shaped m c ->
  shape x = [B; in_channels c; H; W] -> wf x ->
  shape x' = [B; in_channels c; H; W] -> wf x' ->
  0 < patch_size c -> patch_size c <= H -> patch_size c <= W ->
  0 < B -> 0 < in_channels c ->
  (H / patch_size c) * (W / patch_size c) = n_patches c ->
  VisionTransformer.forward m x g = inr (out, g1) ->
  VisionTransformer.forward m x' g = inr (out', g1') ->
  b < B -> agree_on_image x x' (patch_size c) (in_channels c) H W b ->
  g1 = g1' /\ forall k, k < num_classes c -> get out [b; k] = get out' [b; k].
Proof.
  intros Hm Hx Hw Hx' Hw' Hp HH HW HB HC Hn Hf Hf' Hb Hag.
  destruct (forward_steps m c x g B H W Hm Hx Hp HH HW HB HC Hn)
    as (pe & cls & xcat & xpos & xenc & g2 & c0 & o & Hs).
  destruct (forward_steps m c x' g B H W Hm Hx' Hp HH HW HB HC Hn)
    as (pe' & cls' & xcat' & xpos' & xenc' & g2' & c0' & o' & Hs').
  decompose [and] Hs. decompose [and] Hs'. clear Hs Hs'.
  repeat match goal with
         | H1 : VisionTransformer.forward m ?a g = inr _,
           H2 : VisionTransformer.forward m ?a g = inr _ |- _ =>
             rewrite H1 in H2; injection H2 as <- <-
         end.
  pose proof Hm as (_ & Hps & _ & Hproj & Hpos & Hposw & _ & _ & _ & Hencs & Hcl).
  (* patch embeddings *)
  assert (Hagpe : agree_on_sequence pe pe' (n_patches c) (embed_dim c) b).
  { rewrite <- Hn.
    apply (PatchEmbedding_agree (VisionTransformer.patch_embedding m) x x' pe pe'
             B (in_channels c) H W (embed_dim c) (patch_size c)); auto. }
  (* class token in front *)
  assert (Hagcat : agree_on_sequence xcat xcat' (1 + n_patches c) (embed_dim c) b).
  { intros [|j] e Hj He.
    - repeat match goal with
             | H : forall b e, _ -> _ -> get ?t [b; 0; e] = _ |- _ => rewrite H by assumption
             end.
      reflexivity.
    - repeat match goal with
             | H : forall b j e, _ -> _ -> _ -> get ?t [b; S j; e] = _ |- _ =>
                 rewrite H by (assumption || lia)
             end.
      apply Hagpe; [lia|assumption]. }
  (* positions *)
  assert (Hagpos : agree_on_sequence xpos xpos' (1 + n_patches c) (embed_dim c) b).
  { intros l e Hl He.
    repeat match goal with
           | H : forall b l e, _ -> _ -> _ -> get ?t [b; l; e] = fadd _ _ |- _ =>
               rewrite H by assumption
           end.
    now rewrite Hagcat. }
  (* well-formedness of the sequences that enter the stack *)
  assert (Hwf : forall xc xp, shape xc = [B; 1 + n_patches c; embed_dim c] ->
                  Position_Encoding.forward (VisionTransformer.position_encoding m) xc
                  = ok xp -> wf xp).
  { intros xc xp Hxc Hxp.
    destruct (add_positions xc
                (Position_Encoding.position_encoding (VisionTransformer.position_encoding m))
                B (1 + n_patches c) (embed_dim c) Hxc) as (z & Hz & _ & Hzw & _).
    { rewrite Hpos. f_equal. f_equal. lia. }
    unfold Position_Encoding.forward in Hxp. rewrite Hxp in Hz.
    injection Hz as <-. exact Hzw. }
  (* the stack *)
  repeat match goal with
         | H : runs_layers _ _ _ _ _ |- _ => apply mfold_runs in H
         end.
  match goal with
  | H1 : mfold _ _ xpos g = inr (xenc, ?ga), H2 : mfold _ _ xpos' g = inr (xenc', ?gb) |- _ =>
      destruct (mfold_agree _ B (1 + n_patches c) (embed_dim c) (num_heads c) (mlp_dim c) b
                  Hencs Hb xpos xpos' xenc xenc' g ga gb) as (Hg & Hagenc & _);
        eauto
  end.
  split; [exact Hg|].
  intros k Hk.
  repeat match goal with
         | H : forall b k, _ -> _ -> get ?t [b; k] = affine _ _ _ |- _ =>
             rewrite H by assumption
         end.
  f_equal. apply map_ext_in. intros e He. apply in_seq in He.
  repeat match goal with
         | H : forall b e, get ?t [b; e] = get _ [b; 0; e] |- _ => rewrite H
         end.
  apply Hagenc; lia.
Qed.
End BatchLocality3.

Section MoreHelpers.
Context {F G : Type} {fl : Float F} {rn : Random F G}.

Lemma Model_shaped_train mode (m : VisionTransformer.t F) (c : Config) :
  Model_shaped m c -> Model_shaped (VisionTransformer_train mode m) c.
Proof.
  intros (H1 & H2 & H3 & H4 & H5 & H6 & H7 & H8 & H9 & H10 & H11).
  refine (conj H1 (conj H2 (conj H3 (conj H4 (conj H5 (conj H6 (conj H7
            (conj H8 (conj _ (conj _ H11)))))))))).
  - unfold VisionTransformer_train. cbn. rewrite length_map. exact H9.
  - unfold VisionTransformer_train. cbn. apply Forall_map. exact H10.
Qed.

Lemma train_same mode (m : VisionTransformer.t F) :
  Forall (Encoder_in_mode mode) (VisionTransformer.transformer_encoders m) ->
  VisionTransformer_train mode m = m.
Proof.
  destruct m as [ps pe pos cls encs cl]. unfold VisionTransformer_train. cbn.
  intro H. f_equal. induction H as [|b bs Hb _ IH]; [reflexivity|].
  cbn. now rewrite (Encoder_train_same mode b Hb), IH.
Qed.

Lemma Encoder_init_some_ok e h mlp q (g : G) :
  0 < h -> e mod h = 0 -> (Qle_bool 0 q && Qle_bool q 1 = true)%bool ->
  exists b g',
    TransformerEncoder.init (F := F) e h mlp (Some q) g = inr (b, g') /\
    Encoder_shaped b e h mlp.
Proof.
  intros Hh Hm Hq. unfold TransformerEncoder.init.
  destruct (Attention_init_ok (F := F) e h g Hh Hm) as (a & g1 & Ha & Has).
  destruct (Linear_init_ok (F := F) e mlp g1) as (l1 & g2 & Hl1 & Hl1s).
  destruct (Linear_init_ok (F := F) mlp e g2) as (l2 & g3 & Hl2 & Hl2s).
  rewrite (mbind_inr _ _ _ _ _ Ha), (mbind_inr _ _ _ _ _ Hl1),
    (mbind_inr _ _ _ _ _ (Dropout_init_in_range q _ Hq)), (mbind_inr _ _ _ _ _ Hl2),
    (mbind_inr _ _ _ _ _ (LayerNorm_init_eq _ _)),
    (mbind_inr _ _ _ _ _ (LayerNorm_init_eq _ _)),
    (mbind_inr _ _ _ _ _ (Dropout_init_in_range q _ Hq)),
    (mbind_inr _ _ _ _ _ (Dropout_init_in_range q _ Hq)).
  eexists _, _. split; [reflexivity|].
  split; [exact Has|]. split; [exact Hl1s|]. split; [exact Hl2s|].
  split; reflexivity.
Qed.

Lemma Encoder_init_some_fail e h mlp q (g : G) :
  0 < h -> e mod h = 0 -> (Qle_bool 0 q && Qle_bool q 1 = false)%bool ->
  TransformerEncoder.init (F := F) e h mlp (Some q) g = inl ValueError.
Proof.
  intros Hh Hm Hq. unfold TransformerEncoder.init.
  destruct (Attention_init_ok (F := F) e h g Hh Hm) as (a & g1 & Ha & Has).
  destruct (Linear_init_ok (F := F) e mlp g1) as (l1 & g2 & Hl1 & Hl1s).
  rewrite (mbind_inr _ _ _ _ _ Ha), (mbind_inr _ _ _ _ _ Hl1).
  apply mbind_inl. now apply Dropout_init_out_of_range.
Qed.

Lemma PatchEmbedding_forward_not_4d (self : PatchEmbedding.t F) (x : tensor F) :
  length (shape x) <> 4 -> PatchEmbedding.forward self x = raise ValueError.
Proof.
  intro H. unfold PatchEmbedding.forward.
  destruct (shape x) as [|? [|? [|? [|? [|? ?]]]]]; try reflexivity.
  cbn in H. lia.
Qed.

Lemma PatchEmbedding_forward_wrong_features (self : PatchEmbedding.t F) (x : tensor F)
      B C H W i o :
  let ps := PatchEmbedding.patch_size self in
  Linear_shaped (PatchEmbedding.projection self) i o ->
  shape x = [B; C; H; W] ->
  0 < ps -> ps <= H -> ps <= W -> 0 < B -> 0 < C ->
  C * ps * ps <> i ->
  PatchEmbedding.forward self x = raise RuntimeError.
Proof.
  destruct self as [ps E proj]. cbn.
  intros Hproj Hx Hp HH HW HB HC Hne.
  destruct (patches_ok x ps B C H W proj E Hx Hp HH HW HB HC) as (v & Hv & Hvs & _).
  rewrite Hv.
  change [B; H / ps * (W / ps); C * (ps * ps)]
    with ([B; H / ps * (W / ps)] ++ [C * (ps * ps)]) in Hvs.
  apply (Linear_forward_mismatch proj v _ _ _ _ Hproj Hvs). nia.
Qed.
End MoreHelpers.

(** * The claims that rest on the facts above *)

Section Claims2.
Context {F G : Type} {fl : Float F} {rn : Random F G}.

Lemma agree_within_image (x x' : tensor F) ps B C H W b :
  b < B -> agree_within x x' B C ((H / ps) * ps) ((W / ps) * ps) ->
  agree_on_image x x' ps C H W b.
Proof.
  intros Hb Hag r q Hr Hq c i j Hc Hi Hj. apply Hag; auto; nia.
Qed.

(** C5, as the code has it.  A four-dimensional input with another channel
    count than [in_channels], or whose grid of whole patches
    [(H // patch_size) * (W // patch_size)] is not the configured
    [n_patches], makes [forward] raise a [RuntimeError] and return nothing.
    An input with the configured channels and grid is accepted, whether or
    not its height and width are multiples of [patch_size]: the output has
    shape [[B; num_classes]], and the rows and columns beyond the last whole
    patch are dropped, that is, every batch with the same pixels in the
    first [(H // patch_size) * patch_size] rows and
    [(W // patch_size) * patch_size] columns of every image gets the same
    output, from the same state of the generator to the same state. *)
Theorem C5_shape_mismatch_raises_grid_match_is_accepted
        (m : VisionTransformer.t F) (c : Config) (x : tensor F) (g : G)
        (B C H W : nat) :
  Model_shaped m c -> shape x = [B; C; H; W] ->
  0 < patch_size c -> 0 < n_patches c ->
  (C <> in_channels c \/ (H / patch_size c) * (W / patch_size c) <> n_patches c ->
   VisionTransformer.forward m x g = inl RuntimeError) /\
  (C = in_channels c -> (H / patch_size c) * (W / patch_size c) = n_patches c ->
   0 < B -> 0 < C ->
   exists out g',
     VisionTransformer.forward m x g = inr (out, g') /\
     shape out = [B; num_classes c] /\
     forall x' : tensor F,
       shape x' = [B; C; H; W] -> wf x -> wf x' ->
       agree_within x x' B C ((H / patch_size c) * patch_size c)
                    ((W / patch_size c) * patch_size c) ->
       exists out',
         VisionTransformer.forward m x' g = inr (out', g') /\
         forall b k, b < B -> k < num_classes c -> get out [b; k] = get out' [b; k]).
Proof.
  intros Hm Hx Hp HN. split.
  - intros Hbad.
    destruct (Nat.eq_dec C (in_channels c)) as [->|HC].
    + destruct Hbad as [Hbad|Hbad]; [congruence|].
      apply (forward_wrong_grid m c x g B H W); auto.
    + apply (forward_wrong_channels m c x g B C H W); assumption.
  - intros -> Hn HB HC.
    destruct (forward_succeeds m c x g B H W Hm Hx Hp HN Hn HB HC)
      as (out & g' & Hf & Hs).
    exists out, g'. split; [exact Hf|]. split; [exact Hs|].
    intros x' Hx' Hw Hw' Hag.
    destruct (forward_succeeds m c x' g B H W Hm Hx' Hp HN Hn HB HC)
      as (out' & g1 & Hf' & _).
    assert (HH : patch_size c <= H).
    { destruct (Nat.lt_ge_cases H (patch_size c)) as [Hlt|]; [|assumption].
      rewrite (Nat.div_small _ _ Hlt) in Hn. simpl in Hn. lia. }
    assert (HW : patch_size c <= W).
    { destruct (Nat.lt_ge_cases W (patch_size c)) as [Hlt|]; [|assumption].
      rewrite (Nat.div_small _ _ Hlt), Nat.mul_0_r in Hn. lia. }
    assert (Hall : forall b, b < B ->
              g' = g1 /\
              forall k, k < num_classes c -> get out [b; k] = get out' [b; k]).
    { intros b Hb.
      apply (forward_agree m c x x' out out' g g' g1 B H W b); auto.
      now apply (agree_within_image x x' (patch_size c) B (in_channels c) H W b). }
    destruct (Hall 0 HB) as [<- _].
    exists out'. split; [exact Hf'|].
    intros b k Hb Hk. now apply (Hall b Hb).
Qed.
End Claims2.

Section SoftmaxRows.
Import Reals Lra RealScalars.
Local Open Scope R_scope.

Lemma Rsum_app (l l' : list R) : Rsum (l ++ l') = Rsum l + Rsum l'.
Proof.
  induction l as [|v l IH]; simpl; [ring|]. unfold Rsum in *. simpl. rewrite IH. ring.
Qed.





Section Weights.
Context (gelu : R -> R) (normalize : list R -> nat -> R) (scale : Q -> R -> R).

#[local] Instance real_scalars : Float R := Real_Float gelu normalize scale.


End Weights.
End SoftmaxRows.

(** * Further properties of the code *)

Section ConstructionOutcomes.
Context {F G : Type} {fl : Float F} {rn : Random F G}.

(** X1.  The check on the heads sits in [MultiHeadSelfAttention.__init__],
    which runs once per layer.  With a positive patch size and no layer,
    [VisionTransformer.__init__] returns a model whatever [num_heads] and
    [embed_dim] are, also when [num_heads] is 0 or does not divide
    [embed_dim]; the model has no encoder block.  The fields are natural
    numbers; the limits of the library on the size of a tensor are not
    modelled. *)
Theorem X1_construction_without_layers_skips_the_heads_check
        (c : Config) (g : G) :
  0 < patch_size c -> num_layers c = 0 ->
  exists m g',
    construct (F := F) c g = inr (m, g') /\
    Model_shaped m c /\
    VisionTransformer.transformer_encoders m = [].
Proof.
  intros Hp Hl.
  destruct (construct_ok (F := F) c g Hp (or_introl Hl)) as (m & g' & H & Hm & _).
  exists m, g'. split; [exact H|]. split; [exact Hm|].
  destruct Hm as (_ & _ & _ & _ & _ & _ & _ & _ & Hlen & _).
  rewrite Hl in Hlen. now apply length_zero_iff_nil.
Qed.

(** X2.  Two divisions by zero in construction.  A patch size of 0 raises
    [ZeroDivisionError] (the floor division that counts the patches),
    whatever the other fields are.  With a positive patch size and at least
    one layer, [num_heads = 0] raises [ZeroDivisionError] too: the
    remainder inside the assertion of [MultiHeadSelfAttention.__init__] is
    taken before the assertion can fail, so no [AssertionError] is seen.
    The fields are natural numbers. *)
Theorem X2_construction_divides_by_zero (c : Config) (g : G) :
  (patch_size c = 0 -> construct (F := F) c g = inl ZeroDivisionError) /\
  (0 < patch_size c -> 0 < num_layers c -> num_heads c = 0 ->
   construct (F := F) c g = inl ZeroDivisionError).
Proof.
  split.
  - apply construct_patch_size_zero.
  - apply construct_heads_zero.
Qed.

(** X3. A model that [VisionTransformer.__init__] returns is in training
    mode: the three dropout layers of every block are active.  The call
    [model.train()] at the start of every epoch leaves such a model as it
    is. *)
Theorem X3_constructed_model_is_in_training_mode
        (c : Config) (g g' : G) (m : VisionTransformer.t F) :
  construct c g = inr (m, g') ->
  Forall (Encoder_in_mode true) (VisionTransformer.transformer_encoders m) /\
  VisionTransformer_train true m = m.
Proof.
  intro H. pose proof (construct_in_training_mode c g g' m H) as Ht.
  split; [exact Ht|]. now apply train_same.
Qed.

(** X4. [TransformerEncoder.__init__] with the keyword argument [dropout]
    given: with a positive number of heads that divides the embedding
    dimension, a probability in [[0, 1]] gives a block whose three dropout
    layers all have that probability and are active; a probability outside
    [[0, 1]] makes [nn.Dropout] raise [ValueError]. *)
Theorem X4_encoder_block_takes_its_dropout_probability
        (e h mlp : nat) (q : Q) (g : G) :
  0 < h -> e mod h = 0 ->
  ((0 <= q /\ q <= 1)%Q ->
   exists b g',
     TransformerEncoder.init (F := F) e h mlp (Some q) g = inr (b, g') /\
     Encoder_shaped b e h mlp /\
     Dropout.p (TransformerEncoder.dropout b) = q /\
     Dropout.p (TransformerEncoder.dropout1 b) = q /\
     Dropout.p (TransformerEncoder.dropout2 b) = q /\
     Encoder_in_mode true b) /\
  ((q < 0 \/ 1 < q)%Q ->
   TransformerEncoder.init (F := F) e h mlp (Some q) g = inl ValueError).
Proof.
  intros Hh Hm. split.
  - intros [H0 H1].
    assert (Hq : (Qle_bool 0 q && Qle_bool q 1 = true)%bool).
    { apply andb_true_iff. split; now apply Qle_bool_iff. }
    destruct (Encoder_init_some_ok (F := F) e h mlp q g Hh Hm Hq) as (b & g' & Hb & Hs).
    exists b, g'. split; [exact Hb|]. split; [exact Hs|].
    exact (Encoder_init_dropout_inv e h mlp (Some q) g g' b Hb).
  - intro Hq. apply Encoder_init_some_fail; auto.
    apply andb_false_iff.
    destruct Hq as [Hq|Hq]; [left|right];
      (destruct (Qle_bool _ _) eqn:Hb; [|reflexivity]);
      apply Qle_bool_iff in Hb; exfalso; revert Hb; now apply Qlt_not_le.
Qed.
End ConstructionOutcomes.

Section EvaluationMode.
Context {F G : Type} {fl : Float F} {rn : Random F G}.

(** X5. In evaluation mode the forward pass does not use the random
    generator: on every input, valid or not, the outcome (the output or the
    exception) is the same for every state of the generator, and the state
    is left as it was. *)
Theorem X5_evaluation_mode_does_not_use_the_generator
        (m : VisionTransformer.t F) (x : tensor F) :
  exists r : result (tensor F),
    forall g : G,
      VisionTransformer.forward (VisionTransformer_train false m) x g = lift r g.
Proof. apply forward_eval. apply train_encoders_in_mode. Qed.

(** X6. Switching the mode keeps the parameters: in evaluation mode a batch
    that fits the configuration gets one output of shape
    [[B; num_classes]], the same for every state of the generator. *)
Theorem X6_evaluation_mode_returns_one_output
        (m : VisionTransformer.t F) (c : Config) (x : tensor F) (g : G)
        (B H W : nat) :
  Model_shaped m c ->
  shape x = [B; in_channels c; H; W] ->
  0 < patch_size c -> patch_size c <= H -> patch_size c <= W ->
  0 < B -> 0 < in_channels c ->
  (H / patch_size c) * (W / patch_size c) = n_patches c ->
  exists out,
    shape out = [B; num_classes c] /\
    forall g' : G,
      VisionTransformer.forward (VisionTransformer_train false m) x g' = inr (out, g').
Proof.
  intros Hm Hx Hp HH HW HB HC Hn.
  destruct (forward_eval (G := G) (VisionTransformer_train false m) x
              (train_encoders_in_mode false m)) as (r & Hr).
  destruct (forward_steps (VisionTransformer_train false m) c x g B H W
              (Model_shaped_train false m c Hm) Hx Hp HH HW HB HC Hn)
    as (pe & cls & xcat & xpos & xenc & g1 & c0 & out & Hs).
  decompose [and] Hs. clear Hs.
  match goal with
  | Hf : VisionTransformer.forward _ x g = inr (out, g1) |- _ =>
      rewrite Hr in Hf; destruct r as [e|out0]; [discriminate|];
        cbn in Hf; injection Hf as -> <-
  end.
  exists out. split; [assumption|]. intro g'. now rewrite Hr.
Qed.
End EvaluationMode.

Section Patches.
Context {F G : Type} {fl : Float F} {rn : Random F G}.

(** X7. The ways [PatchEmbedding.forward] fails.  An input that is not
    four-dimensional: [ValueError] (the unpacking of [x.size()]).  Patch
    size 0: [ZeroDivisionError] (the floor division).  An image lower or
    narrower than one patch, an empty batch or no channels: [RuntimeError]
    ([unfold], [view]).  An image whose patches do not have the number of
    values the projection takes: [RuntimeError]. *)
Theorem X7_patch_embedding_errors (self : PatchEmbedding.t F) (x : tensor F) :
  let ps := PatchEmbedding.patch_size self in
  (length (shape x) <> 4 -> PatchEmbedding.forward self x = raise ValueError) /\
  (forall B C H W, shape x = [B; C; H; W] ->
     (ps = 0 -> PatchEmbedding.forward self x = raise ZeroDivisionError) /\
     (0 < ps -> H < ps \/ W < ps \/ B = 0 \/ C = 0 ->
      PatchEmbedding.forward self x = raise RuntimeError) /\
     (forall i o, Linear_shaped (PatchEmbedding.projection self) i o ->
        0 < ps -> C * ps * ps <> i ->
        PatchEmbedding.forward self x = raise RuntimeError)).
Proof.
  intro ps. split; [apply PatchEmbedding_forward_not_4d|].
  intros B C H W Hx. split; [|split].
  - intro H0. now apply (forward_patch_size_zero self x B C H W).
  - intros Hp Hbad. destruct self as [ps' E proj]. cbn in ps. subst ps.
    now apply (patches_fail x ps' B C H W).
  - intros i o Hl Hp Hne.
    destruct (Nat.lt_ge_cases H ps) as [HH|HH].
    { destruct self as [ps' E proj]. cbn in ps. subst ps.
      apply (patches_fail x ps' B C H W); auto. }
    destruct (Nat.lt_ge_cases W ps) as [HW|HW].
    { destruct self as [ps' E proj]. cbn in ps. subst ps.
      apply (patches_fail x ps' B C H W); auto. }
    destruct (Nat.eq_dec B 0) as [HB|HB].
    { destruct self as [ps' E proj]. cbn in ps. subst ps.
      apply (patches_fail x ps' B C H W); auto. }
    destruct (Nat.eq_dec C 0) as [HC|HC].
    { destruct self as [ps' E proj]. cbn in ps. subst ps.
      apply (patches_fail x ps' B C H W); auto. }
    apply (PatchEmbedding_forward_wrong_features self x B C H W i o); auto; lia.
Qed.

(** X8. The embedding of a patch is made from the pixels of that patch
    alone: two batches that have the same pixels in the patch in row [r]
    and column [q] of image [b] get the same embedding at position
    [r * (W // ps) + q] of [b], whatever the other pixels are, and whether
    or not the height and the width are multiples of the patch size. *)
Theorem X8_patch_embedding_is_local
        (self : PatchEmbedding.t F) (x x' : tensor F) (B C H W E ps b r q : nat) :
  PatchEmbedding.patch_size self = ps ->
  Linear_shaped (PatchEmbedding.projection self) (C * ps * ps) E ->
  shape x = [B; C; H; W] -> wf x -> shape x' = [B; C; H; W] -> wf x' ->
  0 < ps -> ps <= H -> ps <= W -> 0 < C ->
  b < B -> r < H / ps -> q < W / ps ->
  agree_on_patch x x' ps C b r q ->
  exists y y',
    PatchEmbedding.forward self x = ok y /\
    PatchEmbedding.forward self x' = ok y' /\
    forall e, e < E ->
      get y [b; r * (W / ps) + q; e] = get y' [b; r * (W / ps) + q; e].
Proof.
  intros Hps Hl Hx Hw Hx' Hw' Hp HH HW HC Hb Hr Hq Hag.
  assert (HB : 0 < B) by lia.
  pose proof Hl as Hl'. rewrite <- Hps in Hl', Hp, HH, HW.
  destruct (PatchEmbedding_forward_ok self x B C H W E Hl' Hx Hp HH HW HB HC)
    as (y & Hy & _).
  destruct (PatchEmbedding_forward_ok self x' B C H W E Hl' Hx' Hp HH HW HB HC)
    as (y' & Hy' & _).
  exists y, y'. split; [exact Hy|]. split; [exact Hy'|].
  intros e He. rewrite Hps in Hp, HH, HW.
  now apply (patch_embedding_local self x x' y y' B C H W E ps).
Qed.
End Patches.

Section Positions.
Context {F G : Type} {fl : Float F} {rn : Random F G}.

Lemma add_broadcast_positions (x pos : tensor F) B L L' E :
  shape x = [B; L; E] -> shape pos = [1; L'; E] ->
  L = L' \/ L' = 1 \/ L = 1 ->
  exists y, add x pos = ok y /\ shape y = [B; if L =? 1 then L' else L; E].
Proof.
  intros Hx Hp HL. unfold add, binop, broadcast_shapes. rewrite Hx, Hp.
  cbn [rev app broadcast_rev rbind ok]. rewrite (Nat.eqb_refl E).
  cbn [rbind ok].
  repeat match goal with
         | |- context [?a =? ?b] =>
             destruct (Nat.eqb_spec a b); cbn [rbind ok rev app]
         end; try lia;
    (eexists; split; [reflexivity|]; cbn; try reflexivity; f_equal; f_equal; lia).
Qed.

(** X17. [Position_Encoding.forward] adds by broadcasting.  A sequence of
    the length of the encoding, and a sequence of any length when the
    encoding has one position, keep their shape; a sequence of one token is
    stretched to the length of the encoding; every other pair of lengths
    raises [RuntimeError]. *)
Theorem X17_position_encoding_broadcasts
        (self : Position_Encoding.t F) (x : tensor F) (B L L' E : nat) :
  shape x = [B; L; E] ->
  shape (Position_Encoding.position_encoding self) = [1; L'; E] ->
  (L = L' \/ L' = 1 \/ L = 1 ->
   exists y, Position_Encoding.forward self x = ok y /\
             shape y = [B; if L =? 1 then L' else L; E]) /\
  (L <> L' -> L <> 1 -> L' <> 1 ->
   Position_Encoding.forward self x = raise RuntimeError).
Proof.
  intros Hx Hp. unfold Position_Encoding.forward. split.
  - now apply add_broadcast_positions.
  - now apply (add_positions_mismatch x _ B L L' E).
Qed.
End Positions.

Section Attention.
Context {F G : Type} {fl : Float F} {rn : Random F G}.

(** X9. The attention weights.  For queries and keys of shape
    [[B; h; N; hd]] the weights have shape [[B; h; N; N]], and the row of
    token [i] in head [h'] is the softmax over the [N] tokens [j] of the
    dot product of query [i] and key [j], divided by the square root of the
    head dimension of the module. *)
Theorem X9_attention_weights_are_scaled_dot_products
        (a : MultiHeadSelfAttention.t F) (q k : tensor F) (B h N hd : nat) :
  shape q = [B; h; N; hd] -> shape k = [B; h; N; hd] -> wf q -> wf k ->
  exists w,
    MultiHeadSelfAttention.attention_weights a q k = ok w /\
    shape w = [B; h; N; N] /\
    forall b h' i j, b < B -> h' < h -> i < N -> j < N ->
      get w [b; h'; i; j]
      = softmax_row
          (map (fun j' =>
                  fdiv (fsum (fun l => fmul (get q [b; h'; i; l]) (get k [b; h'; j'; l])) hd)
                       (fsqrt (of_nat (MultiHeadSelfAttention.head_dim a))))
               (seq 0 N)) j.
Proof.
  intros Hq Hk Hwq Hwk.
  destruct (attention_weights_get a q k B h N hd Hq Hk Hwq Hwk) as (w & Hw & Hs & _ & Hg).
  exists w. auto.
Qed.

(** X10. What the attention computes, element by element.  With [q] the
    sequence projected by the query layer, head [h'] owns the components
    [h' * (E/h) .. h' * (E/h) + E/h - 1] of every token; in each head,
    token [i] becomes the sum over all tokens [j] of the softmax weight of
    the scaled score of [i] against [j] times token [j]; the heads are put
    side by side again and sent through the output layer. *)
Theorem X10_attention_element_by_element
        (a : MultiHeadSelfAttention.t F) (x : tensor F) (B N E h : nat) :
  Attention_shaped a E h -> shape x = [B; N; E] ->
  exists q o y,
    Linear.forward (MultiHeadSelfAttention.query a) x = ok q /\
    shape o = [B; N; E] /\
    (forall b i h' d, b < B -> i < N -> h' < h -> d < E / h ->
       get o [b; i; h' * (E / h) + d] = head_output q (E / h) N b h' i d) /\
    Linear.forward (MultiHeadSelfAttention.out a) o = ok y /\
    MultiHeadSelfAttention.forward a x = ok y.
Proof.
  intros Ha Hx.
  destruct (Attention_forward_elements a x B N E h Ha Hx)
    as (q & o & y & Hq & _ & Ho & Hg & Hout & _ & Hy).
  exists q, o, y. auto.
Qed.

(** X11. The attention does not mix the elements of a batch: two batches
    with the same tokens in element [b] get the same attended tokens in
    element [b]. *)
Theorem X11_attention_keeps_batch_elements_apart
        (a : MultiHeadSelfAttention.t F) (x x' : tensor F) (B N E h b : nat) :
  Attention_shaped a E h -> shape x = [B; N; E] -> shape x' = [B; N; E] ->
  b < B -> agree_on_sequence x x' N E b ->
  exists y y',
    MultiHeadSelfAttention.forward a x = ok y /\
    MultiHeadSelfAttention.forward a x' = ok y' /\
    agree_on_sequence y y' N E b.
Proof.
  intros Ha Hx Hx' Hb Hag.
  destruct (Attention_forward_ok a x B N E h Ha Hx) as (y & Hy & _).
  destruct (Attention_forward_ok a x' B N E h Ha Hx') as (y' & Hy' & _).
  exists y, y'. split; [exact Hy|]. split; [exact Hy'|].
  exact (proj1 (Attention_agree a x x' y y' B N E h b Ha Hx Hx' Hy Hy' Hb Hag)).
Qed.
End Attention.

Section Blocks.
Context {F G : Type} {fl : Float F} {rn : Random F G}.

(** X12. An encoder block returns exactly on the three-dimensional inputs
    whose last dimension is the embedding dimension.  An input with another
    number of dimensions raises [ValueError] (the unpacking of [x.size()]
    in the attention), another last dimension [RuntimeError] (the query
    layer). *)
Theorem X12_encoder_block_accepts_sequences_only
        (blk : TransformerEncoder.t F) (x : tensor F) (g : G) (E h mlp : nat) :
  Encoder_shaped blk E h mlp ->
  ((exists y g', TransformerEncoder.forward blk x g = inr (y, g')) <->
   exists B N, shape x = [B; N; E]) /\
  (length (shape x) <> 3 -> TransformerEncoder.forward blk x g = inl ValueError) /\
  (forall B N E', shape x = [B; N; E'] -> E' <> E ->
     TransformerEncoder.forward blk x g = inl RuntimeError).
Proof.
  intro Hs. split; [|split].
  - split.
    + intros (y & g' & Hy).
      destruct (shape x) as [|B [|N [|E' [|? ?]]]] eqn:Hx;
        try (rewrite (Encoder_forward_not_3d blk x g) in Hy;
             [discriminate|rewrite Hx; cbn; lia]).
      destruct (Nat.eq_dec E' E) as [->|Hne]; [now exists B, N|].
      rewrite (Encoder_forward_wrong_dim blk x g B N E E' h mlp Hs Hx Hne) in Hy.
      discriminate.
    + intros (B & N & Hx).
      destruct (Encoder_forward_steps blk x g B N E h mlp Hs Hx)
        as (? & ? & ? & ? & ? & ? & ? & ? & ? & x2 & ? & ? & g3 & Hall).
      decompose [and] Hall. now exists x2, g3.
  - apply Encoder_forward_not_3d.
  - intros B N E' Hx Hne.
    exact (Encoder_forward_wrong_dim blk x g B N E E' h mlp Hs Hx Hne).
Qed.

(** X13. An encoder block does not mix the elements of a batch, also with
    dropout active: run from the same state of the generator on two batches
    with the same tokens in element [b], it returns the same tokens in
    element [b] and leaves the generator in the same state. *)
Theorem X13_encoder_block_keeps_batch_elements_apart
        (blk : TransformerEncoder.t F) (x x' : tensor F) (g : G)
        (B N E h mlp b : nat) :
  Encoder_shaped blk E h mlp ->
  shape x = [B; N; E] -> shape x' = [B; N; E] -> wf x -> wf x' ->
  b < B -> agree_on_sequence x x' N E b ->
  exists y y' g',
    TransformerEncoder.forward blk x g = inr (y, g') /\
    TransformerEncoder.forward blk x' g = inr (y', g') /\
    agree_on_sequence y y' N E b.
Proof.
  intros Hs Hx Hx' Hw Hw' Hb Hag.
  destruct (Encoder_forward_steps blk x g B N E h mlp Hs Hx)
    as (? & ? & ? & ? & ? & ? & ? & ? & ? & y & ? & ? & g1 & Hall).
  destruct (Encoder_forward_steps blk x' g B N E h mlp Hs Hx')
    as (? & ? & ? & ? & ? & ? & ? & ? & ? & y' & ? & ? & g1' & Hall').
  assert (Hy : TransformerEncoder.forward blk x g = inr (y, g1)) by (decompose [and] Hall; assumption).
  assert (Hy' : TransformerEncoder.forward blk x' g = inr (y', g1')) by (decompose [and] Hall'; assumption).
  destruct (Encoder_agree blk x x' y y' g g1 g1' B N E h mlp b Hs Hx Hx' Hw Hw' Hy Hy' Hb Hag)
    as (Hg & Ha & _).
  subst g1'. exists y, y', g1. auto.
Qed.
End Blocks.

Section Model.
Context {F G : Type} {fl : Float F} {rn : Random F G}.

(** X14. Every outcome of the forward pass of a model with positive patch
    size and at least one configured patch.  An input that is not
    four-dimensional raises [ValueError], and nothing else does; a
    four-dimensional input raises [RuntimeError] exactly when its channels
    are not the configured ones, its grid of whole patches is not the
    configured one, or the batch or the channels are empty; every other
    input gets an output. *)
Theorem X14_forward_outcomes
        (m : VisionTransformer.t F) (c : Config) (x : tensor F) (g : G) :
  Model_shaped m c -> 0 < patch_size c -> 0 < n_patches c ->
  (VisionTransformer.forward m x g = inl ValueError <-> length (shape x) <> 4) /\
  (forall B C H W, shape x = [B; C; H; W] ->
     (VisionTransformer.forward m x g = inl RuntimeError <->
      C <> in_channels c \/
      (H / patch_size c) * (W / patch_size c) <> n_patches c \/ B = 0 \/ C = 0) /\
     ((exists out g', VisionTransformer.forward m x g = inr (out, g')) <->
      C = in_channels c /\
      (H / patch_size c) * (W / patch_size c) = n_patches c /\ 0 < B /\ 0 < C)).
Proof.
  intros Hm Hp Hn.
  assert (Hcases : forall B C H W, shape x = [B; C; H; W] ->
            (C <> in_channels c \/
             (H / patch_size c) * (W / patch_size c) <> n_patches c \/ B = 0 \/ C = 0) /\
            VisionTransformer.forward m x g = inl RuntimeError
            \/
            (C = in_channels c /\
             (H / patch_size c) * (W / patch_size c) = n_patches c /\ 0 < B /\ 0 < C) /\
            exists out g', VisionTransformer.forward m x g = inr (out, g')).
  { intros B C H W Hx.
    destruct (Nat.eq_dec C (in_channels c)) as [HC|HC].
    2:{ left. split; [auto|]. exact (forward_wrong_channels m c x g B C H W Hm Hx Hp HC). }
    subst C.
    destruct (Nat.eq_dec (H / patch_size c * (W / patch_size c)) (n_patches c)) as [Hg|Hg].
    2:{ left. split; [auto|].
        apply (forward_wrong_grid m c x g B H W Hm Hx Hp Hn). auto. }
    destruct (Nat.eq_dec B 0) as [HB|HB].
    { left. split; [auto|].
      apply (forward_wrong_grid m c x g B H W Hm Hx Hp Hn). auto. }
    destruct (Nat.eq_dec (in_channels c) 0) as [HC0|HC0].
    { left. split; [auto|].
      apply (forward_wrong_grid m c x g B H W Hm Hx Hp Hn). auto. }
    right. split; [repeat split; lia|].
    destruct (forward_succeeds m c x g B H W Hm Hx Hp Hn Hg ltac:(lia) ltac:(lia))
      as (out & g' & Hf & _).
    now exists out, g'. }
  split.
  - split; [|apply forward_not_4d].
    intros Hf Hlen.
    destruct (shape x) as [|B [|C [|H [|W [|? ?]]]]] eqn:Hx; try discriminate Hlen.
    destruct (Hcases B C H W eq_refl) as [[_ Hr]|[_ (out & g' & Hr)]];
      rewrite Hr in Hf; discriminate.
  - intros B C H W Hx. destruct (Hcases B C H W Hx) as [[Hbad Hr]|[Hgood (out & g' & Hr)]].
    + split.
      * split; auto.
      * split; [intros (out & g' & Hf); rewrite Hr in Hf; discriminate|].
        intros (-> & Hg & HB & HC). exfalso. destruct Hbad as [?|[?|[?|?]]]; lia.
    + split.
      * split; [intro Hf; rewrite Hr in Hf; discriminate|].
        destruct Hgood as (-> & Hg & HB & HC). intros [?|[?|[?|?]]]; lia.
      * split; [auto|]. intros _. now exists out, g'.
Qed.

(** X15. The logits of an image are made from the pixels of that image
    that lie in whole patches: two batches that agree on these pixels of
    image [b] get the same logits for [b], whatever the other images of the
    batch are and whatever the rows and columns beyond the last whole patch
    hold; with dropout active this holds for runs from the same state of
    the generator, which both leave in the same state. *)
Theorem X15_logits_depend_on_the_whole_patches_of_the_image
        (m : VisionTransformer.t F) (c : Config) (x x' : tensor F) (g : G)
        (B H W b : nat) :
  Model_shaped m c ->
  shape x = [B; in_channels c; H; W] -> wf x ->
  shape x' = [B; in_channels c; H; W] -> wf x' ->
  0 < patch_size c -> patch_size c <= H -> patch_size c <= W ->
  0 < in_channels c ->
  (H / patch_size c) * (W / patch_size c) = n_patches c ->
  b < B -> agree_on_image x x' (patch_size c) (in_channels c) H W b ->
  exists out out' g',
    VisionTransformer.forward m x g = inr (out, g') /\
    VisionTransformer.forward m x' g = inr (out', g') /\
    forall k, k < num_classes c -> get out [b; k] = get out' [b; k].
Proof.
  intros Hm Hx Hw Hx' Hw' Hp HH HW HC Hn Hb Hag.
  assert (HB : 0 < B) by lia.
  destruct (forward_steps m c x g B H W Hm Hx Hp HH HW HB HC Hn)
    as (? & ? & ? & ? & ? & g1 & ? & out & Hs).
  destruct (forward_steps m c x' g B H W Hm Hx' Hp HH HW HB HC Hn)
    as (? & ? & ? & ? & ? & g1' & ? & out' & Hs').
  assert (Hf : VisionTransformer.forward m x g = inr (out, g1))
    by (decompose [and] Hs; assumption).
  assert (Hf' : VisionTransformer.forward m x' g = inr (out', g1'))
    by (decompose [and] Hs'; assumption).
  destruct (forward_agree m c x x' out out' g g1 g1' B H W b
              Hm Hx Hw Hx' Hw' Hp HH HW HB HC Hn Hf Hf' Hb Hag) as (Hg & Hk).
  subst g1'. exists out, out', g1. auto.
Qed.

(** X16. A model configured with images smaller than one patch has a
    positional encoding of the single position of the class token, which
    broadcasts over every sequence: the model then returns an output for
    images of every size that holds at least one patch, whatever their grid
    of patches is. *)
Theorem X16_model_without_patches_takes_every_grid
        (m : VisionTransformer.t F) (c : Config) (x : tensor F) (g : G)
        (B H W : nat) :
  Model_shaped m c -> img_size c < patch_size c ->
  shape x = [B; in_channels c; H; W] ->
  patch_size c <= H -> patch_size c <= W ->
  0 < B -> 0 < in_channels c ->
  exists out g',
    VisionTransformer.forward m x g = inr (out, g') /\
    shape out = [B; num_classes c].
Proof.
  intros Hm Hlt Hx HH HW HB HC.
  apply (forward_single_position m c x g B H W); auto; [|lia].
  unfold n_patches. rewrite (Nat.div_small _ _ Hlt). reflexivity.
Qed.
(** X18. A model without encoder blocks, which construction accepts, does
    not look at the image: on every batch that fits the configuration each
    image gets the logits of the classifier applied to the class token
    plus the first position, and the generator is left as it was. *)
Theorem X18_model_without_layers_ignores_the_image
        (m : VisionTransformer.t F) (c : Config) (x : tensor F) (g : G)
        (B H W : nat) :
  Model_shaped m c -> num_layers c = 0 ->
  shape x = [B; in_channels c; H; W] ->
  0 < patch_size c -> patch_size c <= H -> patch_size c <= W ->
  0 < B -> 0 < in_channels c ->
  (H / patch_size c) * (W / patch_size c) = n_patches c ->
  exists out,
    VisionTransformer.forward m x g = inr (out, g) /\
    forall b k, b < B -> k < num_classes c ->
      get out [b; k]
      = affine (VisionTransformer.classifier m)
          (map (fun e =>
                  fadd (get (VisionTransformer.classification_token m) [0; 0; e])
                       (get (Position_Encoding.position_encoding
                               (VisionTransformer.position_encoding m)) [0; 0; e]))
               (seq 0 (embed_dim c))) k.
Proof.
  intros Hm Hl Hx Hp HH HW HB HC Hn.
  destruct (forward_steps m c x g B H W Hm Hx Hp HH HW HB HC Hn)
    as (pe & cls & xcat & xpos & xenc & g' & c0 & out & Hs).
  decompose [and] Hs. clear Hs.
  pose proof Hm as (_ & _ & _ & _ & _ & _ & _ & _ & Hlen & _).
  rewrite Hl in Hlen. apply length_zero_iff_nil in Hlen.
  match goal with
  | Hr : runs_layers _ xpos g xenc g' |- _ =>
      rewrite Hlen in Hr; inversion Hr; subst
  end.
  exists out. split; [assumption|].
  intros b k Hb Hk.
  match goal with
  | Ho : forall b k, _ -> _ -> get out [b; k] = _ |- _ => rewrite (Ho b k Hb Hk)
  end.
  f_equal. apply map_ext_in. intros e He. apply in_seq in He.
  match goal with
  | Hc : forall b e, get c0 [b; e] = _ |- _ => rewrite Hc
  end.
  match goal with
  | Hq : forall b l e, _ -> _ -> _ -> get xenc [b; l; e] = _ |- _ =>
      rewrite (Hq b 0 e Hb ltac:(lia) ltac:(lia))
  end.
  match goal with
  | Hq : forall b e, _ -> _ -> get xcat [b; 0; e] = _ |- _ =>
      rewrite (Hq b e Hb ltac:(lia))
  end.
  reflexivity.
Qed.
End Model.

(** * The further properties at concrete inputs *)

Section Concrete2.
Import Symbolic Examples MoreExamples.

Lemma Model_shaped_tiny : Model_shaped (model_of tiny) tiny.
Proof.
  apply Model_shaped_model_of; [cbn; lia|right; split; [cbn; lia|reflexivity]].
Qed.

(** C5, as the code has it, on the tiny model: an image of 6x6 pixels (a
    grid of 9 patches, 4 configured) raises; an image of 5x5 pixels is
    accepted, and its last row and last column are dropped. *)
Lemma C5_shape_mismatch_raises_grid_match_is_accepted_witness :
  VisionTransformer.forward (model_of tiny) (arange [1; 1; 6; 6]) (state_after tiny)
  = inl RuntimeError /\
  exists out g',
    VisionTransformer.forward (model_of tiny) (arange [1; 1; 5; 5]) (state_after tiny)
    = inr (out, g') /\
    shape out = [1; 2] /\
    forall x' : tensor sym,
      shape x' = [1; 1; 5; 5] -> wf (arange [1; 1; 5; 5]) -> wf x' ->
      agree_within (arange [1; 1; 5; 5]) x' 1 1 4 4 ->
      exists out',
        VisionTransformer.forward (model_of tiny) x' (state_after tiny) = inr (out', g') /\
        forall b k, b < 1 -> k < 2 -> get out [b; k] = get out' [b; k].
Proof.
  split.
  - apply (proj1 (C5_shape_mismatch_raises_grid_match_is_accepted
                    (model_of tiny) tiny (arange [1; 1; 6; 6]) (state_after tiny)
                    1 1 6 6 Model_shaped_tiny eq_refl ltac:(cbn; lia) ltac:(cbn; lia))).
    right. cbn. lia.
  - apply (proj2 (C5_shape_mismatch_raises_grid_match_is_accepted
                    (model_of tiny) tiny (arange [1; 1; 5; 5]) (state_after tiny)
                    1 1 5 5 Model_shaped_tiny eq_refl ltac:(cbn; lia) ltac:(cbn; lia)));
      [reflexivity|reflexivity|lia|lia].
Defined.

(** X1 on a configuration without layers and without heads. *)
Lemma X1_construction_without_layers_skips_the_heads_check_witness :
  exists m g',
    construct (F := sym) no_layers_no_heads 0 = inr (m, g') /\
    Model_shaped m no_layers_no_heads /\
    VisionTransformer.transformer_encoders m = [].
Proof.
  apply (X1_construction_without_layers_skips_the_heads_check (F := sym)
           no_layers_no_heads 0).
  - cbn; lia.
  - reflexivity.
Defined.

(** X3 on the tiny model. *)
Lemma X3_constructed_model_is_in_training_mode_witness :
  Forall (Encoder_in_mode true) (VisionTransformer.transformer_encoders (model_of tiny)) /\
  VisionTransformer_train true (model_of tiny) = model_of tiny.
Proof.
  apply (X3_constructed_model_is_in_training_mode tiny 0 (state_after tiny) (model_of tiny)).
  apply construct_model_of; [cbn; lia|right; split; [cbn; lia|reflexivity]].
Defined.

(** X4 with two-dimensional tokens, one head and an MLP of width 3: the
    probability 1/2 is taken, 3/2 is refused. *)
Lemma X4_encoder_block_takes_its_dropout_probability_witness :
  (exists b g',
      TransformerEncoder.init (F := sym) 2 1 3 (Some (1 # 2)) 0 = inr (b, g') /\
      Encoder_shaped b 2 1 3 /\
      Dropout.p (TransformerEncoder.dropout b) = 1 # 2 /\
      Dropout.p (TransformerEncoder.dropout1 b) = 1 # 2 /\
      Dropout.p (TransformerEncoder.dropout2 b) = 1 # 2 /\
      Encoder_in_mode true b) /\
  TransformerEncoder.init (F := sym) 2 1 3 (Some (3 # 2)) 0 = inl ValueError.
Proof.
  split.
  - apply (proj1 (X4_encoder_block_takes_its_dropout_probability (F := sym)
                    2 1 3 (1 # 2) 0 ltac:(lia) eq_refl)).
    split; discriminate.
  - apply (proj2 (X4_encoder_block_takes_its_dropout_probability (F := sym)
                    2 1 3 (3 # 2) 0 ltac:(lia) eq_refl)).
    right. reflexivity.
Defined.

(** X6 on the tiny model in evaluation mode and one 4x4 image. *)
Lemma X6_evaluation_mode_returns_one_output_witness :
  exists out,
    shape out = [1; 2] /\
    forall g' : nat,
      VisionTransformer.forward (VisionTransformer_train false (model_of tiny))
        (arange [1; 1; 4; 4]) g' = inr (out, g').
Proof.
  apply (X6_evaluation_mode_returns_one_output (model_of tiny) tiny
           (arange [1; 1; 4; 4]) 0 1 4 4).
  - exact Model_shaped_tiny.
  - reflexivity.
  - cbn; lia.
  - cbn; lia.
  - cbn; lia.
  - lia.
  - cbn; lia.
  - reflexivity.
Defined.

(** X8 on the patch embedding of the tiny model: a black 4x4 image and an
    image that is black in its first patch only have the same embedding at
    position 0. *)
Lemma X8_patch_embedding_is_local_witness :
  exists y y',
    PatchEmbedding.forward (VisionTransformer.patch_embedding (model_of tiny))
      (zeros [1; 1; 4; 4]) = ok y /\
    PatchEmbedding.forward (VisionTransformer.patch_embedding (model_of tiny))
      (marked [1; 1; 4; 4] first_patch) = ok y' /\
    forall e, e < 2 -> get y [0; 0 * (4 / 2) + 0; e] = get y' [0; 0 * (4 / 2) + 0; e].
Proof.
  apply (X8_patch_embedding_is_local
           (VisionTransformer.patch_embedding (model_of tiny))
           (zeros [1; 1; 4; 4]) (marked [1; 1; 4; 4] first_patch) 1 1 4 4 2 2 0 0 0).
  - apply Model_shaped_tiny.
  - apply Model_shaped_tiny.
  - reflexivity.
  - apply wf_build.
  - reflexivity.
  - apply wf_build.
  - lia.
  - lia.
  - lia.
  - lia.
  - lia.
  - cbn; lia.
  - cbn; lia.
  - intros c i j Hc Hi Hj.
    destruct c as [|c]; [|lia].
    destruct i as [|[|i]]; [| |lia]; (destruct j as [|[|j]]; [| |lia]); reflexivity.
Defined.

(** X9 on two tokens of one component in one head. *)
Lemma X9_attention_weights_are_scaled_dot_products_witness :
  exists w,
    MultiHeadSelfAttention.attention_weights attention_1x1
      (arange [1; 1; 2; 1]) (arange [1; 1; 2; 1]) = ok w /\
    shape w = [1; 1; 2; 2] /\
    forall b h' i j, b < 1 -> h' < 1 -> i < 2 -> j < 2 ->
      get w [b; h'; i; j]
      = softmax_row
          (map (fun j' =>
                  fdiv (fsum (fun l => fmul (get (arange [1; 1; 2; 1]) [b; h'; i; l])
                                            (get (arange [1; 1; 2; 1]) [b; h'; j'; l])) 1)
                       (fsqrt (of_nat (MultiHeadSelfAttention.head_dim attention_1x1))))
               (seq 0 2)) j.
Proof.
  apply (X9_attention_weights_are_scaled_dot_products attention_1x1
           (arange [1; 1; 2; 1]) (arange [1; 1; 2; 1]) 1 1 2 1).
  - reflexivity.
  - reflexivity.
  - apply wf_build.
  - apply wf_build.
Defined.

Lemma Attention_shaped_1x1 : Attention_shaped attention_1x1 1 1.
Proof. repeat split. Qed.

(** X10 on the sequence of the single token 1. *)
Lemma X10_attention_element_by_element_witness :
  exists q o y,
    Linear.forward (MultiHeadSelfAttention.query attention_1x1) one = ok q /\
    shape o = [1; 1; 1] /\
    (forall b i h' d, b < 1 -> i < 1 -> h' < 1 -> d < 1 / 1 ->
       get o [b; i; h' * (1 / 1) + d] = head_output q (1 / 1) 1 b h' i d) /\
    Linear.forward (MultiHeadSelfAttention.out attention_1x1) o = ok y /\
    MultiHeadSelfAttention.forward attention_1x1 one = ok y.
Proof.
  apply (X10_attention_element_by_element attention_1x1 one 1 1 1 1).
  - exact Attention_shaped_1x1.
  - reflexivity.
Defined.

(** X11 on two batches of two one-token sequences that differ in the
    second sequence only. *)
Lemma X11_attention_keeps_batch_elements_apart_witness :
  exists y y',
    MultiHeadSelfAttention.forward attention_1x1 (zeros [2; 1; 1]) = ok y /\
    MultiHeadSelfAttention.forward attention_1x1 (marked [2; 1; 1] first_element) = ok y' /\
    agree_on_sequence y y' 1 1 0.
Proof.
  apply (X11_attention_keeps_batch_elements_apart attention_1x1
           (zeros [2; 1; 1]) (marked [2; 1; 1] first_element) 2 1 1 1 0).
  - exact Attention_shaped_1x1.
  - reflexivity.
  - reflexivity.
  - lia.
  - intros n e Hn He. destruct n as [|n]; [|lia]. destruct e as [|e]; [|lia].
    reflexivity.
Defined.

(** X12 on a freshly constructed block and a sequence of two tokens. *)
Lemma X12_encoder_block_accepts_sequences_only_witness :
  exists blk g1,
    TransformerEncoder.init (F := sym) 2 1 3 None 0 = inr (blk, g1) /\
    ((exists y g', TransformerEncoder.forward blk (arange [1; 2; 2]) g1 = inr (y, g')) <->
     exists B N, shape (arange [1; 2; 2]) = [B; N; 2]) /\
    (length (shape (arange [1; 2; 2])) <> 3 ->
     TransformerEncoder.forward blk (arange [1; 2; 2]) g1 = inl ValueError) /\
    (forall B N E', shape (arange [1; 2; 2]) = [B; N; E'] -> E' <> 2 ->
       TransformerEncoder.forward blk (arange [1; 2; 2]) g1 = inl RuntimeError).
Proof.
  eexists _, _. split; [vm_compute; reflexivity|].
  match goal with |- context [TransformerEncoder.forward ?blk ?x ?g] =>
    apply (X12_encoder_block_accepts_sequences_only blk x g 2 1 3)
  end.
  apply (Encoder_init_inv 2 1 3 0 _ _ ltac:(lia) eq_refl eq_refl).
Defined.

(** X13 on a freshly constructed block, dropout active, and two batches of
    two sequences that differ in the second sequence only. *)
Lemma X13_encoder_block_keeps_batch_elements_apart_witness :
  exists blk g1,
    TransformerEncoder.init (F := sym) 2 1 3 None 0 = inr (blk, g1) /\
    exists y y' g',
      TransformerEncoder.forward blk (zeros [2; 2; 2]) g1 = inr (y, g') /\
      TransformerEncoder.forward blk (marked [2; 2; 2] first_element) g1 = inr (y', g') /\
      agree_on_sequence y y' 2 2 0.
Proof.
  eexists _, _. split; [vm_compute; reflexivity|].
  match goal with |- context [TransformerEncoder.forward ?blk (zeros _) ?g] =>
    apply (X13_encoder_block_keeps_batch_elements_apart blk
             (zeros [2; 2; 2]) (marked [2; 2; 2] first_element) g 2 2 2 1 3 0)
  end.
  - apply (Encoder_init_inv 2 1 3 0 _ _ ltac:(lia) eq_refl eq_refl).
  - reflexivity.
  - reflexivity.
  - apply wf_build.
  - apply wf_build.
  - lia.
  - intros n e Hn He.
    destruct n as [|[|n]]; [| |lia]; (destruct e as [|[|e]]; [| |lia]); reflexivity.
Defined.

(** X14 on the tiny model and one 4x4 image. *)
Lemma X14_forward_outcomes_witness :
  (VisionTransformer.forward (model_of tiny) (arange [1; 1; 4; 4]) (state_after tiny)
   = inl ValueError <-> length (shape (arange [1; 1; 4; 4])) <> 4) /\
  (forall B C H W, shape (arange [1; 1; 4; 4]) = [B; C; H; W] ->
     (VisionTransformer.forward (model_of tiny) (arange [1; 1; 4; 4]) (state_after tiny)
      = inl RuntimeError <->
      C <> in_channels tiny \/
      (H / patch_size tiny) * (W / patch_size tiny) <> n_patches tiny \/ B = 0 \/ C = 0) /\
     ((exists out g',
          VisionTransformer.forward (model_of tiny) (arange [1; 1; 4; 4]) (state_after tiny)
          = inr (out, g')) <->
      C = in_channels tiny /\
      (H / patch_size tiny) * (W / patch_size tiny) = n_patches tiny /\ 0 < B /\ 0 < C)).
Proof.
  apply (X14_forward_outcomes (model_of tiny) tiny (arange [1; 1; 4; 4])
           (state_after tiny)).
  - exact Model_shaped_tiny.
  - cbn; lia.
  - vm_compute; lia.
Defined.

(** X15 on the tiny model: a batch of two black 5x5 images, and a batch
    that is black in the 4x4 pixels of the whole patches of its first image
    only, get the same logits for the first image. *)
Lemma X15_logits_depend_on_the_whole_patches_of_the_image_witness :
  exists out out' g',
    VisionTransformer.forward (model_of tiny) (zeros [2; 1; 5; 5]) (state_after tiny)
    = inr (out, g') /\
    VisionTransformer.forward (model_of tiny)
      (marked [2; 1; 5; 5] whole_patches_of_first_image) (state_after tiny)
    = inr (out', g') /\
    forall k, k < 2 -> get out [0; k] = get out' [0; k].
Proof.
  apply (X15_logits_depend_on_the_whole_patches_of_the_image (model_of tiny) tiny
           (zeros [2; 1; 5; 5]) (marked [2; 1; 5; 5] whole_patches_of_first_image)
           (state_after tiny) 2 5 5 0).
  - exact Model_shaped_tiny.
  - reflexivity.
  - apply wf_build.
  - reflexivity.
  - apply wf_build.
  - cbn; lia.
  - cbn; lia.
  - cbn; lia.
  - cbn; lia.
  - reflexivity.
  - lia.
  - intros r q Hr Hq c i j Hc Hi Hj.
    change (5 / patch_size tiny) with 2 in Hr, Hq.
    change (patch_size tiny) with 2 in *. change (in_channels tiny) with 1 in Hc.
    destruct c as [|c]; [|lia].
    destruct r as [|[|r]]; [| |lia];
      (destruct q as [|[|q]]; [| |lia]);
      (destruct i as [|[|i]]; [| |lia]);
      (destruct j as [|[|j]]; [| |lia]); reflexivity.
Defined.

(** X16 on a model configured with 1x1 images and 2x2 patches, and an image
    of 4x6 pixels. *)
Lemma X16_model_without_patches_takes_every_grid_witness :
  exists out g',
    VisionTransformer.forward (model_of small_image) (arange [1; 1; 4; 6])
      (state_after small_image) = inr (out, g') /\
    shape out = [1; 2].
Proof.
  apply (X16_model_without_patches_takes_every_grid (model_of small_image) small_image
           (arange [1; 1; 4; 6]) (state_after small_image) 1 4 6).
  - apply Model_shaped_model_of; [cbn; lia|right; split; [cbn; lia|reflexivity]].
  - cbn; lia.
  - reflexivity.
  - cbn; lia.
  - cbn; lia.
  - lia.
  - cbn; lia.
Defined.

(** X17 on the positional encoding of the tiny model, which has five
    positions: three sequences of one token come back with five tokens. *)
Lemma X17_position_encoding_broadcasts_witness :
  exists y,
    Position_Encoding.forward (VisionTransformer.position_encoding (model_of tiny))
      (arange [3; 1; 2]) = ok y /\
    shape y = [3; 5; 2].
Proof.
  apply (proj1 (X17_position_encoding_broadcasts
                  (VisionTransformer.position_encoding (model_of tiny))
                  (arange [3; 1; 2]) 3 1 5 2 eq_refl
                  (proj1 (proj2 (proj2 (proj2 (proj2 Model_shaped_tiny))))))).
  right. right. reflexivity.
Defined.

(** X18 on the tiny configuration without layers and one 4x4 image. *)
Lemma X18_model_without_layers_ignores_the_image_witness :
  exists out,
    VisionTransformer.forward (model_of no_layers) (arange [1; 1; 4; 4])
      (state_after no_layers) = inr (out, state_after no_layers) /\
    forall b k, b < 1 -> k < 2 ->
      get out [b; k]
      = affine (VisionTransformer.classifier (model_of no_layers))
          (map (fun e =>
                  fadd (get (VisionTransformer.classification_token (model_of no_layers))
                          [0; 0; e])
                       (get (Position_Encoding.position_encoding
                               (VisionTransformer.position_encoding (model_of no_layers)))
                          [0; 0; e]))
               (seq 0 2)) k.
Proof.
  apply (X18_model_without_layers_ignores_the_image (model_of no_layers) no_layers
           (arange [1; 1; 4; 4]) (state_after no_layers) 1 4 4).
  - apply Model_shaped_model_of; [cbn; lia|left; reflexivity].
  - reflexivity.
  - reflexivity.
  - cbn; lia.
  - cbn; lia.
  - cbn; lia.
  - lia.
  - cbn; lia.
  - reflexivity.
Defined.
End Concrete2.

Section ConcreteReal.
Import Reals RealScalars RealExamples.

End ConcreteReal.
